(** * Container provisioning and worker compatibility (package [worker])

    A shallow embedding of [containerProvider.FindOrCreateContainer],
    [containerProvider.createGardenContainer] and of the compatibility
    matcher of [gardenWorker] ([Satisfying], [tagsMatch],
    [determineUnderlyingTypeName], [IsVersionCompatible]).

    Go values are modelled as follows: [int] as [Z], [string] as
    [string], slices as lists, [map[string]T] as [gmap string T], a
    nilable pointer or interface as [option], and a multi-valued return
    [(x, err)] as a pair whose error component is an [option error]. *)

From Stdlib Require Import ZArith String Ascii List Bool Lia.
From stdpp Require Import base option list gmap strings sorting.

Open Scope string_scope.
Open Scope list_scope.
Open Scope Z_scope.

(** ** Errors *)

(** The package's sentinel errors, garden's [ContainerNotFoundError]
    and a catch-all for the errors of the collaborators. *)
Inductive error : Type :=
  | ErrUnsupportedResourceType
  | ErrIncompatiblePlatform
  | ErrMismatchedTags
  | ErrTeamMismatch
  | ErrNotImplemented
  | ContainerNotFoundError (handle : string)
  | ErrOther (msg : string).

#[global] Instance error_eq_dec : EqDecision error.
Proof. solve_decision. Defined.

(** [_, ok := err.(garden.ContainerNotFoundError)] *)
Definition isContainerNotFoundError (e : error) : bool :=
  match e with
  | ContainerNotFoundError _ => true
  | _ => false
  end.

(** ** Data of the matcher *)

(** [atc.WorkerResourceType] *)
Module WorkerResourceType.
Record t : Type := mk { Type_ : string; Image : string }.
End WorkerResourceType.

(** [creds.VersionedResourceType]: only the name and the type it is
    built from are read by this package. *)
Module VersionedResourceType.
Record t : Type := mk { Name : string; Type_ : string }.
End VersionedResourceType.

(** [WorkerSpec] *)
Module WorkerSpec.
Record t : Type := mk {
    Platform : string;
    ResourceType : string;
    Tags : list string;
    TeamID : Z;
    ResourceTypes : list VersionedResourceType.t
  }.
End WorkerSpec.

(** The part of [db.Worker] that the matcher reads. *)
Module dbWorker.
Record t : Type := mk {
    Name : string;
    TeamID : Z;
    ResourceTypes : list WorkerResourceType.t;
    Platform : string;
    Tags : list string;
    Version : option string
  }.
End dbWorker.

(** [gardenWorker]: the clients it holds play no part in matching. *)
Record gardenWorker : Type := mkGardenWorker {
  dbWorker_ : dbWorker.t;
  buildContainers : Z
}.

(** ** The compatibility matcher *)

(** [gardenWorker.tagsMatch] *)
Definition tagsMatch (worker : gardenWorker) (tags : list string) : bool :=
  let workerTags := dbWorker.Tags (dbWorker_ worker) in
  if bool_decide (0 < length workerTags)%nat && bool_decide (length tags = 0%nat)
  then false
  else
    forallb (fun stag => existsb (fun wtag => bool_decide (stag = wtag)) workerTags)
            tags.

(** The map built by the first loop of [determineUnderlyingTypeName]:
    a later entry of the slice overwrites an earlier one of the same name. *)
Definition buildResourceTypesMap (resourceTypes : list VersionedResourceType.t)
  : gmap string VersionedResourceType.t :=
  foldl (fun m resourceType => <[VersionedResourceType.Name resourceType := resourceType]> m)
        ∅ resourceTypes.

(** The [for ok { ... }] loop of [determineUnderlyingTypeName].  The loop
    state is the current name, the entry found for it ([None] when [ok]
    is false) and the map.  [None] is returned when [fuel] runs out. *)
Fixpoint resolveLoop (fuel : nat) (underlyingTypeName : string)
    (underlyingType : option VersionedResourceType.t)
    (resourceTypesMap : gmap string VersionedResourceType.t) : option string :=
  match underlyingType with
  | None => Some underlyingTypeName
  | Some ut =>
      match fuel with
      | O => None
      | S fuel' =>
          let underlyingTypeName' := VersionedResourceType.Type_ ut in
          resolveLoop fuel' underlyingTypeName'
                      (resourceTypesMap !! underlyingTypeName')
                      (delete underlyingTypeName' resourceTypesMap)
      end
  end.

(** The names of the catalog entries whose [Type] was substituted, in
    order: the same loop as [resolveLoop], recording instead of returning. *)
Fixpoint substitutions (fuel : nat)
    (underlyingType : option VersionedResourceType.t)
    (resourceTypesMap : gmap string VersionedResourceType.t) : list string :=
  match underlyingType, fuel with
  | Some ut, S fuel' =>
      let underlyingTypeName' := VersionedResourceType.Type_ ut in
      VersionedResourceType.Name ut ::
        substitutions fuel' (resourceTypesMap !! underlyingTypeName')
                      (delete underlyingTypeName' resourceTypesMap)
  | _, _ => []
  end.

(** Fuel that is enough for every catalog (see [resolveLoop_fuel]). *)
Definition resolveFuel (resourceTypesMap : gmap string VersionedResourceType.t) : nat :=
  S (size resourceTypesMap).

(** [determineUnderlyingTypeName] *)
Definition determineUnderlyingTypeName (typeName : string)
    (resourceTypes : list VersionedResourceType.t) : option string :=
  let resourceTypesMap := buildResourceTypesMap resourceTypes in
  resolveLoop (resolveFuel resourceTypesMap) typeName
              (resourceTypesMap !! typeName) resourceTypesMap.

(** The entries substituted by [determineUnderlyingTypeName]. *)
Definition consumedEntries (typeName : string)
    (resourceTypes : list VersionedResourceType.t) : list string :=
  let resourceTypesMap := buildResourceTypesMap resourceTypes in
  substitutions (resolveFuel resourceTypesMap)
                (resourceTypesMap !! typeName) resourceTypesMap.

(** The [for _, t := range workerResourceTypes] search of [Satisfying]. *)
Definition matchedType (workerResourceTypes : list WorkerResourceType.t)
    (underlyingType : string) : bool :=
  existsb (fun t => bool_decide (WorkerResourceType.Type_ t = underlyingType))
          workerResourceTypes.

(** [gardenWorker.Satisfying].  The outer [option] is [None] only if the
    type resolution does not return. *)
Definition Satisfying (worker : gardenWorker) (spec : WorkerSpec.t)
  : option (option gardenWorker * option error) :=
  let workerTeamID := dbWorker.TeamID (dbWorker_ worker) in
  let workerResourceTypes := dbWorker.ResourceTypes (dbWorker_ worker) in
  if bool_decide (WorkerSpec.TeamID spec ≠ workerTeamID) && bool_decide (workerTeamID ≠ 0)
  then Some (None, Some ErrTeamMismatch)
  else
    let rest :=
      if bool_decide (WorkerSpec.Platform spec ≠ "")
         && bool_decide (WorkerSpec.Platform spec ≠ dbWorker.Platform (dbWorker_ worker))
      then (None, Some ErrIncompatiblePlatform)
      else if negb (tagsMatch worker (WorkerSpec.Tags spec))
      then (None, Some ErrMismatchedTags)
      else (Some worker, None) in
    if bool_decide (WorkerSpec.ResourceType spec ≠ "")
    then
      match determineUnderlyingTypeName (WorkerSpec.ResourceType spec)
                                        (WorkerSpec.ResourceTypes spec) with
      | None => None
      | Some underlyingType =>
          if negb (matchedType workerResourceTypes underlyingType)
          then Some (None, Some ErrUnsupportedResourceType)
          else Some rest
      end
    else Some rest.

(** ** Version compatibility *)

(** The semi-semantic version library ([go-semi-semantic/version]) is an
    external dependency.  Its data is modelled here; its operations are
    the fields of [VersionLib], over which [IsVersionCompatible] is
    parametric. *)
Module version.
Inductive VerSegComp : Type :=
  | VerSegCompInt (i : Z)
  | VerSegCompStr (str : string).

Record VersionSegment : Type := mkVersionSegment {
  Components : list VerSegComp
}.

Record Version : Type := mkVersion {
  Release : VersionSegment;
  PreRelease : VersionSegment;
  PostRelease : VersionSegment
}.

End version.


(** *** A model of the library, for concrete versions

    Modelled on the documented behaviour of the library: a release is a
    dot-separated list of components, a component made of digits is
    numeric, numeric components compare as numbers and are smaller than
    alphanumeric ones, and a shorter segment is padded with zeros. *)



(** [strings.Split(s, sep)] for a one-byte separator, on the list of
    bytes of [s]: [cur] holds the piece being read, reversed. *)
Fixpoint splitOn (sep : ascii) (cur : list ascii) (s : list ascii) : list (list ascii) :=
  match s with
  | [] => [rev cur]
  | c :: s' =>
      if bool_decide (c = sep) then rev cur :: splitOn sep [] s'
      else splitOn sep (c :: cur) s'
  end.










(** ** Data of the provisioner *)

(** [db.ContainerOwner] and [db.ContainerMetadata] are opaque keys and
    descriptions for this package. *)
Inductive ContainerOwner : Type := Owner (key : string).

Record ContainerMetadata : Type := mkContainerMetadata {
  StepName : string;
  Attempt : string
}.

(** [db.CreatingContainer]: [ID()] and [Handle()]. *)
Module CreatingContainer.
Record t : Type := mk { ID : Z; Handle : string }.
End CreatingContainer.

(** [db.CreatedContainer]: [Handle()]. *)
Module CreatedContainer.
Record t : Type := mk { ID : Z; Handle : string }.
End CreatedContainer.

(** [garden.Container] *)
Record GardenContainer : Type := mkGardenContainer { gardenHandle : string }.

(** [lock.LockID] and [lock.Lock] *)
Inductive LockID : Type := NewContainerCreatingLockID (containerID : Z).
Inductive Lock : Type := mkLock (id : LockID).

(** [worker.Volume]: [Handle()], [Path()], [WorkerName()]. *)
Module Volume.
Record t : Type := mk { Handle : string; Path : string; WorkerName : string }.
End Volume.

(** [baggageclaim.Strategy]: [EmptyStrategy{}] and the strategy returned
    by [Volume.COWStrategy()]. *)
Inductive Strategy : Type :=
  | EmptyStrategy
  | COWStrategy (parent : Volume.t).

Record VolumeSpec : Type := mkVolumeSpec {
  Strategy_ : Strategy;
  Privileged : bool
}.

Record VolumeMount : Type := mkVolumeMount {
  Volume_ : Volume.t;
  MountPath : string
}.

(** [garden.BindMount] *)
Inductive BindMountMode : Type := BindMountModeRO | BindMountModeRW.

Module BindMount.
Record t : Type := mk { SrcPath : string; DstPath : string; Mode : BindMountMode }.
End BindMount.

(** [ImageMetadata] and [FetchedImage] *)
Record ImageMetadata : Type := mkImageMetadata {
  imageEnv : list string;
  imageUser : string
}.

Module FetchedImage.
Record t : Type := mk { Metadata : ImageMetadata; URL : string; Privileged : bool }.
End FetchedImage.

(** [ArtifactSource], [BindMountSource] and [Image] are interfaces whose
    methods are calls to the outside: they are named here and their
    methods are fields of [containerProvider] below. *)
Inductive ArtifactSource : Type := mkArtifactSource (name : string).
Inductive BindMountSource : Type := mkBindMountSource (name : string).
Inductive Image : Type := mkImage (name : string).

(** [InputSource]: [Source()] and [DestinationPath()]. *)
Module InputSource.
Record t : Type := mk { Source : ArtifactSource; DestinationPath : string }.
End InputSource.

(** [ContainerLimits] and the [garden.Limits] made from it. *)
Record ContainerLimits : Type := mkContainerLimits {
  CPU : option Z;
  Memory : option Z
}.

(** [ContainerSpec]: [Outputs] is an [OutputPaths], a map from output
    name to destination path. *)
Module ContainerSpec.
Record t : Type := mk {
    TeamID : Z;
    Env : list string;
    Dir : string;
    Inputs : list InputSource.t;
    Outputs : gmap string string;
    BindMounts : list BindMountSource;
    Limits : ContainerLimits;
    User : string
  }.
End ContainerSpec.

(** [garden.ContainerSpec]; [Properties] is a map with the single key
    [userPropertyName]; [Limits] holds the limits of the spec, whose
    conversion [ToGardenLimits] is not among the sources. *)
Module GardenSpec.
Record t : Type := mk {
    Handle : string;
    RootFSPath : string;
    Privileged : bool;
    BindMounts : list BindMount.t;
    Limits : ContainerLimits;
    Env : list string;
    Properties : gmap string string
  }.
End GardenSpec.

(** [worker.Container], as built by [newGardenWorkerContainer]. *)
Module Container.
Record t : Type := mk {
    garden : option GardenContainer;
    db : CreatedContainer.t;
    volumes : list Volume.t;
    workerName : string
  }.
End Container.

Definition userPropertyName : string := "user".

(** [time.Duration] counts nanoseconds; [time.Second] is 1e9 of them. *)
Definition Duration : Type := Z.
Definition time_Second : Duration := 1000000000.

Definition creatingContainerRetryDelay : Duration := 1 * time_Second.

(** ** Calls to the outside and their transcript *)

(** A call to a collaborator returning [(x, err)] is typed [X + error];
    [(x, found, err)] is typed [option X + error].  [garden.Client.Lookup]
    keeps both components, since the code tests them separately. *)
Inductive Event : Type :=
  | EvFindContainerOnWorker (owner : ContainerOwner)
      (r : (option CreatingContainer.t * option CreatedContainer.t) + error)
  | EvCreateContainer (owner : ContainerOwner) (metadata : ContainerMetadata)
      (r : CreatingContainer.t + error)
  | EvGardenLookup (handle : string) (r : option GardenContainer * option error)
  | EvGardenCreate (spec : GardenSpec.t) (r : GardenContainer + error)
  | EvGardenDestroy (handle : string) (r : option error)
  | EvLockAcquire (id : LockID) (r : option Lock + error)
  | EvLockRelease (l : Lock)
  | EvSleep (d : Duration)
  | EvFetchForContainer (image : Image) (c : CreatingContainer.t)
      (r : FetchedImage.t + error)
  | EvFailed (c : CreatingContainer.t) (r : option error)
  | EvCreated (c : CreatingContainer.t) (r : CreatedContainer.t + error)
  | EvFailedContainersInc
  | EvContainersCreatedInc
  | EvFindVolumesForContainer (c : CreatedContainer.t) (r : list Volume.t + error)
  | EvNewGardenWorkerContainer (g : option GardenContainer) (c : CreatedContainer.t)
      (vs : list Volume.t) (r : Container.t + error)
  | EvFindOrCreateVolumeForContainer (vs : VolumeSpec) (c : CreatingContainer.t)
      (teamID : Z) (mountPath : string) (r : Volume.t + error)
  | EvFindOrCreateCOWVolumeForContainer (vs : VolumeSpec) (c : CreatingContainer.t)
      (parent : Volume.t) (teamID : Z) (mountPath : string) (r : Volume.t + error)
  | EvVolumeOn (src : ArtifactSource) (r : option Volume.t + error)
  | EvStreamTo (src : ArtifactSource) (dest : Volume.t) (r : option error)
  | EvBindMountVolumeOn (src : BindMountSource) (r : option BindMount.t + error).

(** The collaborators held by (or reached from) [containerProvider], as
    functions of the state [World] of the outside. *)
Record containerProvider (World : Type) : Type := mkContainerProvider {
  (** [p.worker] *)
  FindContainerOnWorker : ContainerOwner -> World ->
    ((option CreatingContainer.t * option CreatedContainer.t) + error) * World;
  CreateContainer : ContainerOwner -> ContainerMetadata -> World ->
    (CreatingContainer.t + error) * World;
  workerName : string;
  (** [db.CreatingContainer] *)
  Failed : CreatingContainer.t -> World -> option error * World;
  Created : CreatingContainer.t -> World -> (CreatedContainer.t + error) * World;
  (** [p.gardenClient] *)
  Lookup : string -> World -> (option GardenContainer * option error) * World;
  Create : GardenSpec.t -> World -> (GardenContainer + error) * World;
  Destroy : string -> World -> option error * World;
  (** [p.lockFactory] and the lock *)
  Acquire : LockID -> World -> (option Lock + error) * World;
  Release : Lock -> World -> unit * World;
  (** [Image] *)
  FetchForContainer : Image -> CreatingContainer.t -> World ->
    (FetchedImage.t + error) * World;
  (** [p.dbVolumeRepository] *)
  FindVolumesForContainer : CreatedContainer.t -> World ->
    (list Volume.t + error) * World;
  newGardenWorkerContainer : option GardenContainer -> CreatedContainer.t ->
    list Volume.t -> string -> World -> (Container.t + error) * World;
  (** [p.volumeClient] *)
  FindOrCreateVolumeForContainer : VolumeSpec -> CreatingContainer.t -> Z ->
    string -> World -> (Volume.t + error) * World;
  FindOrCreateCOWVolumeForContainer : VolumeSpec -> CreatingContainer.t ->
    Volume.t -> Z -> string -> World -> (Volume.t + error) * World;
  (** [ArtifactSource] and [BindMountSource] *)
  VolumeOn : ArtifactSource -> World -> (option Volume.t + error) * World;
  StreamTo : ArtifactSource -> Volume.t -> World -> option error * World;
  BindMountVolumeOn : BindMountSource -> World -> (option BindMount.t + error) * World;
  (** proxy settings copied from [db.Worker] *)
  httpProxyURL : string;
  httpsProxyURL : string;
  noProxy : string
}.

Arguments FindContainerOnWorker {World}.
Arguments CreateContainer {World}.
Arguments workerName {World}.
Arguments Failed {World}.
Arguments Created {World}.
Arguments Lookup {World}.
Arguments Create {World}.
Arguments Destroy {World}.
Arguments Acquire {World}.
Arguments Release {World}.
Arguments FetchForContainer {World}.
Arguments FindVolumesForContainer {World}.
Arguments newGardenWorkerContainer {World}.
Arguments FindOrCreateVolumeForContainer {World}.
Arguments FindOrCreateCOWVolumeForContainer {World}.
Arguments VolumeOn {World}.
Arguments StreamTo {World}.
Arguments BindMountVolumeOn {World}.
Arguments httpProxyURL {World}.
Arguments httpsProxyURL {World}.
Arguments noProxy {World}.

(** The library functions used by [createGardenContainer]:
    [filepath.Clean], [sort.Sort] on [byMountPath], and the order in
    which [range] visits a map. *)
Record GoLib : Type := mkGoLib {
  Clean : string -> string;
  sortByMountPath : list VolumeMount -> list VolumeMount;
  mapRange : gmap string string -> list (string * string)
}.

(** A computation reads and changes the outside world and emits the
    transcript of its calls. *)
Definition M (World A : Type) : Type := World -> A * World * list Event.

#[global] Instance M_ret {World} : MRet (M World) :=
  fun A (x : A) w => (x, w, []).

#[global] Instance M_bind {World} : MBind (M World) :=
  fun A B (f : A -> M World B) (m : M World A) w =>
    let '(a, w1, l1) := m w in
    let '(b, w2, l2) := f a w1 in
    (b, w2, l1 ++ l2).

(** A call to the outside, recorded with its answer. *)
Definition call {World A} (op : World -> A * World) (ev : A -> Event) : M World A :=
  fun w => let '(a, w') := op w in (a, w', [ev a]).

(** An effect with no answer ([time.Sleep], a metrics counter). *)
Definition emit {World} (ev : Event) : M World unit :=
  fun w => (tt, w, [ev]).

(** [(x, err)] of Go from a sum. *)
Definition goPair {A} (r : A + error) : option A * option error :=
  match r with
  | inl a => (Some a, None)
  | inr e => (None, Some e)
  end.

(** ** The mount planner and the provisioner *)

(** [getDestinationPathsFromInputs] *)
Definition getDestinationPathsFromInputs (inputs : list InputSource.t) : list string :=
  map InputSource.DestinationPath inputs.

(** [anyMountTo] *)
Definition anyMountTo (lib : GoLib) (path : string) (destinationPaths : list string) : bool :=
  existsb (fun destinationPath =>
             bool_decide (Clean lib destinationPath = Clean lib path))
          destinationPaths.

(** [getDestinationPathsFromOutputs] *)
Definition getDestinationPathsFromOutputs (lib : GoLib) (outputs : gmap string string)
  : list string :=
  map snd (mapRange lib outputs).

Section Provider.
Context {World : Type} (lib : GoLib) (p : containerProvider World).

#[local] Abbreviation M := (M World).

(** [containerProvider.constructGardenWorkerContainer] *)
Definition constructGardenWorkerContainer (createdContainer : CreatedContainer.t)
    (gardenContainer : option GardenContainer) : M (option Container.t * option error) :=
  r ← call (FindVolumesForContainer p createdContainer)
           (EvFindVolumesForContainer createdContainer);
  match r with
  | inr err => mret (None, Some err)
  | inl createdVolumes =>
      c ← call (newGardenWorkerContainer p gardenContainer createdContainer
                  createdVolumes (workerName p))
               (EvNewGardenWorkerContainer gardenContainer createdContainer createdVolumes);
      mret (goPair c)
  end.

(** The scratch volume of [createGardenContainer]. *)
Definition scratchMount (creatingContainer : CreatingContainer.t)
    (spec : ContainerSpec.t) (fetchedImage : FetchedImage.t)
  : M (list VolumeMount + error) :=
  let vs := mkVolumeSpec EmptyStrategy (FetchedImage.Privileged fetchedImage) in
  r ← call (FindOrCreateVolumeForContainer p vs creatingContainer
              (ContainerSpec.TeamID spec) "/scratch")
           (EvFindOrCreateVolumeForContainer vs creatingContainer
              (ContainerSpec.TeamID spec) "/scratch");
  match r with
  | inr err => mret (inr err)
  | inl scratchVolume => mret (inl [mkVolumeMount scratchVolume "/scratch"])
  end.

(** The working-directory volume of [createGardenContainer]: the mounts
    to append to [volumeMounts]. *)
Definition workdirMount (creatingContainer : CreatingContainer.t)
    (spec : ContainerSpec.t) (fetchedImage : FetchedImage.t)
  : M (list VolumeMount + error) :=
  let hasSpecDirInInputs :=
    anyMountTo lib (ContainerSpec.Dir spec)
               (getDestinationPathsFromInputs (ContainerSpec.Inputs spec)) in
  let hasSpecDirInOutputs :=
    anyMountTo lib (ContainerSpec.Dir spec)
               (getDestinationPathsFromOutputs lib (ContainerSpec.Outputs spec)) in
  if bool_decide (ContainerSpec.Dir spec ≠ "") && negb hasSpecDirInOutputs
     && negb hasSpecDirInInputs
  then
    let vs := mkVolumeSpec EmptyStrategy (FetchedImage.Privileged fetchedImage) in
    r ← call (FindOrCreateVolumeForContainer p vs creatingContainer
                (ContainerSpec.TeamID spec) (ContainerSpec.Dir spec))
             (EvFindOrCreateVolumeForContainer vs creatingContainer
                (ContainerSpec.TeamID spec) (ContainerSpec.Dir spec));
    match r with
    | inr volumeErr => mret (inr volumeErr)
    | inl workdirVolume =>
        mret (inl [mkVolumeMount workdirVolume (ContainerSpec.Dir spec)])
    end
  else mret (inl []).

(** The body of [for _, inputSource := range spec.Inputs]: the volume
    for one input. *)
Definition inputVolume (creatingContainer : CreatingContainer.t)
    (spec : ContainerSpec.t) (fetchedImage : FetchedImage.t)
    (inputSource : InputSource.t) (cleanedInputPath : string)
  : M (Volume.t + error) :=
  let src := InputSource.Source inputSource in
  r ← call (VolumeOn p src) (EvVolumeOn src);
  match r with
  | inr err => mret (inr err)
  | inl (Some localVolume) =>
      let vs := mkVolumeSpec (COWStrategy localVolume)
                             (FetchedImage.Privileged fetchedImage) in
      call (FindOrCreateCOWVolumeForContainer p vs creatingContainer localVolume
              (ContainerSpec.TeamID spec) cleanedInputPath)
           (EvFindOrCreateCOWVolumeForContainer vs creatingContainer localVolume
              (ContainerSpec.TeamID spec) cleanedInputPath)
  | inl None =>
      let vs := mkVolumeSpec EmptyStrategy (FetchedImage.Privileged fetchedImage) in
      r ← call (FindOrCreateVolumeForContainer p vs creatingContainer
                  (ContainerSpec.TeamID spec) cleanedInputPath)
               (EvFindOrCreateVolumeForContainer vs creatingContainer
                  (ContainerSpec.TeamID spec) cleanedInputPath);
      match r with
      | inr err => mret (inr err)
      | inl inputVolume =>
          e ← call (StreamTo p src inputVolume) (EvStreamTo src inputVolume);
          match e with
          | Some err => mret (inr err)
          | None => mret (inl inputVolume)
          end
      end
  end.

(** [for _, inputSource := range spec.Inputs]: the loop state is
    [ioVolumeMounts] and the set of keys of [inputDestinationPaths]. *)
Fixpoint inputsLoop (creatingContainer : CreatingContainer.t)
    (spec : ContainerSpec.t) (fetchedImage : FetchedImage.t)
    (inputs : list InputSource.t)
    (ioVolumeMounts : list VolumeMount) (inputDestinationPaths : gset string)
  : M ((list VolumeMount * gset string) + error) :=
  match inputs with
  | [] => mret (inl (ioVolumeMounts, inputDestinationPaths))
  | inputSource :: inputs' =>
      let cleanedInputPath := Clean lib (InputSource.DestinationPath inputSource) in
      r ← inputVolume creatingContainer spec fetchedImage inputSource cleanedInputPath;
      match r with
      | inr err => mret (inr err)
      | inl v =>
          inputsLoop creatingContainer spec fetchedImage inputs'
                     (ioVolumeMounts ++ [mkVolumeMount v cleanedInputPath])
                     ({[cleanedInputPath]} ∪ inputDestinationPaths)
      end
  end.

(** [for _, outputPath := range spec.Outputs], over the paths in the
    order of the iteration. *)
Fixpoint outputsLoop (creatingContainer : CreatingContainer.t)
    (spec : ContainerSpec.t) (fetchedImage : FetchedImage.t)
    (outputs : list string)
    (ioVolumeMounts : list VolumeMount) (inputDestinationPaths : gset string)
  : M (list VolumeMount + error) :=
  match outputs with
  | [] => mret (inl ioVolumeMounts)
  | outputPath :: outputs' =>
      let cleanedOutputPath := Clean lib outputPath in
      if bool_decide (cleanedOutputPath ∈ inputDestinationPaths)
      then outputsLoop creatingContainer spec fetchedImage outputs'
                       ioVolumeMounts inputDestinationPaths
      else
        let vs := mkVolumeSpec EmptyStrategy (FetchedImage.Privileged fetchedImage) in
        r ← call (FindOrCreateVolumeForContainer p vs creatingContainer
                    (ContainerSpec.TeamID spec) cleanedOutputPath)
                 (EvFindOrCreateVolumeForContainer vs creatingContainer
                    (ContainerSpec.TeamID spec) cleanedOutputPath);
        match r with
        | inr volumeErr => mret (inr volumeErr)
        | inl outVolume =>
            outputsLoop creatingContainer spec fetchedImage outputs'
                        (ioVolumeMounts ++ [mkVolumeMount outVolume cleanedOutputPath])
                        inputDestinationPaths
        end
  end.

(** [for _, mount := range spec.BindMounts] *)
Fixpoint bindMountsLoop (mounts : list BindMountSource) (bindMounts : list BindMount.t)
  : M (list BindMount.t + error) :=
  match mounts with
  | [] => mret (inl bindMounts)
  | mount :: mounts' =>
      r ← call (BindMountVolumeOn p mount) (EvBindMountVolumeOn mount);
      match r with
      | inr mountErr => mret (inr mountErr)
      | inl (Some bindMount) => bindMountsLoop mounts' (bindMounts ++ [bindMount])
      | inl None => bindMountsLoop mounts' bindMounts
      end
  end.

(** [for _, mount := range volumeMounts]: the bind entry of a mount. *)
Definition toBindMount (mount : VolumeMount) : BindMount.t :=
  BindMount.mk (Volume.Path (Volume_ mount)) (MountPath mount) BindMountModeRW.

(** The environment handed to garden. *)
Definition gardenEnv (spec : ContainerSpec.t) (fetchedImage : FetchedImage.t)
  : list string :=
  let env := imageEnv (FetchedImage.Metadata fetchedImage) ++ ContainerSpec.Env spec in
  let env := if bool_decide (httpProxyURL p ≠ "")
             then env ++ ["http_proxy=" +:+ httpProxyURL p] else env in
  let env := if bool_decide (httpsProxyURL p ≠ "")
             then env ++ ["https_proxy=" +:+ httpsProxyURL p] else env in
  let env := if bool_decide (noProxy p ≠ "")
             then env ++ ["no_proxy=" +:+ noProxy p] else env in
  env.

(** The properties handed to garden. *)
Definition gardenProperties (spec : ContainerSpec.t) (fetchedImage : FetchedImage.t)
  : gmap string string :=
  if bool_decide (ContainerSpec.User spec ≠ "")
  then {[ userPropertyName := ContainerSpec.User spec ]}
  else {[ userPropertyName := imageUser (FetchedImage.Metadata fetchedImage) ]}.

(** [createGardenContainer] up to the call of [gardenClient.Create]:
    the [garden.ContainerSpec] it builds, together with the two lists
    [volumeMounts] (scratch and working directory) and [ioVolumeMounts]
    (before sorting) it was assembled from. *)
Definition assembleGardenSpec (creatingContainer : CreatingContainer.t)
    (spec : ContainerSpec.t) (fetchedImage : FetchedImage.t)
  : M ((GardenSpec.t * list VolumeMount * list VolumeMount) + error) :=
  r ← scratchMount creatingContainer spec fetchedImage;
  match r with
  | inr err => mret (inr err)
  | inl scratch =>
  r ← workdirMount creatingContainer spec fetchedImage;
  match r with
  | inr err => mret (inr err)
  | inl workdir =>
  let volumeMounts := scratch ++ workdir in
  r ← inputsLoop creatingContainer spec fetchedImage (ContainerSpec.Inputs spec) [] ∅;
  match r with
  | inr err => mret (inr err)
  | inl (ioVolumeMounts, inputDestinationPaths) =>
  r ← outputsLoop creatingContainer spec fetchedImage
        (map snd (mapRange lib (ContainerSpec.Outputs spec)))
        ioVolumeMounts inputDestinationPaths;
  match r with
  | inr err => mret (inr err)
  | inl ioVolumeMounts =>
  r ← bindMountsLoop (ContainerSpec.BindMounts spec) [];
  match r with
  | inr err => mret (inr err)
  | inl bindMounts =>
  let allMounts := volumeMounts ++ sortByMountPath lib ioVolumeMounts in
  let bindMounts := bindMounts ++ map toBindMount allMounts in
  mret (inl (GardenSpec.mk
               (CreatingContainer.Handle creatingContainer)
               (FetchedImage.URL fetchedImage)
               (FetchedImage.Privileged fetchedImage)
               bindMounts
               (ContainerSpec.Limits spec)
               (gardenEnv spec fetchedImage)
               (gardenProperties spec fetchedImage),
             volumeMounts, ioVolumeMounts))
  end end end end end.

(** [containerProvider.createGardenContainer] *)
Definition createGardenContainer (creatingContainer : CreatingContainer.t)
    (spec : ContainerSpec.t) (fetchedImage : FetchedImage.t)
  : M (GardenContainer + error) :=
  r ← assembleGardenSpec creatingContainer spec fetchedImage;
  match r with
  | inr err => mret (inr err)
  | inl (gardenSpec, _, _) => call (Create p gardenSpec) (EvGardenCreate gardenSpec)
  end.

(** The end of [FindOrCreateContainer], from [creatingContainer.Created()]. *)
Definition markCreated (creatingContainer : CreatingContainer.t)
    (gardenContainer : option GardenContainer)
  : M (option Container.t * option error) :=
  r ← call (Created p creatingContainer) (EvCreated creatingContainer);
  match r with
  | inr err =>
      _ ← call (Destroy p (CreatingContainer.Handle creatingContainer))
               (EvGardenDestroy (CreatingContainer.Handle creatingContainer));
      mret (None, Some err)
  | inl createdContainer =>
      constructGardenWorkerContainer createdContainer gardenContainer
  end.

(** The branch [if gardenContainer == nil] of [FindOrCreateContainer],
    once the lock is held, up to the function's return; the deferred
    [lock.Release()] is run by the caller [createUnderLock]. *)
Definition createHoldingLock (creatingContainer : CreatingContainer.t)
    (containerSpec : ContainerSpec.t) (image : Image)
  : M (option Container.t * option error) :=
  r ← call (FetchForContainer p image creatingContainer)
           (EvFetchForContainer image creatingContainer);
  match r with
  | inr err =>
      _ ← call (Failed p creatingContainer) (EvFailed creatingContainer);
      mret (None, Some err)
  | inl fetchedImage =>
      r ← createGardenContainer creatingContainer containerSpec fetchedImage;
      match r with
      | inr err =>
          _ ← call (Failed p creatingContainer) (EvFailed creatingContainer);
          _ ← emit EvFailedContainersInc;
          mret (None, Some err)
      | inl gardenContainer =>
          _ ← emit EvContainersCreatedInc;
          markCreated creatingContainer (Some gardenContainer)
      end
  end.

(** The branch [if gardenContainer == nil] of [FindOrCreateContainer]. *)
Definition createUnderLock (creatingContainer : CreatingContainer.t)
    (containerSpec : ContainerSpec.t) (image : Image)
  : M (option Container.t * option error) :=
  let id := NewContainerCreatingLockID (CreatingContainer.ID creatingContainer) in
  r ← call (Acquire p id) (EvLockAcquire id);
  match r with
  | inr err => mret (None, Some err)
  | inl None =>
      _ ← emit (EvSleep creatingContainerRetryDelay);
      mret (None, None)
  | inl (Some lock) =>
      res ← createHoldingLock creatingContainer containerSpec image;
      _ ← call (Release p lock) (fun _ => EvLockRelease lock);
      mret res
  end.

(** [FindOrCreateContainer] from the lookup of the creating container's
    handle in garden. *)
Definition findOrCreateFromCreating (creatingContainer : CreatingContainer.t)
    (containerSpec : ContainerSpec.t) (image : Image)
  : M (option Container.t * option error) :=
  '(gardenContainer, err) ←
      call (Lookup p (CreatingContainer.Handle creatingContainer))
           (EvGardenLookup (CreatingContainer.Handle creatingContainer));
  let fatal := match err with
               | Some e => negb (isContainerNotFoundError e)
               | None => false
               end in
  if fatal then mret (None, err)
  else
    match gardenContainer with
    | None => createUnderLock creatingContainer containerSpec image
    | Some _ => markCreated creatingContainer gardenContainer
    end.

(** [containerProvider.FindOrCreateContainer] *)
Definition FindOrCreateContainer (owner : ContainerOwner)
    (metadata : ContainerMetadata) (containerSpec : ContainerSpec.t)
    (image : Image) : M (option Container.t * option error) :=
  r ← call (FindContainerOnWorker p owner) (EvFindContainerOnWorker owner);
  match r with
  | inr err => mret (None, Some err)
  | inl (_, Some createdContainer) =>
      '(gardenContainer, err) ←
          call (Lookup p (CreatedContainer.Handle createdContainer))
               (EvGardenLookup (CreatedContainer.Handle createdContainer));
      match err with
      | Some e => mret (None, Some e)
      | None => constructGardenWorkerContainer createdContainer gardenContainer
      end
  | inl (None, None) =>
      r ← call (CreateContainer p owner metadata) (EvCreateContainer owner metadata);
      match r with
      | inr err => mret (None, Some err)
      | inl creatingContainer =>
          findOrCreateFromCreating creatingContainer containerSpec image
      end
  | inl (Some creatingContainer, None) =>
      findOrCreateFromCreating creatingContainer containerSpec image
  end.

End Provider.

(** ** Vocabulary of the statements *)

(** The tag rule in the words of the specification: a tagged worker
    needs every requested tag among its own, an untagged worker accepts
    any request. *)
Definition tagRuleAsSpecified (workerTags specTags : list string) : Prop :=
  workerTags <> [] -> forall stag, stag ∈ specTags -> stag ∈ workerTags.

(** Every entry of the map is stored under its own name. *)
Definition keyed (m : gmap string VersionedResourceType.t) : Prop :=
  forall k v, m !! k = Some v -> VersionedResourceType.Name v = k.

(** The first three rules of [Satisfying], as conditions on the input. *)
Definition teamRule (worker : gardenWorker) (spec : WorkerSpec.t) : Prop :=
  WorkerSpec.TeamID spec = dbWorker.TeamID (dbWorker_ worker)
  \/ dbWorker.TeamID (dbWorker_ worker) = 0.

Definition resourceTypeRule (worker : gardenWorker) (spec : WorkerSpec.t) : Prop :=
  WorkerSpec.ResourceType spec <> "" ->
  exists underlyingType t,
    determineUnderlyingTypeName (WorkerSpec.ResourceType spec)
                                (WorkerSpec.ResourceTypes spec) = Some underlyingType
    /\ t ∈ dbWorker.ResourceTypes (dbWorker_ worker)
    /\ WorkerResourceType.Type_ t = underlyingType.

Definition platformRule (worker : gardenWorker) (spec : WorkerSpec.t) : Prop :=
  WorkerSpec.Platform spec = ""
  \/ WorkerSpec.Platform spec = dbWorker.Platform (dbWorker_ worker).

(** ** Concrete workers and specs *)

(** The worker of the specification's scenarios:
    [{team: 5, tags: ["gpu"], resourceTypes: [{name:"git", type:"git"}]}]. *)
Definition gpuWorker : gardenWorker :=
  mkGardenWorker
    (dbWorker.mk "w1" 5 [WorkerResourceType.mk "git" "/images/git"] "linux"
                 ["gpu"] (Some "1.2"))
    0.

(** The same worker without tags. *)
Definition untaggedWorker : gardenWorker :=
  mkGardenWorker
    (dbWorker.mk "w0" 5 [WorkerResourceType.mk "git" "/images/git"] "linux"
                 [] (Some "1.2"))
    0.

Definition specWithTags (tags : list string) : WorkerSpec.t :=
  WorkerSpec.mk "" "" tags 5 [].

(** A spec asking for resource type ["a"] with the cyclic catalog
    [a] built from [b], [b] built from [a]. *)
Definition cyclicCatalog : list VersionedResourceType.t :=
  [VersionedResourceType.mk "a" "b"; VersionedResourceType.mk "b" "a"].

Definition cyclicSpec (platform : string) : WorkerSpec.t :=
  WorkerSpec.mk platform "a" ["gpu"] 5 cyclicCatalog.

Definition bWorker : gardenWorker :=
  mkGardenWorker
    (dbWorker.mk "w2" 5 [WorkerResourceType.mk "b" "/images/b"] "linux"
                 ["gpu"] (Some "1.2"))
    0.




(** The events of the mount planner and of garden's [Create]. *)
Definition isPlannerEvent (e : Event) : bool :=
  match e with
  | EvFindOrCreateVolumeForContainer _ _ _ _ _
  | EvFindOrCreateCOWVolumeForContainer _ _ _ _ _ _
  | EvVolumeOn _ _
  | EvStreamTo _ _ _
  | EvBindMountVolumeOn _ _
  | EvGardenCreate _ _ => true
  | _ => false
  end.

(** A transcript without lock acquisition. *)
Definition isLockAcquire (e : Event) : bool :=
  match e with
  | EvLockAcquire _ _ => true
  | _ => false
  end.

(** The volume a successful allocation call answered, with the path it
    was asked for. *)
Definition allocation (e : Event) : option VolumeMount :=
  match e with
  | EvFindOrCreateVolumeForContainer _ _ _ path (inl v) => Some (mkVolumeMount v path)
  | EvFindOrCreateCOWVolumeForContainer _ _ _ _ path (inl v) =>
      Some (mkVolumeMount v path)
  | _ => None
  end.

Definition allocations (l : list Event) : list VolumeMount := omap allocation l.

(** The cleaned destination paths of the inputs, in order. *)
Definition cleanedInputPaths (lib : GoLib) (spec : ContainerSpec.t) : list string :=
  map (fun i => Clean lib (InputSource.DestinationPath i)) (ContainerSpec.Inputs spec).

(** The cleaned output paths, in the order of the iteration. *)
Definition cleanedOutputPaths (lib : GoLib) (spec : ContainerSpec.t) : list string :=
  map (fun o => Clean lib o.2) (mapRange lib (ContainerSpec.Outputs spec)).

(** The condition under which [createGardenContainer] allocates a
    working-directory volume. *)
Definition needsWorkdirVolume (lib : GoLib) (spec : ContainerSpec.t) : bool :=
  bool_decide (ContainerSpec.Dir spec <> "")
  && negb (anyMountTo lib (ContainerSpec.Dir spec)
             (getDestinationPathsFromOutputs lib (ContainerSpec.Outputs spec)))
  && negb (anyMountTo lib (ContainerSpec.Dir spec)
             (getDestinationPathsFromInputs (ContainerSpec.Inputs spec))).

(** Modelled from the spec: the ordering of [byMountPath], whose
    declaration is not among the sources; the specification has the
    input/output mounts sorted by destination path. *)
Definition byMountPath (a b : VolumeMount) : Prop :=
  String.leb (MountPath a) (MountPath b) = true.

(** What [createGardenContainer] relies on from the Go library:
    [filepath.Clean] is idempotent, [sort.Sort] returns its argument
    rearranged in the order of [byMountPath], and [range] visits every
    entry of a map once. *)
Record GoLibOK (lib : GoLib) : Prop := mkGoLibOK {
  Clean_idempotent : forall path, Clean lib (Clean lib path) = Clean lib path;
  sort_permutation : forall l, sortByMountPath lib l ≡ₚ l;
  sort_sorted : forall l, Sorted byMountPath (sortByMountPath lib l);
  mapRange_permutation : forall m, mapRange lib m ≡ₚ map_to_list m
}.

(** ** A model of the Go library *)

(** [filepath.Clean] on Unix, after its documentation: empty and [.]
    components are dropped, [..] removes the component before it, a
    rooted path loses a leading [..], and the empty result is [.]. *)
Definition slash : ascii := "/"%char.
Definition dot : list ascii := ["."%char].
Definition dotdot : list ascii := ["."%char; "."%char].

Fixpoint cleanComponents (rooted : bool) (out : list (list ascii))
    (comps : list (list ascii)) : list (list ascii) :=
  match comps with
  | [] => rev out
  | comp :: comps' =>
      if bool_decide (comp = []) || bool_decide (comp = dot)
      then cleanComponents rooted out comps'
      else if bool_decide (comp = dotdot)
      then
        match out with
        | top :: out' =>
            if bool_decide (top = dotdot)
            then cleanComponents rooted (comp :: out) comps'
            else cleanComponents rooted out' comps'
        | [] =>
            if rooted then cleanComponents rooted out comps'
            else cleanComponents rooted [comp] comps'
        end
      else cleanComponents rooted (comp :: out) comps'
  end.

Fixpoint joinSlash (comps : list (list ascii)) : list ascii :=
  match comps with
  | [] => []
  | [comp] => comp
  | comp :: comps' => comp ++ (slash :: joinSlash comps')
  end.

Definition cleanBytes (path : list ascii) : list ascii :=
  match path with
  | [] => dot
  | c0 :: _ =>
      let rooted := bool_decide (c0 = slash) in
      let out := cleanComponents rooted [] (splitOn slash [] path) in
      if rooted then slash :: joinSlash out
      else match out with
           | [] => dot
           | _ => joinSlash out
           end
  end.

Definition filepath_Clean (path : string) : string :=
  string_of_list_ascii (cleanBytes (list_ascii_of_string path)).

(** A component that is kept as it is. *)
Definition isName (comp : list ascii) : Prop :=
  comp <> [] /\ (slash ∉ comp) /\ comp <> dot /\ comp <> dotdot.

(** The components of a cleaned path: names, after leading [..]
    components when the path is not rooted. *)
Fixpoint normalComps (rooted : bool) (comps : list (list ascii)) : Prop :=
  match comps with
  | [] => True
  | comp :: comps' =>
      (isName comp /\ Forall isName comps')
      \/ (comp = dotdot /\ rooted = false /\ normalComps rooted comps')
  end.

(** The stack of [cleanComponents] holds names above [..] components. *)
Definition normalStack (rooted : bool) (out : list (list ascii)) : Prop :=
  exists names k,
    out = names ++ replicate k dotdot
    /\ Forall isName names /\ (rooted = true -> k = 0%nat).

#[global] Instance byMountPath_dec : RelDecision byMountPath.
Proof. intros a b. unfold byMountPath. apply _. Defined.

(** The library used in the examples: the model of [filepath.Clean], a
    merge sort for [sort.Sort], and the order of [map_to_list] for
    [range]. *)
Definition goLib : GoLib :=
  mkGoLib filepath_Clean (merge_sort byMountPath) map_to_list.

(** Lexicographic order on paths, as [<=] on Go strings. *)
Definition pathLe (a b : string) : Prop := String.leb a b = true.

(** The mounts in the order in which they are handed to garden. *)
Definition mountPlan (lib : GoLib) (volumeMounts ioVolumeMounts : list VolumeMount)
  : list VolumeMount :=
  volumeMounts ++ sortByMountPath lib ioVolumeMounts.

(** ** A scripted outside world

    The state of the outside is the number of volumes allocated so far;
    the answers of the record store, of garden and of the lock service
    are fixed by a scenario. *)
Record Scenario : Type := mkScenario {
  scFind : (option CreatingContainer.t * option CreatedContainer.t) + error;
  scCreateContainer : CreatingContainer.t + error;
  scLookup : option GardenContainer * option error;
  scAcquire : option Lock + error;
  scCreated : CreatedContainer.t + error;
  scResident : ArtifactSource -> option Volume.t;
  scExtra : BindMountSource -> option BindMount.t
}.

(** The [n]-th volume, made for [path]. *)
Definition nthVolume (n : nat) (path : string) : Volume.t :=
  Volume.mk (String (ascii_of_nat (48 + n)) "") ("/volumes/live" +:+ path) "w1".

Definition scripted (sc : Scenario) : containerProvider nat :=
  {| FindContainerOnWorker := fun _ w => (scFind sc, w);
     CreateContainer := fun _ _ w => (scCreateContainer sc, w);
     workerName := "w1";
     Failed := fun _ w => (None, w);
     Created := fun _ w => (scCreated sc, w);
     Lookup := fun _ w => (scLookup sc, w);
     Create := fun gs w => (inl (mkGardenContainer (GardenSpec.Handle gs)), w);
     Destroy := fun _ w => (Some (ErrOther "destroy failed"), w);
     Acquire := fun _ w => (scAcquire sc, w);
     Release := fun _ w => (tt, w);
     FetchForContainer := fun _ _ w =>
       (inl (FetchedImage.mk (mkImageMetadata [] "root") "/images/rootfs" false), w);
     FindVolumesForContainer := fun _ w => (inl [], w);
     newGardenWorkerContainer := fun g c vs name w =>
       (inl (Container.mk g c vs name), w);
     FindOrCreateVolumeForContainer := fun _ _ _ path w =>
       (inl (nthVolume w path), S w);
     FindOrCreateCOWVolumeForContainer := fun _ _ _ _ path w =>
       (inl (nthVolume w path), S w);
     VolumeOn := fun src w => (inl (scResident sc src), w);
     StreamTo := fun _ _ w => (None, w);
     BindMountVolumeOn := fun src w => (inl (scExtra sc src), w);
     httpProxyURL := "";
     httpsProxyURL := "";
     noProxy := "" |}.

Definition creating1 : CreatingContainer.t := CreatingContainer.mk 1 "handle-1".
Definition created1 : CreatedContainer.t := CreatedContainer.mk 1 "handle-1".
Definition garden1 : GardenContainer := mkGardenContainer "handle-1".
Definition owner1 : ContainerOwner := Owner "build-step".
Definition metadata1 : ContainerMetadata := mkContainerMetadata "task" "1".
Definition image1 : Image := mkImage "busybox".
Definition fetched1 : FetchedImage.t :=
  FetchedImage.mk (mkImageMetadata [] "root") "/images/rootfs" false.

(** No record in the store, nothing in garden, the lock is granted,
    nothing is resident on the worker and no extra mount is found. *)
Definition freshScenario : Scenario :=
  mkScenario (inl (None, None)) (inl creating1)
             (None, Some (ContainerNotFoundError "handle-1"))
             (inl (Some (mkLock (NewContainerCreatingLockID 1))))
             (inl created1) (fun _ => None) (fun _ => None).

(** The store already has the created container, garden has it too. *)
Definition createdScenario : Scenario :=
  mkScenario (inl (None, Some created1)) (inl creating1)
             (Some garden1, None)
             (inl None) (inl created1) (fun _ => None) (fun _ => None).

(** The store has the created container, garden has lost it. *)
Definition lostScenario : Scenario :=
  mkScenario (inl (None, Some created1)) (inl creating1)
             (None, Some (ContainerNotFoundError "handle-1"))
             (inl None) (inl created1) (fun _ => None) (fun _ => None).

(** Another caller holds the lock. *)
Definition lockedScenario : Scenario :=
  mkScenario (inl (Some creating1, None)) (inl creating1)
             (None, Some (ContainerNotFoundError "handle-1"))
             (inl None) (inl created1) (fun _ => None) (fun _ => None).

(** Garden answers the lookup with an error of its own. *)
Definition gardenDownScenario : Scenario :=
  mkScenario (inl (Some creating1, None)) (inl creating1)
             (None, Some (ErrOther "connection refused"))
             (inl None) (inl created1) (fun _ => None) (fun _ => None).

(** The transition to [CreatedContainer] fails. *)
Definition commitFailsScenario : Scenario :=
  mkScenario (inl (None, None)) (inl creating1)
             (None, Some (ContainerNotFoundError "handle-1"))
             (inl (Some (mkLock (NewContainerCreatingLockID 1))))
             (inr (ErrOther "commit failed")) (fun _ => None) (fun _ => None).


Definition noLimits : ContainerLimits := mkContainerLimits None None.

(** The scenario of the specification: an input at [/data] and an
    output at [/data]. *)
Definition dataSpec : ContainerSpec.t :=
  ContainerSpec.mk 5 [] "/tmp/build"
    [InputSource.mk (mkArtifactSource "repo") "/data"]
    {[ "out" := "/data" ]} [] noLimits "".

(** Two inputs with the same destination, which is also an output. *)
Definition twoInputsSpec : ContainerSpec.t :=
  ContainerSpec.mk 5 [] "/tmp/build"
    [InputSource.mk (mkArtifactSource "repo") "/data";
     InputSource.mk (mkArtifactSource "cache") "/data/"]
    {[ "out" := "/data" ]} [] noLimits "".


(** The events of [constructGardenWorkerContainer]. *)
Definition isWrapEvent (e : Event) : bool :=
  match e with
  | EvFindVolumesForContainer _ _
  | EvNewGardenWorkerContainer _ _ _ _ => true
  | _ => false
  end.

(** The events between the acquisition of the lock and the transition
    to [CreatedContainer]: the image fetch, the planner and garden's
    [Create], the failure mark and the two counters. *)
Definition isCreateEvent (e : Event) : bool :=
  match e with
  | EvFetchForContainer _ _ _
  | EvFailed _ _
  | EvFailedContainersInc
  | EvContainersCreatedInc => true
  | _ => isPlannerEvent e
  end.

(** The events from the transition to [CreatedContainer] on. *)
Definition isCommitEvent (e : Event) : bool :=
  match e with
  | EvCreated _ _
  | EvGardenDestroy _ _ => true
  | _ => isWrapEvent e
  end.

(** The lookup error after which [FindOrCreateContainer] gives up. *)
Definition fatalLookupError (err : option error) : bool :=
  match err with
  | Some e => negb (isContainerNotFoundError e)
  | None => false
  end.

(** ** Vocabulary of the further statements *)

(** A chain of the catalog: from [n], each name has an entry whose type
    is the next name, up to a name [u] without entry; the list holds
    the names that have an entry, in order. *)
Inductive typeChain (m : gmap string VersionedResourceType.t)
  : string -> list string -> string -> Prop :=
  | typeChain_end n : m !! n = None -> typeChain m n [] n
  | typeChain_step n e ns u :
      m !! n = Some e ->
      typeChain m (VersionedResourceType.Type_ e) ns u ->
      typeChain m n (n :: ns) u.

(** A catalog with a chain of two custom types over a base type. *)
Definition chainCatalog : list VersionedResourceType.t :=
  [VersionedResourceType.mk "pr" "custom";
   VersionedResourceType.mk "custom" "docker"].

(** [gardenWorker.FindResourceTypeByPath]: the second component is the
    [bool] of the Go result, the first the zero value when it is false. *)
Fixpoint findResourceTypeByPath (resourceTypes : list WorkerResourceType.t)
    (path : string) : WorkerResourceType.t * bool :=
  match resourceTypes with
  | [] => (WorkerResourceType.mk "" "", false)
  | rt :: resourceTypes' =>
      if bool_decide (path = WorkerResourceType.Image rt) then (rt, true)
      else findResourceTypeByPath resourceTypes' path
  end.

Definition FindResourceTypeByPath (worker : gardenWorker) (path : string)
  : WorkerResourceType.t * bool :=
  findResourceTypeByPath (dbWorker.ResourceTypes (dbWorker_ worker)) path.

(** [gardenWorker.IsOwnedByTeam] *)
Definition IsOwnedByTeam (worker : gardenWorker) : bool :=
  bool_decide (dbWorker.TeamID (dbWorker_ worker) <> 0).

(** The error answered by a call of the mount planner or by garden's
    [Create]. *)
Definition plannerError (e : Event) : option error :=
  match e with
  | EvFindOrCreateVolumeForContainer _ _ _ _ (inr err)
  | EvFindOrCreateCOWVolumeForContainer _ _ _ _ _ (inr err)
  | EvVolumeOn _ (inr err)
  | EvStreamTo _ _ (Some err)
  | EvBindMountVolumeOn _ (inr err)
  | EvGardenCreate _ (inr err) => Some err
  | _ => None
  end.

(** A transcript of the planner whose answer is [r]: without error when
    [r] is a value, ending with the call that answered the error when
    [r] is an error. *)
Definition endsWithItsError {A} (r : A + error) (l : list Event) : Prop :=
  match r with
  | inl _ => Forall (fun e => plannerError e = None) l
  | inr err =>
      exists pre e,
        l = pre ++ [e] /\ plannerError e = Some err
        /\ Forall (fun e => plannerError e = None) pre
  end.

(** A call of the planner made for the creating container [c], with the
    team of the spec and the privilege of the image. *)
Definition plannerCallFor (c : CreatingContainer.t) (spec : ContainerSpec.t)
    (img : FetchedImage.t) (e : Event) : Prop :=
  match e with
  | EvFindOrCreateVolumeForContainer vs c' team _ _ =>
      vs = mkVolumeSpec EmptyStrategy (FetchedImage.Privileged img)
      /\ c' = c /\ team = ContainerSpec.TeamID spec
  | EvFindOrCreateCOWVolumeForContainer vs c' parent team _ _ =>
      vs = mkVolumeSpec (COWStrategy parent) (FetchedImage.Privileged img)
      /\ c' = c /\ team = ContainerSpec.TeamID spec
  | EvVolumeOn _ _ | EvStreamTo _ _ _ | EvBindMountVolumeOn _ _ => True
  | _ => False
  end.

(** The calls made for one input that gets the mount [m]: a
    copy-on-write volume of the volume resident on the worker, or an
    empty volume into which the source is streamed. *)
Definition inputBlock (lib : GoLib) (c : CreatingContainer.t)
    (spec : ContainerSpec.t) (img : FetchedImage.t)
    (input : InputSource.t) (m : VolumeMount) (block : list Event) : Prop :=
  let src := InputSource.Source input in
  let path := Clean lib (InputSource.DestinationPath input) in
  MountPath m = path
  /\ ((exists parent,
         block = [EvVolumeOn src (inl (Some parent));
                  EvFindOrCreateCOWVolumeForContainer
                    (mkVolumeSpec (COWStrategy parent)
                                  (FetchedImage.Privileged img))
                    c parent (ContainerSpec.TeamID spec) path (inl (Volume_ m))])
      \/ block = [EvVolumeOn src (inl None);
                  EvFindOrCreateVolumeForContainer
                    (mkVolumeSpec EmptyStrategy (FetchedImage.Privileged img))
                    c (ContainerSpec.TeamID spec) path (inl (Volume_ m));
                  EvStreamTo src (Volume_ m) None]).


(** The calls to the record store that open a run on the creating
    container [c]: the store has it, or makes it. *)
Definition opensOn (owner : ContainerOwner) (metadata : ContainerMetadata)
    (c : CreatingContainer.t) (pre : list Event) : Prop :=
  pre = [EvFindContainerOnWorker owner (inl (Some c, None))]
  \/ pre = [EvFindContainerOnWorker owner (inl (None, None));
            EvCreateContainer owner metadata (inl c)].

(** The successful allocation of an empty volume for the mount [m]. *)
Definition emptyAllocation (c : CreatingContainer.t) (spec : ContainerSpec.t)
    (img : FetchedImage.t) (m : VolumeMount) : Event :=
  EvFindOrCreateVolumeForContainer
    (mkVolumeSpec EmptyStrategy (FetchedImage.Privileged img))
    c (ContainerSpec.TeamID spec) (MountPath m) (inl (Volume_ m)).

(** The lookups of the extra bind mounts, with their answers. *)
Definition bindMountLookups (mounts : list BindMountSource)
    (answers : list (option BindMount.t)) : list Event :=
  zip_with (fun src a => EvBindMountVolumeOn src (inl a)) mounts answers.

(** The worker has a volume for the source [repo]. *)
Definition parentVolume : Volume.t := Volume.mk "parent" "/volumes/live/parent" "w1".

Definition residentScenario : Scenario :=
  mkScenario (inl (None, None)) (inl creating1)
             (None, Some (ContainerNotFoundError "handle-1"))
             (inl (Some (mkLock (NewContainerCreatingLockID 1))))
             (inl created1)
             (fun src => match src with
                         | mkArtifactSource name =>
                             if bool_decide (name = "repo") then Some parentVolume
                             else None
                         end)
             (fun _ => None).

(** The same outside world, in which streaming into a volume fails. *)
Definition streamFails (sc : Scenario) : containerProvider nat :=
  let p := scripted sc in
  {| FindContainerOnWorker := FindContainerOnWorker p;
     CreateContainer := CreateContainer p;
     workerName := workerName p;
     Failed := fun _ w => (Some (ErrOther "mark failed"), w);
     Created := Created p;
     Lookup := Lookup p;
     Create := Create p;
     Destroy := Destroy p;
     Acquire := Acquire p;
     Release := Release p;
     FetchForContainer := FetchForContainer p;
     FindVolumesForContainer := FindVolumesForContainer p;
     newGardenWorkerContainer := newGardenWorkerContainer p;
     FindOrCreateVolumeForContainer := FindOrCreateVolumeForContainer p;
     FindOrCreateCOWVolumeForContainer := FindOrCreateCOWVolumeForContainer p;
     VolumeOn := VolumeOn p;
     StreamTo := fun _ _ w => (Some (ErrOther "stream failed"), w);
     BindMountVolumeOn := BindMountVolumeOn p;
     httpProxyURL := httpProxyURL p;
     httpsProxyURL := httpsProxyURL p;
     noProxy := noProxy p |}.

(** Two inputs, the first of which is resident on the worker, and an
    output of its own. *)
Definition twoSourcesSpec : ContainerSpec.t :=
  ContainerSpec.mk 5 [] "/tmp/build"
    [InputSource.mk (mkArtifactSource "repo") "/tmp/build/repo";
     InputSource.mk (mkArtifactSource "cache") "/tmp/build/cache"]
    {[ "out" := "/tmp/build/out" ]} [mkBindMountSource "certs"] noLimits "".

(** ** The transcripts of [FindOrCreateContainer]

    The calls of a run and its result, stage by stage, without the
    state of the outside. *)

(** [constructGardenWorkerContainer] *)
Definition wrapRun (created : CreatedContainer.t) (g : option GardenContainer)
    (res : option Container.t * option error) (l : list Event) : Prop :=
  (exists e, l = [EvFindVolumesForContainer created (inr e)]
             /\ res = (None, Some e))
  \/ (exists vs r,
        l = [EvFindVolumesForContainer created (inl vs);
             EvNewGardenWorkerContainer g created vs r]
        /\ res = goPair r).

(** From [creatingContainer.Created()] on. *)
Definition commitRun (c : CreatingContainer.t) (g : option GardenContainer)
    (res : option Container.t * option error) (l : list Event) : Prop :=
  (exists e d,
      l = [EvCreated c (inr e); EvGardenDestroy (CreatingContainer.Handle c) d]
      /\ res = (None, Some e))
  \/ (exists created wrap,
        l = EvCreated c (inl created) :: wrap /\ wrapRun created g res wrap).

(** [createGardenContainer]: calls of the planner, then at most the
    call of garden's [Create] under the handle of the record. *)
Definition gardenRun (c : CreatingContainer.t) (spec : ContainerSpec.t)
    (img : FetchedImage.t) (r : GardenContainer + error) (l : list Event) : Prop :=
  endsWithItsError r l
  /\ ((Forall (plannerCallFor c spec img) l /\ exists err, r = inr err)
      \/ (exists pre gs,
            l = pre ++ [EvGardenCreate gs r]
            /\ Forall (plannerCallFor c spec img) pre
            /\ GardenSpec.Handle gs = CreatingContainer.Handle c)).

(** Holding the lock. *)
Definition heldRun (c : CreatingContainer.t) (spec : ContainerSpec.t)
    (image : Image) (res : option Container.t * option error)
    (l : list Event) : Prop :=
  (exists e r,
      l = [EvFetchForContainer image c (inr e); EvFailed c r]
      /\ res = (None, Some e))
  \/ (exists img lg e r,
        gardenRun c spec img (inr e) lg
        /\ l = EvFetchForContainer image c (inl img)
               :: lg ++ [EvFailed c r; EvFailedContainersInc]
        /\ res = (None, Some e))
  \/ (exists img lg g commit,
        gardenRun c spec img (inl g) lg
        /\ l = EvFetchForContainer image c (inl img)
               :: lg ++ EvContainersCreatedInc :: commit
        /\ commitRun c (Some g) res commit).

(** From the acquisition of the lock on. *)
Definition lockRun (c : CreatingContainer.t) (spec : ContainerSpec.t)
    (image : Image) (res : option Container.t * option error)
    (l : list Event) : Prop :=
  exists r rest,
    l = EvLockAcquire (NewContainerCreatingLockID (CreatingContainer.ID c)) r
        :: rest
    /\ ((exists e, r = inr e /\ rest = [] /\ res = (None, Some e))
        \/ (r = inl None /\ rest = [EvSleep creatingContainerRetryDelay]
            /\ res = (None, None))
        \/ (exists lock held,
              r = inl (Some lock)
              /\ rest = held ++ [EvLockRelease lock]
              /\ heldRun c spec image res held)).

(** From the lookup of the creating container in garden on. *)
Definition creatingRun (c : CreatingContainer.t) (spec : ContainerSpec.t)
    (image : Image) (res : option Container.t * option error)
    (l : list Event) : Prop :=
  exists g err rest,
    l = EvGardenLookup (CreatingContainer.Handle c) (g, err) :: rest
    /\ ((fatalLookupError err = true /\ rest = [] /\ res = (None, err))
        \/ (fatalLookupError err = false /\ g = None
            /\ lockRun c spec image res rest)
        \/ (fatalLookupError err = false /\ g <> None
            /\ commitRun c g res rest)).

(** A whole run. *)
Definition transcriptOfRun (owner : ContainerOwner) (metadata : ContainerMetadata)
    (spec : ContainerSpec.t) (image : Image)
    (res : option Container.t * option error) (log : list Event) : Prop :=
  (exists e, log = [EvFindContainerOnWorker owner (inr e)]
             /\ res = (None, Some e))
  \/ (exists cr cd g err rest,
        log = EvFindContainerOnWorker owner (inl (cr, Some cd))
              :: EvGardenLookup (CreatedContainer.Handle cd) (g, err) :: rest
        /\ ((exists e, err = Some e /\ rest = [] /\ res = (None, Some e))
            \/ (err = None /\ wrapRun cd g res rest)))
  \/ (exists e,
        log = [EvFindContainerOnWorker owner (inl (None, None));
               EvCreateContainer owner metadata (inr e)]
        /\ res = (None, Some e))
  \/ (exists c pre tail,
        opensOn owner metadata c pre
        /\ log = pre ++ tail
        /\ creatingRun c spec image res tail).

(** The error answered by the record store when it is asked for the
    record or to make it, or by the lock service. *)
Definition openingError (e : Event) : option error :=
  match e with
  | EvFindContainerOnWorker _ (inr err)
  | EvCreateContainer _ _ (inr err)
  | EvLockAcquire _ (inr err) => Some err
  | _ => None
  end.

(** The handle under which garden is called. *)
Definition handleAskedOfGarden (e : Event) : option string :=
  match e with
  | EvGardenLookup h _ | EvGardenDestroy h _ => Some h
  | EvGardenCreate gs _ => Some (GardenSpec.Handle gs)
  | _ => None
  end.

(** The lock service fails. *)
Definition lockErrorScenario : Scenario :=
  mkScenario (inl (Some creating1, None)) (inl creating1)
             (None, Some (ContainerNotFoundError "handle-1"))
             (inr (ErrOther "lock service down"))
             (inl created1) (fun _ => None) (fun _ => None).

(** ** [FindCreatedContainerByHandle] *)

(** The calls of [FindCreatedContainerByHandle]: calls of the provider's
    collaborators, and the lookup of the created record of a team by
    its handle. *)
Inductive HandleEvent : Type :=
  | EvProvider (e : Event)
  | EvFindCreatedContainerByHandle (teamID : Z) (handle : string)
      (r : option CreatedContainer.t + error).

(** [containerProvider.FindCreatedContainerByHandle]; [byHandle] is
    [p.dbTeamFactory.GetByID(teamID).FindCreatedContainerByHandle]. *)
Definition FindCreatedContainerByHandle {World : Type}
    (p : containerProvider World)
    (byHandle : Z -> string -> World ->
                (option CreatedContainer.t + error) * World)
    (handle : string) (teamID : Z) (w : World)
  : (option Container.t * bool * option error) * World * list HandleEvent :=
  let '((gardenContainer, err), w1) := Lookup p handle w in
  let l1 := [EvProvider (EvGardenLookup handle (gardenContainer, err))] in
  match err with
  | Some e =>
      if isContainerNotFoundError e then ((None, false, None), w1, l1)
      else ((None, false, Some e), w1, l1)
  | None =>
      let '(r, w2) := byHandle teamID handle w1 in
      let l2 := l1 ++ [EvFindCreatedContainerByHandle teamID handle r] in
      match r with
      | inr e => ((None, false, Some e), w2, l2)
      | inl None => ((None, false, None), w2, l2)
      | inl (Some createdContainer) =>
          let '(vr, w3) := FindVolumesForContainer p createdContainer w2 in
          let l3 :=
            l2 ++ [EvProvider (EvFindVolumesForContainer createdContainer vr)] in
          match vr with
          | inr e => ((None, false, Some e), w3, l3)
          | inl createdVolumes =>
              let '(c, w4) :=
                newGardenWorkerContainer p gardenContainer createdContainer
                                         createdVolumes (workerName p) w3 in
              let l4 :=
                l3 ++ [EvProvider
                         (EvNewGardenWorkerContainer gardenContainer
                            createdContainer createdVolumes c)] in
              match c with
              | inr e => ((None, false, Some e), w4, l4)
              | inl container => ((Some container, true, None), w4, l4)
              end
          end
      end
  end.

(** The store of the team has the created record. *)
Definition storeHasCreated1 (teamID : Z) (handle : string) (w : nat)
  : (option CreatedContainer.t + error) * nat :=
  (inl (if bool_decide (handle = "handle-1") then Some created1 else None), w).

(** A worker of team 5 with the base type [docker], and a spec of that
    team asking for the custom type [pr] of [chainCatalog]. *)
Definition dockerWorker : gardenWorker :=
  mkGardenWorker
    (dbWorker.mk "w3" 5 [WorkerResourceType.mk "docker" "/images/docker"] "linux"
                 [] (Some "1.2"))
    0.

Definition prSpec : WorkerSpec.t :=
  WorkerSpec.mk "linux" "pr" [] 5 chainCatalog.

(** * Theorems *)

(** ** The tag rule *)

Lemma existsb_bool_decide_eq (x : string) (l : list string) :
  existsb (fun y => bool_decide (x = y)) l = true <-> x ∈ l.
Proof.
  rewrite existsb_exists. split.
  - intros (y & Hin & Heq). apply bool_decide_eq_true in Heq. subst y.
    by apply list_elem_of_In.
  - intros Hin. exists x. split; [by apply list_elem_of_In | by apply bool_decide_eq_true].
Qed.

Lemma tagsMatch_spec (worker : gardenWorker) (tags : list string) :
  tagsMatch worker tags = true <->
  (forall stag, stag ∈ tags -> stag ∈ dbWorker.Tags (dbWorker_ worker))
  /\ (dbWorker.Tags (dbWorker_ worker) <> [] -> tags <> []).
Proof.
  unfold tagsMatch. set (workerTags := dbWorker.Tags (dbWorker_ worker)).
  destruct workerTags as [|wt wts] eqn:Hw; destruct tags as [|t ts]; simpl.
  - split; [intros _|done]. split; [intros ? H; inversion H | done].
  - split; [done|]. intros [H _]. specialize (H t (list_elem_of_here _ _)).
    inversion H.
  - split; [done|]. intros [_ H]. by destruct H.
  - rewrite andb_true_iff, forallb_forall. split.
    + intros [Ht Hts]. split; [|done]. intros s Hs.
      apply elem_of_cons in Hs as [->|Hs].
      * by apply (existsb_bool_decide_eq t (wt :: wts)).
      * apply (existsb_bool_decide_eq s (wt :: wts)), Hts. by apply list_elem_of_In.
    + intros [H _]. split.
      * apply (existsb_bool_decide_eq t (wt :: wts)), H. left.
      * intros s Hs. apply (existsb_bool_decide_eq s (wt :: wts)), H. right.
        by apply list_elem_of_In.
Qed.

(** ** Type-chain resolution *)

Lemma resolveLoop_fuel (fuel : nat) (name : string)
    (cur : option VersionedResourceType.t)
    (m : gmap string VersionedResourceType.t) :
  (cur = None \/ (size m < fuel)%nat) ->
  exists r, resolveLoop fuel name cur m = Some r.
Proof.
  revert name cur m. induction fuel as [|fuel IH]; intros name cur m H.
  - destruct H as [->|H]; [by eexists|lia].
  - destruct cur as [ut|]; [|by eexists]. simpl.
    destruct H as [H|H]; [done|].
    apply IH. destruct (m !! VersionedResourceType.Type_ ut) as [v|] eqn:Hl.
    + right. pose proof (map_size_delete_Some _ m (mk_is_Some _ _ Hl)) as Hs.
      assert (size m <> 0%nat) as Hne.
      { intros Hz. apply map_size_empty_inv in Hz. subst m.
        by rewrite lookup_empty in Hl. }
      lia.
    + by left.
Qed.

Lemma determineUnderlyingTypeName_total (typeName : string)
    (resourceTypes : list VersionedResourceType.t) :
  exists r, determineUnderlyingTypeName typeName resourceTypes = Some r.
Proof.
  unfold determineUnderlyingTypeName, resolveFuel. apply resolveLoop_fuel.
  right. lia.
Qed.

(** ** The matcher, rule by rule *)

Lemma matchedType_spec (ws : list WorkerResourceType.t) (u : string) :
  matchedType ws u = true <->
  exists t, t ∈ ws /\ WorkerResourceType.Type_ t = u.
Proof.
  unfold matchedType. rewrite existsb_exists. split.
  - intros (t & Hin & Ht). exists t. split; [by apply list_elem_of_In|].
    by apply bool_decide_eq_true in Ht.
  - intros (t & Hin & Ht). exists t. split; [by apply list_elem_of_In|].
    by apply bool_decide_eq_true.
Qed.

Lemma teamRule_bool (worker : gardenWorker) (spec : WorkerSpec.t) :
  bool_decide (WorkerSpec.TeamID spec <> dbWorker.TeamID (dbWorker_ worker))
  && bool_decide (dbWorker.TeamID (dbWorker_ worker) <> 0) = false
  <-> teamRule worker spec.
Proof.
  unfold teamRule. rewrite andb_false_iff, !bool_decide_eq_false. split.
  - intros [H|H]; [left|right]; by apply dec_stable.
  - intros [H|H]; [left|right]; auto.
Qed.

Lemma platformRule_bool (worker : gardenWorker) (spec : WorkerSpec.t) :
  bool_decide (WorkerSpec.Platform spec <> "")
  && bool_decide (WorkerSpec.Platform spec <> dbWorker.Platform (dbWorker_ worker)) = false
  <-> platformRule worker spec.
Proof.
  unfold platformRule. rewrite andb_false_iff, !bool_decide_eq_false. split.
  - intros [H|H]; [left|right]; by apply dec_stable.
  - intros [H|H]; [left|right]; auto.
Qed.

Lemma resourceTypeRule_bool (worker : gardenWorker) (spec : WorkerSpec.t) (u : string) :
  determineUnderlyingTypeName (WorkerSpec.ResourceType spec)
                              (WorkerSpec.ResourceTypes spec) = Some u ->
  (bool_decide (WorkerSpec.ResourceType spec <> "")
   && negb (matchedType (dbWorker.ResourceTypes (dbWorker_ worker)) u) = false)
  <-> resourceTypeRule worker spec.
Proof.
  intros Hu. unfold resourceTypeRule.
  rewrite andb_false_iff, bool_decide_eq_false, negb_false_iff, matchedType_spec.
  split.
  - intros [H|(t & Hin & Ht)] Hne; [done|]. by exists u, t.
  - intros H. destruct (decide (WorkerSpec.ResourceType spec = "")) as [He|Hne].
    + left. by intros ?.
    + right. destruct (H Hne) as (u' & t & Hu' & Hin & Ht).
      exists t. split; [done|]. congruence.
Qed.

(** The outcome of [Satisfying] is fixed by the first rule that fails. *)
Lemma Satisfying_spec (worker : gardenWorker) (spec : WorkerSpec.t) :
  exists r, Satisfying worker spec = Some r /\
    ((~ teamRule worker spec /\ r = (None, Some ErrTeamMismatch))
     \/ (teamRule worker spec /\ ~ resourceTypeRule worker spec
         /\ r = (None, Some ErrUnsupportedResourceType))
     \/ (teamRule worker spec /\ resourceTypeRule worker spec
         /\ ~ platformRule worker spec
         /\ r = (None, Some ErrIncompatiblePlatform))
     \/ (teamRule worker spec /\ resourceTypeRule worker spec
         /\ platformRule worker spec
         /\ tagsMatch worker (WorkerSpec.Tags spec) = false
         /\ r = (None, Some ErrMismatchedTags))
     \/ (teamRule worker spec /\ resourceTypeRule worker spec
         /\ platformRule worker spec
         /\ tagsMatch worker (WorkerSpec.Tags spec) = true
         /\ r = (Some worker, None))).
Proof.
  destruct (determineUnderlyingTypeName_total (WorkerSpec.ResourceType spec)
              (WorkerSpec.ResourceTypes spec)) as [u Hu].
  pose proof (teamRule_bool worker spec) as Ht.
  pose proof (platformRule_bool worker spec) as Hp.
  pose proof (resourceTypeRule_bool worker spec u Hu) as Hr.
  unfold Satisfying. rewrite Hu.
  destruct (bool_decide (WorkerSpec.TeamID spec <> dbWorker.TeamID (dbWorker_ worker))
            && bool_decide (dbWorker.TeamID (dbWorker_ worker) <> 0)) eqn:Et.
  { eexists. split; [done|]. left. split; [|done]. intros H. apply Ht in H. done. }
  assert (teamRule worker spec) as HT by (by apply Ht).
  set (rest := if bool_decide (WorkerSpec.Platform spec <> "") && _ then _ else _).
  assert ((~ platformRule worker spec /\ rest = (None, Some ErrIncompatiblePlatform))
          \/ (platformRule worker spec
              /\ tagsMatch worker (WorkerSpec.Tags spec) = false
              /\ rest = (None, Some ErrMismatchedTags))
          \/ (platformRule worker spec
              /\ tagsMatch worker (WorkerSpec.Tags spec) = true
              /\ rest = (Some worker, None))) as Hrest.
  { subst rest.
    destruct (bool_decide (WorkerSpec.Platform spec <> "") && _) eqn:Ep.
    - left. split; [|done]. intros H. apply Hp in H. done.
    - right. assert (platformRule worker spec) by (by apply Hp).
      destruct (tagsMatch worker (WorkerSpec.Tags spec)); simpl; [right|left]; done. }
  clearbody rest.
  destruct (bool_decide (WorkerSpec.ResourceType spec <> "")) eqn:Er; simpl in Hr.
  - destruct (matchedType (dbWorker.ResourceTypes (dbWorker_ worker)) u) eqn:Em;
      simpl in *.
    + assert (resourceTypeRule worker spec) as HR by (by apply Hr).
      exists rest. split; [done|]. right; right.
      destruct Hrest as [(?&?)|[(?&?&?)|(?&?&?)]];
        [left|right; left|right; right]; done.
    + eexists. split; [done|]. right; left. split; [done|]. split; [|done].
      intros H. apply Hr in H. done.
  - assert (resourceTypeRule worker spec) as HR by (by apply Hr).
    exists rest. split; [done|]. right; right.
      destruct Hrest as [(?&?)|[(?&?&?)|(?&?&?)]];
        [left|right; left|right; right]; done.
Qed.

(** C1 (as amended): [tagsMatch] accepts exactly when every requested
    tag is among the worker's tags and a tagged worker is asked for at
    least one tag; [Satisfying] answers [ErrMismatchedTags] exactly when
    the team, resource-type and platform rules pass and [tagsMatch]
    rejects. *)
Theorem tagsMatch_subset_and_tagged_needs_tags
    (worker : gardenWorker) (spec : WorkerSpec.t) :
  (tagsMatch worker (WorkerSpec.Tags spec) = true <->
     (forall stag, stag ∈ WorkerSpec.Tags spec ->
                   stag ∈ dbWorker.Tags (dbWorker_ worker))
     /\ (dbWorker.Tags (dbWorker_ worker) <> [] -> WorkerSpec.Tags spec <> []))
  /\ (Satisfying worker spec = Some (None, Some ErrMismatchedTags) <->
        teamRule worker spec /\ resourceTypeRule worker spec
        /\ platformRule worker spec
        /\ tagsMatch worker (WorkerSpec.Tags spec) = false).
Proof.
  split; [apply tagsMatch_spec|].
  destruct (Satisfying_spec worker spec) as (r & Hr & Hcases). rewrite Hr.
  split.
  - intros [= ->].
    destruct Hcases as [(?&?)|[(?&?&?)|[(?&?&?&?)|[(?&?&?&?&?)|(?&?&?&?&?)]]]];
      try discriminate; done.
  - intros (HT & HR & HP & Htags).
    destruct Hcases as [(?&?)|[(?&?&?)|[(?&?&?&?)|[(?&?&?&?&?)|(?&?&?&?&?)]]]];
      try done; congruence.
Qed.

(** C1, counterexample: a tagged worker rejects a spec without tags, and
    an untagged worker rejects a spec that asks for a tag, although the
    rule as specified accepts both. *)
Lemma tag_rule_as_specified_fails :
  (tagRuleAsSpecified (dbWorker.Tags (dbWorker_ gpuWorker)) []
   /\ tagsMatch gpuWorker [] = false
   /\ Satisfying gpuWorker (specWithTags []) = Some (None, Some ErrMismatchedTags))
  /\ (tagRuleAsSpecified (dbWorker.Tags (dbWorker_ untaggedWorker)) ["gpu"]
      /\ tagsMatch untaggedWorker ["gpu"] = false
      /\ Satisfying untaggedWorker (specWithTags ["gpu"])
         = Some (None, Some ErrMismatchedTags)).
Proof.
  split; (split; [|split; reflexivity]).
  - intros _ stag Hin. inversion Hin.
  - intros Hne. by destruct Hne.
Qed.

(** The two matcher scenarios of the specification. *)
Example matcher_returns_the_worker :
  Satisfying gpuWorker (WorkerSpec.mk "" "git" ["gpu"] 5 [])
  = Some (Some gpuWorker, None).
Proof. vm_compute. reflexivity. Qed.

Example matcher_rejects_a_missing_tag :
  Satisfying gpuWorker (specWithTags ["gpu"; "fast"])
  = Some (None, Some ErrMismatchedTags).
Proof. vm_compute. reflexivity. Qed.

(** ** Consumption of catalog entries *)

Lemma keyed_build_from (l : list VersionedResourceType.t)
    (m : gmap string VersionedResourceType.t) :
  keyed m ->
  keyed (foldl (fun m rt => <[VersionedResourceType.Name rt := rt]> m) m l).
Proof.
  revert m. induction l as [|rt l IH]; intros m Hm; simpl; [done|].
  apply IH. intros k v. rewrite lookup_insert. case_decide as Hk.
  - intros [= <-]. done.
  - apply Hm.
Qed.

Lemma keyed_buildResourceTypesMap (l : list VersionedResourceType.t) :
  keyed (buildResourceTypesMap l).
Proof. apply keyed_build_from. intros k v. by rewrite lookup_empty. Qed.

Lemma keyed_delete (k : string) (m : gmap string VersionedResourceType.t) :
  keyed m -> keyed (delete k m).
Proof.
  intros Hm k' v. rewrite lookup_delete. case_decide; [done|apply Hm].
Qed.

Lemma substitutions_length (fuel : nat) (cur : option VersionedResourceType.t)
    (m : gmap string VersionedResourceType.t) :
  (length (substitutions fuel cur m) <= fuel)%nat.
Proof.
  revert cur m. induction fuel as [|fuel IH]; intros [ut|] m; simpl; try lia.
  specialize (IH (m !! VersionedResourceType.Type_ ut)
                 (delete (VersionedResourceType.Type_ ut) m)). lia.
Qed.

(** Once the entry in hand has been deleted from the map, no entry is
    substituted twice. *)
Lemma substitutions_NoDup (fuel : nat) (cur : option VersionedResourceType.t)
    (m : gmap string VersionedResourceType.t) :
  keyed m ->
  (forall ut, cur = Some ut -> m !! VersionedResourceType.Name ut = None) ->
  NoDup (substitutions fuel cur m)
  /\ forall x, x ∈ substitutions fuel cur m ->
       (exists ut, cur = Some ut /\ x = VersionedResourceType.Name ut)
       \/ is_Some (m !! x).
Proof.
  revert cur m. induction fuel as [|fuel IH]; intros cur m Hk Hcur.
  - destruct cur; simpl; (split; [apply NoDup_nil_2|intros x Hx; inversion Hx]).
  - destruct cur as [ut|]; simpl.
    2:{ split; [apply NoDup_nil_2|]. intros x Hx; inversion Hx. }
    set (n := VersionedResourceType.Type_ ut).
    destruct (IH (m !! n) (delete n m)) as [Hnd Hin].
    { by apply keyed_delete. }
    { intros v Hv. rewrite (Hk _ _ Hv). apply lookup_delete_eq. }
    assert (forall x, x ∈ substitutions fuel (m !! n) (delete n m) ->
                      is_Some (m !! x)) as Hin'.
    { intros x Hx. destruct (Hin x Hx) as [(v & Hv & ->)|Hs].
      - rewrite (Hk _ _ Hv). by eexists.
      - revert Hs. rewrite lookup_delete. case_decide; [by intros [? ?]|done]. }
    split.
    + constructor; [|done]. intros Hx. apply Hin' in Hx.
      rewrite (Hcur ut eq_refl) in Hx. by destruct Hx.
    + intros x Hx. apply elem_of_cons in Hx as [->|Hx]; [left; eauto|].
      right. by apply Hin'.
Qed.

(** C10 (as amended): resolution returns for every catalog, after at
    most one substitution more than the catalog has entries; no entry
    is substituted twice except the one of the starting name, which the
    first lookup leaves in the map; [Satisfying] returns, returns the
    worker only when the resource-type rule holds, and answers
    [ErrUnsupportedResourceType] when the team rule passes and the
    resource-type rule fails. *)
Theorem type_chain_resolution_terminates
    (worker : gardenWorker) (spec : WorkerSpec.t) :
  let typeName := WorkerSpec.ResourceType spec in
  let catalog := WorkerSpec.ResourceTypes spec in
  (exists underlyingType,
      determineUnderlyingTypeName typeName catalog = Some underlyingType)
  /\ (length (consumedEntries typeName catalog)
      <= S (size (buildResourceTypesMap catalog)))%nat
  /\ NoDup (tail (consumedEntries typeName catalog))
  /\ exists r, Satisfying worker spec = Some r
       /\ (r = (Some worker, None) -> resourceTypeRule worker spec)
       /\ (teamRule worker spec -> ~ resourceTypeRule worker spec ->
           r = (None, Some ErrUnsupportedResourceType))
       /\ (r.1 = None <-> r.2 <> None).
Proof.
  intros typeName catalog. split; [apply determineUnderlyingTypeName_total|].
  split; [apply substitutions_length|]. split.
  - unfold consumedEntries, resolveFuel. set (m := buildResourceTypesMap catalog).
    destruct (m !! typeName) as [ut|]; simpl; [|constructor].
    apply substitutions_NoDup.
    + apply keyed_delete, keyed_buildResourceTypesMap.
    + intros v Hv. rewrite (keyed_buildResourceTypesMap catalog _ _ Hv).
      apply lookup_delete_eq.
  - destruct (Satisfying_spec worker spec) as (r & Hr & Hcases).
    exists r. split; [done|].
    destruct Hcases as [(?&->)|[(?&?&->)|[(?&?&?&->)|[(?&?&?&?&->)|(?&?&?&?&->)]]]];
      repeat split; simpl; try done; try (intros; exfalso; tauto).
Qed.

(** C10, counterexample: with the cyclic catalog the entry of the
    starting name is substituted twice, and a spec whose resolved type
    the worker supports is answered with [ErrIncompatiblePlatform],
    neither the worker nor [ErrUnsupportedResourceType]. *)
Lemma type_chain_entry_revisited :
  consumedEntries "a" cyclicCatalog = ["a"; "b"; "a"]
  /\ determineUnderlyingTypeName "a" cyclicCatalog = Some "b"
  /\ resourceTypeRule bWorker (cyclicSpec "darwin")
  /\ Satisfying bWorker (cyclicSpec "darwin")
     = Some (None, Some ErrIncompatiblePlatform).
Proof.
  split; [by vm_compute|]. split; [by vm_compute|]. split; [|by vm_compute].
  intros _. exists "b", (WorkerResourceType.mk "b" "/images/b").
  split; [by vm_compute|]. split; [|done]. simpl. left.
Qed.

(** ** Version compatibility *)



(** ** Running computations *)

Lemma run_bind {World A B} (m : M World A) (f : A -> M World B) (w : World) :
  (m ≫= f) w =
  let '(a, w1, l1) := m w in
  let '(b, w2, l2) := f a w1 in (b, w2, l1 ++ l2).
Proof. reflexivity. Qed.

Lemma run_ret {World A} (x : A) (w : World) :
  (mret x : M World A) w = (x, w, []).
Proof. reflexivity. Qed.

Lemma run_call {World A} (op : World -> A * World) (ev : A -> Event) (w : World) :
  call op ev w = let '(a, w') := op w in (a, w', [ev a]).
Proof. reflexivity. Qed.

Lemma run_emit {World} (ev : Event) (w : World) :
  emit ev w = (tt, w, [ev]).
Proof. reflexivity. Qed.

(** One step of symbolic execution: expose the next call and name its
    answer. *)
Ltac mstep :=
  first
    [ rewrite run_bind
    | rewrite run_ret
    | rewrite run_emit
    | rewrite run_call
    | match goal with
      | |- context [match ?x with inl _ => _ | inr _ => _ end] =>
          is_var x; destruct x
      | |- context [match ?x with Some _ => _ | None => _ end] =>
          is_var x; destruct x
      | |- context [let '(_, _) := ?x in _] => is_var x; destruct x
      end
    | match goal with
      | |- context [let '(_, _) := ?op ?w in _] =>
          let a := fresh "a" in
          let w' := fresh "w" in
          let E := fresh "E" in
          destruct (op w) as [a w'] eqn:E
      end ].

Ltac msteps := repeat (mstep; cbn beta iota).

Section PlannerEvents.
Context {World : Type} (lib : GoLib) (p : containerProvider World).
Context (c : CreatingContainer.t) (spec : ContainerSpec.t) (img : FetchedImage.t).

Lemma scratchMount_events w r w' l :
  scratchMount p c spec img w = (r, w', l) ->
  Forall (fun e => isPlannerEvent e = true) l.
Proof.
  unfold scratchMount. msteps; intros [= <- <- <-]; repeat constructor.
Qed.

Lemma workdirMount_events w r w' l :
  workdirMount lib p c spec img w = (r, w', l) ->
  Forall (fun e => isPlannerEvent e = true) l.
Proof.
  unfold workdirMount. destruct (_ && _ && _);
    msteps; intros [= <- <- <-]; repeat constructor.
Qed.

Lemma inputVolume_events input path w r w' l :
  inputVolume p c spec img input path w = (r, w', l) ->
  Forall (fun e => isPlannerEvent e = true) l.
Proof.
  unfold inputVolume. msteps; intros [= <- <- <-]; repeat constructor.
Qed.


Lemma allocations_app (l1 l2 : list Event) :
  allocations (l1 ++ l2) = allocations l1 ++ allocations l2.
Proof. apply omap_app. Qed.

Lemma inputVolume_allocations input path w v w' l :
  inputVolume p c spec img input path w = (inl v, w', l) ->
  allocations l = [mkVolumeMount v path].
Proof.
  unfold inputVolume. msteps; intros [= -> <- <-]; reflexivity.
Qed.

Lemma inputsLoop_events inputs io0 s0 w r w' l :
  inputsLoop lib p c spec img inputs io0 s0 w = (r, w', l) ->
  Forall (fun e => isPlannerEvent e = true) l.
Proof.
  revert io0 s0 w r w' l.
  induction inputs as [|i inputs IH]; intros io0 s0 w r w' l; simpl.
  - rewrite run_ret. intros [= <- <- <-]. constructor.
  - rewrite run_bind.
    destruct (inputVolume _ _ _ _ _ _ w) as [[rv w1] l1] eqn:Ev.
    apply inputVolume_events in Ev. destruct rv as [v|e].
    + destruct (inputsLoop _ _ _ _ _ _ _ _ w1) as [[r2 w2] l2] eqn:El.
      apply IH in El. intros [= <- <- <-]. by apply Forall_app.
    + rewrite run_ret. intros [= <- <- <-]. by rewrite app_nil_r.
Qed.

Lemma inputsLoop_mounts inputs io0 s0 w io s w' l :
  inputsLoop lib p c spec img inputs io0 s0 w = (inl (io, s), w', l) ->
  exists inM,
    io = io0 ++ inM
    /\ map MountPath inM
       = map (fun i => Clean lib (InputSource.DestinationPath i)) inputs
    /\ allocations l = inM
    /\ forall x, x ∈ s <-> x ∈ map MountPath inM \/ x ∈ s0.
Proof.
  revert io0 s0 w io s w' l.
  induction inputs as [|i inputs IH]; intros io0 s0 w io s w' l; simpl.
  - rewrite run_ret. intros [= <- <- <- <-]. exists [].
    rewrite app_nil_r. repeat split; try done.
    + by right.
    + intros [H|H]; [inversion H|done].
  - rewrite run_bind.
    destruct (inputVolume _ _ _ _ _ _ w) as [[rv w1] l1] eqn:Ev.
    destruct rv as [v|e].
    + apply inputVolume_allocations in Ev.
      destruct (inputsLoop _ _ _ _ _ _ _ _ w1) as [[r2 w2] l2] eqn:El.
      intros [= -> <- <-]. apply IH in El as (inM & -> & Hp & Ha & Hs).
      eexists (_ :: inM). rewrite <- app_assoc. split; [reflexivity|].
      split; [by rewrite <- Hp|]. split; [by rewrite allocations_app, Ev, Ha|].
      intros x. rewrite Hs. simpl.
      rewrite elem_of_cons, elem_of_union, elem_of_singleton. tauto.
    + rewrite run_ret. intros [=].
Qed.

Lemma outputsLoop_events outs io0 s w r w' l :
  outputsLoop lib p c spec img outs io0 s w = (r, w', l) ->
  Forall (fun e => isPlannerEvent e = true) l.
Proof.
  revert io0 w r w' l.
  induction outs as [|o outs IH]; intros io0 w r w' l; simpl.
  - rewrite run_ret. intros [= <- <- <-]. constructor.
  - case_bool_decide; [apply IH|].
    rewrite run_bind, run_call.
    destruct (FindOrCreateVolumeForContainer _ _ _ _ _ w) as [[v|e] w1].
    + destruct (outputsLoop _ _ _ _ _ _ _ _ w1) as [[r2 w2] l2] eqn:El.
      apply IH in El. intros [= <- <- <-]. by constructor.
    + rewrite run_ret. intros [= <- <- <-]. by repeat constructor.
Qed.

Lemma outputsLoop_mounts outs io0 s w io w' l :
  outputsLoop lib p c spec img outs io0 s w = (inl io, w', l) ->
  exists outM,
    io = io0 ++ outM
    /\ map MountPath outM = filter (fun x => x ∉ s) (map (Clean lib) outs)
    /\ allocations l = outM.
Proof.
  revert io0 w io w' l.
  induction outs as [|o outs IH]; intros io0 w io w' l; simpl.
  - rewrite run_ret. intros [= <- <- <-]. exists []. by rewrite app_nil_r.
  - case_bool_decide as Hin.
    + intros El. apply IH in El as (outM & -> & Hp & Ha). exists outM.
      split; [done|]. split; [|done]. by rewrite filter_cons_False by auto.
    + rewrite run_bind, run_call.
      destruct (FindOrCreateVolumeForContainer _ _ _ _ _ w) as [[v|e] w1].
      * destruct (outputsLoop _ _ _ _ _ _ _ _ w1) as [[r2 w2] l2] eqn:El.
        intros [= -> <- <-]. apply IH in El as (outM & -> & Hp & Ha).
        eexists (_ :: outM). rewrite <- app_assoc. split; [reflexivity|].
        split; [|by simpl; rewrite <- Ha].
        rewrite filter_cons_True by done. simpl. by rewrite Hp.
      * rewrite run_ret. intros [=].
Qed.

Lemma bindMountsLoop_events mounts acc w r w' l :
  bindMountsLoop p mounts acc w = (r, w', l) ->
  Forall (fun e => isPlannerEvent e = true) l /\ allocations l = [].
Proof.
  revert acc w r w' l.
  induction mounts as [|m mounts IH]; intros acc w r w' l; simpl.
  - rewrite run_ret. intros [= <- <- <-]. split; [constructor|done].
  - rewrite run_bind, run_call.
    destruct (BindMountVolumeOn p m w) as [[[b|]|e] w1].
    + destruct (bindMountsLoop _ _ _ w1) as [[r2 w2] l2] eqn:El.
      apply IH in El as [Hf Ha]. intros [= <- <- <-]. split; [by constructor|done].
    + destruct (bindMountsLoop _ _ _ w1) as [[r2 w2] l2] eqn:El.
      apply IH in El as [Hf Ha]. intros [= <- <- <-]. split; [by constructor|done].
    + rewrite run_ret. intros [= <- <- <-]. split; [by repeat constructor|done].
Qed.

Lemma bindMountsLoop_result mounts acc w bs w' l :
  bindMountsLoop p mounts acc w = (inl bs, w', l) ->
  exists extra, bs = acc ++ extra /\ (length extra <= length mounts)%nat.
Proof.
  revert acc w bs w' l.
  induction mounts as [|m mounts IH]; intros acc w bs w' l; simpl.
  - rewrite run_ret. intros [= <- <- <-]. exists []. by rewrite app_nil_r.
  - rewrite run_bind, run_call.
    destruct (BindMountVolumeOn p m w) as [[[b|]|e] w1].
    + destruct (bindMountsLoop _ _ _ w1) as [[r2 w2] l2] eqn:El.
      intros [= -> <- <-]. apply IH in El as (extra & -> & Hl).
      exists (b :: extra). rewrite <- app_assoc. split; [done|simpl; lia].
    + destruct (bindMountsLoop _ _ _ w1) as [[r2 w2] l2] eqn:El.
      intros [= -> <- <-]. apply IH in El as (extra & -> & Hl).
      exists extra. split; [done|lia].
    + rewrite run_ret. intros [=].
Qed.

End PlannerEvents.

(** ** The mount plan *)

Section MountPlan.
Context {World : Type} (lib : GoLib) (p : containerProvider World).
Context (c : CreatingContainer.t) (spec : ContainerSpec.t) (img : FetchedImage.t).

Lemma assembleGardenSpec_events w r w' l :
  assembleGardenSpec lib p c spec img w = (r, w', l) ->
  Forall (fun e => isPlannerEvent e = true) l.
Proof.
  unfold assembleGardenSpec. rewrite run_bind.
  destruct (scratchMount _ _ _ _ w) as [[r1 w1] l1] eqn:E1.
  apply scratchMount_events in E1. destruct r1 as [scratch|e]; cbn beta iota.
  2:{ rewrite run_ret. intros [= <- <- <-]. by rewrite app_nil_r. }
  rewrite run_bind.
  destruct (workdirMount _ _ _ _ _ w1) as [[r2 w2] l2] eqn:E2.
  apply workdirMount_events in E2. destruct r2 as [workdir|e]; cbn beta iota.
  2:{ rewrite run_ret. intros [= <- <- <-]. rewrite app_nil_r.
      by apply Forall_app. }
  rewrite run_bind.
  destruct (inputsLoop _ _ _ _ _ _ _ _ w2) as [[r3 w3] l3] eqn:E3.
  apply inputsLoop_events in E3. destruct r3 as [[io0 s]|e]; cbn beta iota.
  2:{ rewrite run_ret. intros [= <- <- <-]. rewrite app_nil_r.
      repeat (apply Forall_app; split); done. }
  rewrite run_bind.
  destruct (outputsLoop _ _ _ _ _ _ _ _ w3) as [[r4 w4] l4] eqn:E4.
  apply outputsLoop_events in E4. destruct r4 as [io|e]; cbn beta iota.
  2:{ rewrite run_ret. intros [= <- <- <-]. rewrite app_nil_r.
      repeat (apply Forall_app; split); done. }
  rewrite run_bind.
  destruct (bindMountsLoop _ _ _ w4) as [[r5 w5] l5] eqn:E5.
  apply bindMountsLoop_events in E5 as [E5 _]. destruct r5 as [bs|e];
    cbn beta iota; rewrite run_ret; intros [= <- <- <-]; rewrite app_nil_r;
    repeat (apply Forall_app; split); done.
Qed.

Lemma createGardenContainer_events w r w' l :
  createGardenContainer lib p c spec img w = (r, w', l) ->
  Forall (fun e => isPlannerEvent e = true) l.
Proof.
  unfold createGardenContainer. rewrite run_bind.
  destruct (assembleGardenSpec _ _ _ _ _ w) as [[r1 w1] l1] eqn:E1.
  apply assembleGardenSpec_events in E1. destruct r1 as [[[gs vms] io]|e];
    cbn beta iota.
  - rewrite run_call. destruct (Create p gs w1) as [a w2].
    intros [= <- <- <-]. apply Forall_app. split; [done|by repeat constructor].
  - rewrite run_ret. intros [= <- <- <-]. by rewrite app_nil_r.
Qed.

(** The plan of a successful run: the scratch mount, the working
    directory mount when one is needed, one mount per input in order,
    one mount per output path that no input claimed; the allocations of
    the transcript are these mounts and no others; the bind mounts are
    the found extra mounts of the spec followed by the plan, its
    input/output part sorted. *)
Lemma assembleGardenSpec_plan w gs vms io w' l :
  assembleGardenSpec lib p c spec img w = (inl (gs, vms, io), w', l) ->
  exists sv wd inM outM extra,
    vms = mkVolumeMount sv "/scratch" :: wd
    /\ (if needsWorkdirVolume lib spec
        then exists wv, wd = [mkVolumeMount wv (ContainerSpec.Dir spec)]
        else wd = [])
    /\ io = inM ++ outM
    /\ map MountPath inM = cleanedInputPaths lib spec
    /\ map MountPath outM
       = filter (fun x => x ∉ cleanedInputPaths lib spec) (cleanedOutputPaths lib spec)
    /\ allocations l = vms ++ io
    /\ GardenSpec.BindMounts gs
       = extra ++ map toBindMount (vms ++ sortByMountPath lib io)
    /\ (length extra <= length (ContainerSpec.BindMounts spec))%nat.
Proof.
  unfold assembleGardenSpec. rewrite run_bind.
  destruct (scratchMount _ _ _ _ w) as [[r1 w1] l1] eqn:E1.
  destruct r1 as [scratch|e]; cbn beta iota; [|by rewrite run_ret].
  rewrite run_bind.
  destruct (workdirMount _ _ _ _ _ w1) as [[r2 w2] l2] eqn:E2.
  destruct r2 as [workdir|e]; cbn beta iota; [|by rewrite run_ret].
  rewrite run_bind.
  destruct (inputsLoop _ _ _ _ _ _ _ _ w2) as [[r3 w3] l3] eqn:E3.
  destruct r3 as [[io0 s]|e]; cbn beta iota; [|by rewrite run_ret].
  rewrite run_bind.
  destruct (outputsLoop _ _ _ _ _ _ _ _ w3) as [[r4 w4] l4] eqn:E4.
  destruct r4 as [io1|e]; cbn beta iota; [|by rewrite run_ret].
  rewrite run_bind.
  destruct (bindMountsLoop _ _ _ w4) as [[r5 w5] l5] eqn:E5.
  destruct r5 as [bs|e]; cbn beta iota; [|by rewrite run_ret].
  rewrite run_ret. intros [= <- <- <- <- <-].
  apply inputsLoop_mounts in E3 as (inM & -> & HinP & HinA & Hs).
  apply outputsLoop_mounts in E4 as (outM & -> & HoutP & HoutA).
  pose proof (bindMountsLoop_events _ _ _ _ _ _ _ E5) as [_ HbA].
  apply bindMountsLoop_result in E5 as (extra & -> & Hlen).
  assert (exists sv, scratch = [mkVolumeMount sv "/scratch"]
                     /\ allocations l1 = scratch) as (sv & -> & Hl1).
  { revert E1. unfold scratchMount. msteps; intros [= <- <- <-]. by eexists. }
  assert ((if needsWorkdirVolume lib spec
           then exists wv, workdir = [mkVolumeMount wv (ContainerSpec.Dir spec)]
           else workdir = [])
          /\ allocations l2 = workdir) as (Hwd & Hl2).
  { revert E2. unfold workdirMount. fold (needsWorkdirVolume lib spec).
    destruct (needsWorkdirVolume lib spec); msteps; intros [= <- <- <-];
      (split; [|done]); [by eexists|done]. }
  exists sv, workdir, inM, outM, extra. simpl app.
  split; [done|]. split; [done|]. split; [done|]. split; [done|].
  split.
  { rewrite HoutP. unfold cleanedOutputPaths, cleanedInputPaths. rewrite <- HinP.
    rewrite <- (map_map snd (Clean lib)).
    apply list_filter_iff. intros x. rewrite Hs.
    split; [intros H ?; apply H; by left|].
    intros H [?|Hx]; [done|]. by apply not_elem_of_empty in Hx. }
  split.
  { rewrite !app_nil_r, !allocations_app, Hl1, Hl2, HinA, HoutA, HbA.
    by rewrite app_nil_r. }
  split; [done|done].
Qed.

End MountPlan.

(** ** The model of [filepath.Clean] is idempotent *)

Lemma splitOn_slash_free (cur comp rest : list ascii) :
  slash ∉ comp ->
  splitOn slash cur (comp ++ rest) = splitOn slash (rev comp ++ cur) rest.
Proof.
  revert cur. induction comp as [|ch comp IH]; intros cur Hfree; [done|].
  apply not_elem_of_cons in Hfree as [Hne Hfree].
  cbn [app splitOn rev]. rewrite bool_decide_eq_false_2 by congruence.
  rewrite IH by done. by rewrite <- app_assoc.
Qed.

Lemma splitOn_joinSlash (cur comp : list ascii) (comps : list (list ascii)) :
  Forall (fun x => slash ∉ x) (comp :: comps) ->
  splitOn slash cur (joinSlash (comp :: comps)) = (rev cur ++ comp) :: comps.
Proof.
  revert cur comp. induction comps as [|comp' comps IH]; intros cur comp Hfree.
  - apply Forall_cons in Hfree as [Hc _]. simpl.
    rewrite <- (app_nil_r comp) at 1. rewrite splitOn_slash_free by done. simpl.
    by rewrite rev_app_distr, rev_involutive.
  - apply Forall_cons in Hfree as [Hc Hfree].
    change (joinSlash (comp :: comp' :: comps))
      with (comp ++ slash :: joinSlash (comp' :: comps)).
    rewrite splitOn_slash_free by done. cbn [splitOn].
    rewrite bool_decide_eq_true_2 by done.
    rewrite (IH [] comp' Hfree). simpl.
    by rewrite rev_app_distr, rev_involutive.
Qed.

Lemma splitOn_pieces_slash_free (cur s : list ascii) :
  slash ∉ cur -> Forall (fun x => slash ∉ x) (splitOn slash cur s).
Proof.
  revert cur. induction s as [|ch s IH]; intros cur Hcur; simpl.
  - constructor; [|constructor]. intros H. apply Hcur.
    apply list_elem_of_In. apply list_elem_of_In in H. by apply in_rev.
  - case_bool_decide as Hch.
    + constructor.
      * intros H. apply Hcur.
        apply list_elem_of_In. apply list_elem_of_In in H. by apply in_rev.
      * apply IH. intros H. inversion H.
    + apply IH. intros H. apply elem_of_cons in H as [H|H]; [|done].
      by apply Hch.
Qed.

Lemma isName_not_skipped (comp : list ascii) :
  isName comp ->
  bool_decide (comp = []) || bool_decide (comp = dot) = false
  /\ bool_decide (comp = dotdot) = false.
Proof.
  intros (H1 & _ & H2 & H3).
  by rewrite !bool_decide_eq_false_2.
Qed.

(** Names are pushed one after the other. *)
Lemma cleanComponents_names (rooted : bool) (out comps : list (list ascii)) :
  Forall isName comps ->
  cleanComponents rooted out comps = rev out ++ comps.
Proof.
  revert out. induction comps as [|comp comps IH]; intros out Hn; simpl.
  - by rewrite app_nil_r.
  - apply Forall_cons in Hn as [Hc Hn].
    destruct (isName_not_skipped comp Hc) as [-> ->].
    rewrite IH by done. simpl. by rewrite <- app_assoc.
Qed.

(** A cleaned list of components is left as it is. *)
Lemma cleanComponents_normal (rooted : bool) (out comps : list (list ascii)) :
  normalComps rooted comps ->
  Forall (fun x => x = dotdot) out ->
  cleanComponents rooted out comps = rev out ++ comps.
Proof.
  revert out. induction comps as [|comp comps IH]; intros out Hn Hout.
  - simpl. by rewrite app_nil_r.
  - destruct Hn as [[Hc Hn]|(-> & -> & Hn)].
    + apply cleanComponents_names. by constructor.
    + simpl. destruct out as [|top out].
      * rewrite IH; [done|done|]. by repeat constructor.
      * apply Forall_cons in Hout as [-> Hout].
        rewrite bool_decide_eq_true_2 by done.
        rewrite IH; [|done|by repeat constructor].
        simpl. by rewrite <- !app_assoc.
Qed.

Lemma rev_replicate {A} (k : nat) (x : A) : rev (replicate k x) = replicate k x.
Proof.
  induction k as [|k IH]; simpl; [done|].
  rewrite IH. symmetry. apply replicate_cons_app.
Qed.

Lemma normalComps_names (rooted : bool) (comps : list (list ascii)) :
  Forall isName comps -> normalComps rooted comps.
Proof.
  destruct comps as [|comp comps]; [done|].
  intros H. apply Forall_cons in H. by left.
Qed.

Lemma normalComps_of_stack (rooted : bool) (out : list (list ascii)) :
  normalStack rooted out -> normalComps rooted (rev out).
Proof.
  intros (names & k & -> & Hn & Hk).
  rewrite rev_app_distr, rev_replicate.
  assert (Forall isName (rev names)) as Hr.
  { apply Forall_forall. intros x Hx. apply list_elem_of_In, in_rev in Hx.
    rewrite Forall_forall in Hn. by apply Hn, list_elem_of_In. }
  destruct rooted.
  - rewrite Hk by done. by apply normalComps_names.
  - clear Hk. induction k as [|k IH]; [by apply normalComps_names|].
    simpl. right. done.
Qed.

Lemma normalStack_push_name (rooted : bool) (comp : list ascii)
    (out : list (list ascii)) :
  isName comp -> normalStack rooted out -> normalStack rooted (comp :: out).
Proof.
  intros Hc (names & k & -> & Hn & Hk).
  exists (comp :: names), k. split; [done|]. split; [by constructor|done].
Qed.

Lemma cleanComponents_normalises (rooted : bool)
    (out comps : list (list ascii)) :
  Forall (fun x => slash ∉ x) comps ->
  normalStack rooted out ->
  normalComps rooted (cleanComponents rooted out comps).
Proof.
  revert out. induction comps as [|comp comps IH]; intros out Hfree Hout.
  - by apply normalComps_of_stack.
  - apply Forall_cons in Hfree as [Hc Hfree]. cbn [cleanComponents].
    destruct (decide (comp = [])) as [->|Hne].
    { rewrite bool_decide_eq_true_2 by done. by apply IH. }
    destruct (decide (comp = dot)) as [->|Hnd].
    { rewrite (bool_decide_eq_true_2 (dot = dot)) by done.
      rewrite orb_true_r. by apply IH. }
    rewrite !bool_decide_eq_false_2 by done. cbn [orb].
    case_bool_decide as Hdd.
    + subst comp. destruct Hout as (names & k & -> & Hn & Hk).
      destruct names as [|name names].
      * destruct k as [|k]; simpl.
        -- destruct rooted; apply IH; try done.
           ++ by exists [], 0%nat.
           ++ exists [], 1%nat. by repeat split.
        -- apply IH; [done|].
           exists [], (S (S k)). split; [done|]. split; [done|].
           intros Hr. specialize (Hk Hr). lia.
      * apply Forall_cons in Hn as [Hname Hn]. simpl.
        destruct Hname as (_ & _ & _ & Hname).
        rewrite bool_decide_eq_false_2 by done. apply IH; [done|].
        by exists names, k.
    + apply IH; [done|]. by apply normalStack_push_name.
Qed.

Lemma normalComps_pieces (rooted : bool) (comps : list (list ascii)) :
  normalComps rooted comps ->
  Forall (fun x => slash ∉ x) comps
  /\ match comps with
     | [] => True
     | comp :: _ => exists ch rest, comp = ch :: rest /\ ch <> slash
     end.
Proof.
  assert (forall x, isName x -> (slash ∉ x)
                    /\ exists ch rest, x = ch :: rest /\ ch <> slash) as Hname.
  { intros x (Hne & Hfree & _). split; [done|].
    destruct x as [|ch rest]; [done|]. exists ch, rest. split; [done|].
    intros ->. apply Hfree. left. }
  assert (slash ∉ dotdot) as Hdd.
  { unfold dotdot, slash. intros H.
    repeat (apply elem_of_cons in H as [H|H]; [discriminate|]). inversion H. }
  induction comps as [|comp comps IH]; [done|].
  intros [[Hc Hn]|(-> & Hr & Hn)].
  - split; [|by apply Hname]. constructor; [by apply Hname|].
    eapply Forall_impl; [exact Hn|]. intros x Hx. by apply Hname.
  - split; [constructor; [done|by apply IH]|].
    do 2 eexists. split; [reflexivity|discriminate].
Qed.

Lemma cleanComponents_skip_empty (rooted : bool)
    (out comps : list (list ascii)) :
  cleanComponents rooted out ([] :: comps) = cleanComponents rooted out comps.
Proof. reflexivity. Qed.

Lemma cleanBytes_idempotent (path : list ascii) :
  cleanBytes (cleanBytes path) = cleanBytes path.
Proof.
  destruct path as [|c0 s]; [reflexivity|].
  set (rooted := bool_decide (c0 = slash)).
  set (out := cleanComponents rooted [] (splitOn slash [] (c0 :: s))).
  assert (cleanBytes (c0 :: s)
          = if rooted then slash :: joinSlash out
            else match out with
                 | [] => dot
                 | _ => joinSlash out
                 end) as -> by reflexivity.
  assert (normalComps rooted out) as Hnorm.
  { apply cleanComponents_normalises.
    - apply splitOn_pieces_slash_free. intros H; inversion H.
    - by exists [], 0%nat. }
  destruct (normalComps_pieces rooted out Hnorm) as [Hfree Hhead].
  clearbody out. clearbody rooted. destruct rooted.
  - cbn [cleanBytes]. rewrite bool_decide_eq_true_2 by done.
    cbn [splitOn]. rewrite bool_decide_eq_true_2 by done.
    destruct out as [|comp comps]; [reflexivity|].
    rewrite splitOn_joinSlash by done. cbn [rev app].
    rewrite cleanComponents_skip_empty.
    rewrite cleanComponents_normal by done. reflexivity.
  - destruct out as [|comp comps]; [reflexivity|].
    destruct Hhead as (ch & rest & -> & Hch).
    assert (joinSlash ((ch :: rest) :: comps)
            = ch :: joinSlash (rest :: comps)) as Hj.
    { destruct comps; reflexivity. }
    rewrite Hj. unfold cleanBytes. cbn beta iota.
    rewrite bool_decide_eq_false_2 by done. rewrite <- Hj. rewrite splitOn_joinSlash by done. cbn [rev app].
    rewrite cleanComponents_normal by done. reflexivity.
Qed.

Lemma filepath_Clean_idempotent (path : string) :
  filepath_Clean (filepath_Clean path) = filepath_Clean path.
Proof.
  unfold filepath_Clean.
  by rewrite list_ascii_of_string_of_list_ascii, cleanBytes_idempotent.
Qed.

(** ** The model of the library meets [GoLibOK] *)

#[local] Instance byMountPath_total : Total byMountPath.
Proof. intros a b. unfold byMountPath. apply String.leb_total. Qed.

Lemma goLib_ok : GoLibOK goLib.
Proof.
  constructor; simpl.
  - apply filepath_Clean_idempotent.
  - apply merge_sort_Permutation.
  - intros l. apply (Sorted_merge_sort byMountPath).
  - done.
Qed.

(** ** Order on paths *)

Lemma ascii_compare_refl (a : ascii) : Ascii.compare a a = Eq.
Proof. unfold Ascii.compare. apply N.compare_refl. Qed.

Lemma ascii_compare_Lt_trans (a b c : ascii) :
  Ascii.compare a b = Lt -> Ascii.compare b c = Lt -> Ascii.compare a c = Lt.
Proof.
  unfold Ascii.compare. rewrite !N.compare_lt_iff. apply N.lt_trans.
Qed.

Lemma string_compare_Lt_trans (a b c : string) :
  String.compare a b = Lt -> String.compare b c = Lt -> String.compare a c = Lt.
Proof.
  revert b c. induction a as [|c1 s1 IH]; intros [|c2 s2] [|c3 s3]; simpl;
    try done.
  destruct (Ascii.compare c1 c2) eqn:E12; try done;
    destruct (Ascii.compare c2 c3) eqn:E23; try done; intros H1 H2.
  - apply Ascii.compare_eq_iff in E12, E23. subst.
    rewrite ascii_compare_refl. by eapply IH.
  - apply Ascii.compare_eq_iff in E12. subst. by rewrite E23.
  - apply Ascii.compare_eq_iff in E23. subst. by rewrite E12.
  - by rewrite (ascii_compare_Lt_trans _ _ _ E12 E23).
Qed.

#[local] Instance pathLe_trans : Transitive pathLe.
Proof.
  intros a b c. unfold pathLe, String.leb. intros Hab Hbc.
  destruct (String.compare a b) eqn:Eab; [| |discriminate].
  - apply String.compare_eq_iff in Eab. by subst.
  - destruct (String.compare b c) eqn:Ebc; [| |discriminate].
    + apply String.compare_eq_iff in Ebc. subst. by rewrite Eab.
    + by rewrite (string_compare_Lt_trans _ _ _ Eab Ebc).
Qed.

#[local] Instance pathLe_antisym : AntiSymm (=) pathLe.
Proof. intros a b. apply String.leb_antisym. Qed.



(** ** Properties of the mount plan *)

Lemma anyMountTo_false (lib : GoLib) (path : string) (paths : list string) :
  anyMountTo lib path paths = false <->
  forall d, d ∈ paths -> Clean lib d <> Clean lib path.
Proof.
  unfold anyMountTo. rewrite <- not_true_iff_false, existsb_exists. split.
  - intros H d Hd Heq. apply H. exists d. split; [by apply list_elem_of_In|].
    by apply bool_decide_eq_true.
  - intros H (d & Hd & Heq). apply bool_decide_eq_true in Heq.
    by apply (H d); [apply list_elem_of_In|].
Qed.


(** The working directory, when it gets a volume of its own, is no
    cleaned input or output path. *)
Lemma workdir_not_an_io_path (lib : GoLib) (spec : ContainerSpec.t) :
  GoLibOK lib ->
  needsWorkdirVolume lib spec = true ->
  (ContainerSpec.Dir spec ∉ cleanedInputPaths lib spec)
  /\ (ContainerSpec.Dir spec ∉ cleanedOutputPaths lib spec).
Proof.
  intros Hok. unfold needsWorkdirVolume.
  rewrite !andb_true_iff, !negb_true_iff, !anyMountTo_false.
  intros [[_ Hout] Hin].
  unfold cleanedInputPaths, cleanedOutputPaths,
    getDestinationPathsFromInputs, getDestinationPathsFromOutputs in *.
  split; intros Hd; apply list_elem_of_In, in_map_iff in Hd as (x & Hx & Hin').
  - apply (Hin (InputSource.DestinationPath x)).
    + apply list_elem_of_In, in_map_iff. by exists x.
    + by rewrite <- Hx, (Clean_idempotent lib Hok).
  - apply (Hout x.2).
    + apply list_elem_of_In, in_map_iff. by exists x.
    + by rewrite <- Hx, (Clean_idempotent lib Hok).
Qed.

Lemma filter_none {A} (P : A -> Prop) `{forall x, Decision (P x)} (l : list A) :
  (forall x, x ∈ l -> ~ P x) -> filter P l = [].
Proof.
  induction l as [|x l IH]; intros Hl; [done|].
  rewrite filter_cons_False by (apply Hl; left).
  apply IH. intros y Hy. apply Hl. by right.
Qed.

Lemma filter_path_length {A} (f : A -> string) (path : string) (l : list A) :
  length (filter (fun m => f m = path) l)
  = length (filter (fun x => x = path) (map f l)).
Proof.
  induction l as [|m l IH]; [done|]. simpl map.
  rewrite !filter_cons. destruct (decide (f m = path)); simpl; by rewrite IH.
Qed.

Section PlanProperties.
Context {World : Type} (lib : GoLib) (p : containerProvider World).
Context (c : CreatingContainer.t) (spec : ContainerSpec.t) (img : FetchedImage.t).
Context (Hok : GoLibOK lib).


End PlanProperties.


(** C8 (as amended): for every input, no mount made for an output is
    at the input's cleaned destination, and the volumes allocated are
    those of the mounts and no others, so no output volume is allocated
    for that path; when exactly one input has that cleaned destination
    and it is not [/scratch], the plan has exactly one mount at that
    path and it is the mount made for the input. *)
Theorem shared_path_is_served_by_the_input {World : Type} (lib : GoLib)
    (p : containerProvider World) (c : CreatingContainer.t)
    (spec : ContainerSpec.t) (img : FetchedImage.t)
    (w : World) gs vms io w' l (input : InputSource.t) :
  GoLibOK lib ->
  assembleGardenSpec lib p c spec img w = (inl (gs, vms, io), w', l) ->
  input ∈ ContainerSpec.Inputs spec ->
  let path := Clean lib (InputSource.DestinationPath input) in
  exists inM outM,
    io = inM ++ outM
    /\ map MountPath inM = cleanedInputPaths lib spec
    /\ (forall m, m ∈ outM -> MountPath m <> path)
    /\ allocations l = vms ++ inM ++ outM
    /\ (length (filter (fun x => x = path) (cleanedInputPaths lib spec)) = 1%nat ->
        path <> "/scratch" ->
        exists m, filter (fun m => MountPath m = path) (mountPlan lib vms io) = [m]
                  /\ m ∈ inM).
Proof.
  intros Hok Hrun Hinput path.
  assert (path ∈ cleanedInputPaths lib spec) as Hpath.
  { apply list_elem_of_In, in_map_iff. exists input.
    split; [done|by apply list_elem_of_In]. }
  pose proof Hrun as Hplan. apply assembleGardenSpec_plan in Hplan
    as (sv & wd & inM & outM & extra & -> & Hwd & -> & Hin & Hout & Ha & _).
  assert (forall m, m ∈ outM -> MountPath m <> path) as HoutP.
  { intros m Hm Heq.
    assert (MountPath m ∈ map MountPath outM) as Hp.
    { apply list_elem_of_In, in_map, list_elem_of_In, Hm. }
    rewrite Hout, Heq in Hp. by apply list_elem_of_filter in Hp as [Hp _]. }
  exists inM, outM. split; [done|]. split; [done|]. split; [done|].
  split; [done|]. intros Hone Hscratch.
  assert (filter (fun m => MountPath m = path) outM = []) as HfOut.
  { apply filter_none. intros m Hm. by apply HoutP. }
  assert (filter (fun m => MountPath m = path) wd = []) as HfWd.
  { destruct (needsWorkdirVolume lib spec) eqn:Hneed; [|by subst].
    destruct Hwd as [wv ->]. rewrite filter_cons_False; [done|]. simpl.
    intros Heq. destruct (workdir_not_an_io_path lib spec Hok Hneed) as [H1 _].
    by rewrite Heq in H1. }
  assert (exists m, filter (fun m => MountPath m = path) inM = [m])
    as [m Hm].
  { pose proof (filter_path_length MountPath path inM) as Hlen.
    rewrite Hin, Hone in Hlen.
    destruct (filter (fun m => MountPath m = path) inM) as [|m [|m' ms]];
      try done. by exists m. }
  exists m. split.
  - unfold mountPlan. rewrite filter_app, filter_cons_False by (simpl; congruence).
    rewrite HfWd. simpl.
    apply Permutation_singleton_r.
    rewrite (sort_permutation lib Hok), filter_app, Hm, HfOut. done.
  - assert (m ∈ filter (fun m => MountPath m = path) inM) as Hmem
      by (rewrite Hm; left).
    by apply list_elem_of_filter in Hmem as [_ Hmem].
Qed.




(** ** The plan on concrete specs *)



(** C8, counterexample: the inputs [repo] and [cache] and the output
    [out] all have the cleaned destination [/data]; the plan has two
    mounts there. *)
Lemma shared_destination_mounted_twice :
  exists gs vms io w' l,
    assembleGardenSpec goLib (scripted freshScenario) creating1 twoInputsSpec
                       fetched1 0%nat
    = (inl (gs, vms, io), w', l)
    /\ cleanedInputPaths goLib twoInputsSpec = ["/data"; "/data"]
    /\ cleanedOutputPaths goLib twoInputsSpec = ["/data"]
    /\ filter (fun m => MountPath m = "/data") (mountPlan goLib vms io)
       = [mkVolumeMount (nthVolume 2 "/data") "/data";
          mkVolumeMount (nthVolume 3 "/data") "/data"].
Proof.
  do 5 eexists. split; [vm_compute; reflexivity|].
  split; [vm_compute; reflexivity|]. split; vm_compute; reflexivity.
Qed.

(** C8, witness: the specification's scenario, one input and one
    output at [/data]. *)
Lemma shared_path_is_served_by_the_input_witness :
  exists gs vms io w' l,
    assembleGardenSpec goLib (scripted freshScenario) creating1 dataSpec
                       fetched1 0%nat
    = (inl (gs, vms, io), w', l)
    /\ exists inM outM m,
         io = inM ++ outM
         /\ (forall m', m' ∈ outM -> MountPath m' <> "/data")
         /\ allocations l = vms ++ inM ++ outM
         /\ filter (fun m => MountPath m = "/data") (mountPlan goLib vms io) = [m]
         /\ m ∈ inM.
Proof.
  do 5 eexists. split; [vm_compute; reflexivity|].
  edestruct (shared_path_is_served_by_the_input goLib (scripted freshScenario)
               creating1 dataSpec fetched1 0%nat)
    as (inM & outM & Hio & Hin & Hout & Ha & Hone);
    [apply goLib_ok|vm_compute; reflexivity|left|].
  destruct Hone as (m & Hm & Hmem);
    [vm_compute; reflexivity|vm_compute; discriminate|].
  exists inM, outM, m. repeat split; try done.
Defined.



(** ** The transcript of [FindOrCreateContainer], stage by stage *)

Section Transcript.
Context {World : Type} (lib : GoLib) (p : containerProvider World).
Context (containerSpec : ContainerSpec.t) (image : Image).

Lemma constructGardenWorkerContainer_events created g w res w' l :
  constructGardenWorkerContainer p created g w = (res, w', l) ->
  Forall (fun e => isWrapEvent e = true) l.
Proof.
  unfold constructGardenWorkerContainer. msteps; intros [= <- <- <-];
    repeat constructor.
Qed.

Lemma markCreated_shape c g w res w' l :
  markCreated p c g w = (res, w', l) ->
  exists r rest,
    l = EvCreated c r :: rest
    /\ ((exists err d,
           r = inr err /\ res = (None, Some err)
           /\ rest = [EvGardenDestroy (CreatingContainer.Handle c) d])
        \/ (exists created w1,
              r = inl created
              /\ constructGardenWorkerContainer p created g w1 = (res, w', rest))).
Proof.
  unfold markCreated. rewrite run_bind, run_call.
  destruct (Created p c w) as [[created|err] w1]; cbn beta iota.
  - destruct (constructGardenWorkerContainer p created g w1)
      as [[res1 w2] l1] eqn:E.
    intros [= <- <- <-]. do 2 eexists. split; [reflexivity|]. right. eauto.
  - msteps. intros [= <- <- <-]. do 2 eexists. split; [reflexivity|]. left. eauto.
Qed.

Lemma markCreated_events c g w res w' l :
  markCreated p c g w = (res, w', l) ->
  Forall (fun e => isCommitEvent e = true) l.
Proof.
  intros H. apply markCreated_shape in H as (r & rest & -> & Hcase).
  constructor; [done|].
  destruct Hcase as [(err & d & _ & _ & ->)|(created & w1 & _ & Hc)].
  - by repeat constructor.
  - apply constructGardenWorkerContainer_events in Hc.
    eapply Forall_impl; [exact Hc|]. intros e He. by destruct e.
Qed.

Lemma createHoldingLock_shape c w res w' l :
  createHoldingLock lib p c containerSpec image w = (res, w', l) ->
  exists pre,
    Forall (fun e => isCreateEvent e = true) pre
    /\ ((l = pre /\ exists err, res = (None, Some err))
        \/ (exists g w1 lm,
              l = pre ++ lm
              /\ markCreated p c (Some g) w1 = (res, w', lm))).
Proof.
  unfold createHoldingLock. rewrite run_bind, run_call.
  destruct (FetchForContainer p image c w) as [[fetched|err] w1]; cbn beta iota.
  - rewrite run_bind.
    destruct (createGardenContainer lib p c containerSpec fetched w1)
      as [[[g|err] w2] lg] eqn:Eg; cbn beta iota;
      apply createGardenContainer_events in Eg.
    + rewrite run_bind, run_emit.
      destruct (markCreated p c (Some g) w2) as [[res1 w3] lm] eqn:Em.
      intros [= <- <- <-].
      exists (EvFetchForContainer image c (inl fetched) :: lg
                ++ [EvContainersCreatedInc]).
      split.
      * constructor; [done|]. apply Forall_app. split; [|by repeat constructor].
        eapply Forall_impl; [exact Eg|]. intros e He. by destruct e.
      * right. exists g, w2, lm. split; [|done].
        simpl. by rewrite <- !app_assoc.
    + msteps. intros [= <- <- <-]. eexists. split; [|left; split; [reflexivity|eauto]].
      constructor; [done|]. apply Forall_app. split; [|by repeat constructor].
      eapply Forall_impl; [exact Eg|]. intros e He. by destruct e.
  - msteps. intros [= <- <- <-]. eexists. split; [|left; split; [reflexivity|eauto]].
    by repeat constructor.
Qed.

Lemma createUnderLock_shape c w res w' l :
  createUnderLock lib p c containerSpec image w = (res, w', l) ->
  exists r rest,
    l = EvLockAcquire (NewContainerCreatingLockID (CreatingContainer.ID c)) r :: rest
    /\ ((exists err, r = inr err /\ rest = [] /\ res = (None, Some err))
        \/ (r = inl None /\ rest = [EvSleep creatingContainerRetryDelay]
            /\ res = (None, None))
        \/ (exists lock w1 w2 lh,
              r = inl (Some lock)
              /\ createHoldingLock lib p c containerSpec image w1 = (res, w2, lh)
              /\ rest = lh ++ [EvLockRelease lock])).
Proof.
  unfold createUnderLock. rewrite run_bind, run_call.
  destruct (Acquire p _ w) as [[[lock|]|err] w1]; cbn beta iota.
  - rewrite run_bind.
    destruct (createHoldingLock lib p c containerSpec image w1)
      as [[res1 w2] lh] eqn:Eh.
    msteps. intros [= <- <- <-]. do 2 eexists. split; [reflexivity|].
    right; right. by exists lock, w1, w2, lh.
  - msteps. intros [= <- <- <-]. do 2 eexists. split; [reflexivity|].
    right; left. done.
  - msteps. intros [= <- <- <-]. do 2 eexists. split; [reflexivity|].
    left. eauto.
Qed.

Lemma findOrCreateFromCreating_shape c w res w' l :
  findOrCreateFromCreating lib p c containerSpec image w = (res, w', l) ->
  exists g err rest,
    l = EvGardenLookup (CreatingContainer.Handle c) (g, err) :: rest
    /\ ((fatalLookupError err = true /\ rest = [] /\ res = (None, err))
        \/ (fatalLookupError err = false /\ g = None
            /\ exists w1, createUnderLock lib p c containerSpec image w1
                          = (res, w', rest))
        \/ (fatalLookupError err = false /\ g <> None
            /\ exists w1, markCreated p c g w1 = (res, w', rest))).
Proof.
  unfold findOrCreateFromCreating. rewrite run_bind, run_call.
  destruct (Lookup p _ w) as [[g err] w1]; cbn beta iota.
  fold (fatalLookupError err).
  destruct (fatalLookupError err) eqn:Ef.
  - msteps. intros [= <- <- <-]. do 3 eexists. split; [reflexivity|]. by left.
  - destruct g as [g|].
    + destruct (markCreated p c (Some g) w1) as [[res1 w2] lm] eqn:Em.
      intros [= <- <- <-]. do 3 eexists. split; [reflexivity|].
      right; right. split; [done|]. split; [done|]. by exists w1.
    + destruct (createUnderLock lib p c containerSpec image w1)
        as [[res1 w2] lu] eqn:Eu.
      intros [= <- <- <-]. do 3 eexists. split; [reflexivity|].
      right; left. split; [done|]. split; [done|]. by exists w1.
Qed.

Lemma FindOrCreateContainer_shape owner metadata w res w' l :
  FindOrCreateContainer lib p owner metadata containerSpec image w = (res, w', l) ->
  exists r rest,
    l = EvFindContainerOnWorker owner r :: rest
    /\ ((exists err, r = inr err /\ rest = [] /\ res = (None, Some err))
        \/ (exists creating created g err rest',
              r = inl (creating, Some created)
              /\ rest = EvGardenLookup (CreatedContainer.Handle created) (g, err)
                        :: rest'
              /\ ((exists e, err = Some e /\ rest' = [] /\ res = (None, Some e))
                  \/ (err = None
                      /\ exists w1, constructGardenWorkerContainer p created g w1
                                    = (res, w', rest'))))
        \/ (exists err,
              r = inl (None, None)
              /\ rest = [EvCreateContainer owner metadata (inr err)]
              /\ res = (None, Some err))
        \/ (exists c w1 rest',
              r = inl (None, None)
              /\ rest = EvCreateContainer owner metadata (inl c) :: rest'
              /\ findOrCreateFromCreating lib p c containerSpec image w1
                 = (res, w', rest'))
        \/ (exists c w1,
              r = inl (Some c, None)
              /\ findOrCreateFromCreating lib p c containerSpec image w1
                 = (res, w', rest))).
Proof.
  unfold FindOrCreateContainer. rewrite run_bind, run_call.
  destruct (FindContainerOnWorker p owner w)
    as [[[creating [created|]]|err] w1]; cbn beta iota.
  - assert (forall A (x : A), match creating with Some _ | _ => x end = x)
      as Hm by (by destruct creating).
    rewrite Hm. clear Hm. rewrite run_bind, run_call.
    destruct (Lookup p _ w1) as [[g [e|]] w2]; cbn beta iota.
    + msteps. intros [= <- <- <-]. do 2 eexists. split; [reflexivity|].
      right; left. do 5 eexists. split; [reflexivity|]. split; [reflexivity|].
      left. eauto.
    + destruct (constructGardenWorkerContainer p created g w2)
        as [[res1 w3] lc] eqn:Ec.
      intros [= <- <- <-]. do 2 eexists. split; [reflexivity|].
      right; left. do 5 eexists. split; [reflexivity|]. split; [reflexivity|].
      right. eauto.
  - destruct creating as [c|].
    + destruct (findOrCreateFromCreating lib p c containerSpec image w1)
        as [[res1 w2] lf] eqn:Ef.
      intros [= <- <- <-]. do 2 eexists. split; [reflexivity|].
      do 4 right. eauto.
    + rewrite run_bind, run_call.
      destruct (CreateContainer p owner metadata w1) as [[c|err] w2];
        cbn beta iota.
      * destruct (findOrCreateFromCreating lib p c containerSpec image w2)
          as [[res1 w3] lf] eqn:Ef.
        intros [= <- <- <-]. do 2 eexists. split; [reflexivity|].
        do 3 right; left. do 3 eexists. eauto.
      * msteps. intros [= <- <- <-]. do 2 eexists. split; [reflexivity|].
        do 2 right; left. eauto.
  - msteps. intros [= <- <- <-]. do 2 eexists. split; [reflexivity|].
    left. eauto.
Qed.

End Transcript.

Lemma not_in_classified (P : Event -> bool) (l : list Event) (e : Event) :
  Forall (fun x => P x = true) l -> P e = false -> e ∉ l.
Proof.
  intros Hl He Hin. rewrite Forall_forall in Hl. specialize (Hl e Hin). congruence.
Qed.

Section TranscriptEvents.
Context {World : Type} (lib : GoLib) (p : containerProvider World).
Context (containerSpec : ContainerSpec.t) (image : Image).

Lemma createHoldingLock_events c w res w' l :
  createHoldingLock lib p c containerSpec image w = (res, w', l) ->
  Forall (fun e => isCreateEvent e || isCommitEvent e = true) l.
Proof.
  intros H. apply createHoldingLock_shape in H as (pre & Hpre & Hcase).
  assert (Forall (fun e => isCreateEvent e || isCommitEvent e = true) pre) as Hp.
  { eapply Forall_impl; [exact Hpre|]. intros e He. simpl in He. by rewrite He. }
  destruct Hcase as [[-> _]|(g & w1 & lm & -> & Hm)]; [done|].
  apply Forall_app. split; [done|]. apply markCreated_events in Hm.
  eapply Forall_impl; [exact Hm|]. intros e He. simpl in He.
  rewrite He. apply orb_true_r.
Qed.

Lemma createHoldingLock_head c w res w' l :
  createHoldingLock lib p c containerSpec image w = (res, w', l) ->
  exists f rest, l = EvFetchForContainer image c f :: rest.
Proof.
  unfold createHoldingLock. rewrite run_bind, run_call.
  destruct (FetchForContainer p image c w) as [f w1].
  match goal with
  | |- context [let '(_, _) := ?x in _] => destruct x as [[res1 w2] l1]
  end.
  intros [= <- <- <-]. by do 2 eexists.
Qed.

(** The deferred-retry answer, from the lookup of the creating
    container on. *)
Lemma refused_lock_from_creating c w res w' l id :
  findOrCreateFromCreating lib p c containerSpec image w = (res, w', l) ->
  EvLockAcquire id (inl None) ∈ l ->
  res = (None, None)
  /\ exists pre,
       l = pre ++ [EvLockAcquire id (inl None); EvSleep creatingContainerRetryDelay].
Proof.
  intros Hrun Hin.
  apply findOrCreateFromCreating_shape in Hrun as (g & err & rest & -> & Hcase).
  apply elem_of_cons in Hin as [Hin|Hin]; [discriminate|].
  destruct Hcase as [(_ & -> & _)|[(_ & _ & w1 & Hu)|(_ & _ & w1 & Hm)]].
  - inversion Hin.
  - apply createUnderLock_shape in Hu as (r & rest' & -> & Hcase).
    apply elem_of_cons in Hin as [Hin|Hin].
    + injection Hin as -> <-.
      destruct Hcase as [(e & He & _)|[(_ & -> & ->)|(lock & ? & ? & ? & He & _)]];
        try discriminate.
      split; [done|]. by exists [EvGardenLookup (CreatingContainer.Handle c) (g, err)].
    + destruct Hcase as [(e & _ & -> & _)|[(_ & -> & _)|(lock & w2 & w3 & lh & _ & Hh & ->)]].
      * inversion Hin.
      * apply list_elem_of_singleton in Hin. discriminate.
      * apply elem_of_app in Hin as [Hin|Hin].
        -- apply createHoldingLock_events in Hh.
           by apply (not_in_classified _ _ _ Hh) in Hin.
        -- apply list_elem_of_singleton in Hin. discriminate.
  - apply markCreated_events in Hm.
    by apply (not_in_classified _ _ _ Hm) in Hin.
Qed.

End TranscriptEvents.

(** C5: when the acquisition of the container-creating lock is refused,
    [FindOrCreateContainer] sleeps for the retry delay of one second
    and returns neither a container nor an error; nothing else is done
    after the refusal. *)
Theorem refused_lock_is_deferred_retry {World : Type} (lib : GoLib)
    (p : containerProvider World) (owner : ContainerOwner)
    (metadata : ContainerMetadata) (containerSpec : ContainerSpec.t)
    (image : Image) (w : World) res w' log id :
  FindOrCreateContainer lib p owner metadata containerSpec image w
  = (res, w', log) ->
  EvLockAcquire id (inl None) ∈ log ->
  res = (None, None)
  /\ (exists pre,
        log = pre ++ [EvLockAcquire id (inl None);
                      EvSleep creatingContainerRetryDelay])
  /\ creatingContainerRetryDelay = 1000000000.
Proof.
  intros Hrun Hin. split; [|split; [|reflexivity]].
  all: apply FindOrCreateContainer_shape in Hrun as (r & rest & -> & Hcase);
    apply elem_of_cons in Hin as [Hin|Hin]; [discriminate|];
    destruct Hcase as
      [(e & _ & -> & _)
      |[(cr & cd & g & err & rest' & _ & -> & Hfast)
       |[(e & _ & -> & _)
        |[(c & w1 & rest' & _ & -> & Hf)
         |(c & w1 & _ & Hf)]]]].
  all: try (inversion Hin; fail).
  all: try (apply list_elem_of_singleton in Hin; discriminate).
  all: try (apply elem_of_cons in Hin as [Hin|Hin]; [discriminate|]).
  all: try (destruct Hfast as [(e & _ & -> & _)|(_ & w1 & Hc)];
            [inversion Hin
            |apply constructGardenWorkerContainer_events in Hc;
             by apply (not_in_classified _ _ _ Hc) in Hin]).
  all: destruct (refused_lock_from_creating lib p containerSpec image
                   c w1 res w' _ id Hf Hin) as [Hres [pre ->]].
  all: try done.
  - by exists (EvFindContainerOnWorker owner r
               :: EvCreateContainer owner metadata (inl c) :: pre).
  - by exists (EvFindContainerOnWorker owner r :: pre).
Qed.

(** C4: when the store answers with a [CreatedContainer], its handle is
    looked up in garden; an error of the lookup, whatever it is
    (garden's not-found included), ends the run and is returned; after
    a lookup without error the run is that of
    [constructGardenWorkerContainer], whose result is returned; the
    transcript has no lock acquisition. *)
Theorem created_record_is_looked_up_and_wrapped {World : Type} (lib : GoLib)
    (p : containerProvider World) (owner : ContainerOwner)
    (metadata : ContainerMetadata) (containerSpec : ContainerSpec.t)
    (image : Image) (w : World) res w' log creating created :
  FindOrCreateContainer lib p owner metadata containerSpec image w
  = (res, w', log) ->
  head log = Some (EvFindContainerOnWorker owner (inl (creating, Some created))) ->
  exists g err rest,
    log = [EvFindContainerOnWorker owner (inl (creating, Some created));
           EvGardenLookup (CreatedContainer.Handle created) (g, err)] ++ rest
    /\ (forall e, err = Some e -> res = (None, Some e) /\ rest = [])
    /\ (err = None ->
        exists w1, constructGardenWorkerContainer p created g w1 = (res, w', rest))
    /\ Forall (fun e => isWrapEvent e = true) rest
    /\ (forall e, e ∈ log -> isLockAcquire e = false).
Proof.
  intros Hrun Hhead.
  apply FindOrCreateContainer_shape in Hrun as (r & rest & -> & Hcase).
  injection Hhead as ->.
  destruct Hcase as
    [(e & ? & _)
    |[(cr & cd & g & err & rest' & [= <- <-] & -> & Hfast)
     |[(e & ? & _)|[(c & w1 & rest' & ? & _)|(c & w1 & ? & _)]]]];
    try discriminate.
  exists g, err, rest'. split; [done|].
  assert (Forall (fun e => isWrapEvent e = true) rest') as Hwrap.
  { destruct Hfast as [(e & _ & -> & _)|(_ & w1 & Hc)]; [constructor|].
    by apply constructGardenWorkerContainer_events in Hc. }
  split; [|split; [|split; [done|]]].
  - intros e ->. destruct Hfast as [(e' & [= <-] & -> & ->)|(? & _)]; done.
  - intros ->. destruct Hfast as [(e' & ? & _)|(_ & w1 & Hc)]; [done|].
    by exists w1.
  - intros e He. apply elem_of_cons in He as [->|He]; [done|].
    apply elem_of_cons in He as [->|He]; [done|].
    rewrite Forall_forall in Hwrap. specialize (Hwrap e He). by destruct e.
Qed.

Section CreatingPath.
Context {World : Type} (lib : GoLib) (p : containerProvider World).
Context (containerSpec : ContainerSpec.t) (image : Image).

(** The lookup of the creating container, from that lookup on. *)
Lemma lookup_error_from_creating c w res w' l h g e :
  findOrCreateFromCreating lib p c containerSpec image w = (res, w', l) ->
  EvGardenLookup h (g, Some e) ∈ l ->
  h = CreatingContainer.Handle c
  /\ exists rest,
       l = EvGardenLookup h (g, Some e) :: rest
       /\ (isContainerNotFoundError e = false -> res = (None, Some e) /\ rest = [])
       /\ (isContainerNotFoundError e = true -> g = None ->
           exists r rest',
             rest = EvLockAcquire
                      (NewContainerCreatingLockID (CreatingContainer.ID c)) r
                    :: rest'
             /\ forall lock, r = inl (Some lock) ->
                  exists f rest'', rest' = EvFetchForContainer image c f :: rest'').
Proof.
  intros Hrun Hin.
  apply findOrCreateFromCreating_shape in Hrun as (g' & err & rest & -> & Hcase).
  apply elem_of_cons in Hin as [Hin|Hin].
  - injection Hin as -> -> <-. split; [done|]. exists rest. split; [done|].
    simpl in Hcase. split.
    + intros Hnf. rewrite Hnf in Hcase. simpl in Hcase.
      destruct Hcase as [(_ & -> & ->)|[(? & _)|(? & _)]]; done.
    + intros Hnf ->. rewrite Hnf in Hcase. simpl in Hcase.
      destruct Hcase as [(? & _)|[(_ & _ & w1 & Hu)|(_ & ? & _)]]; try done.
      apply createUnderLock_shape in Hu as (r & rest' & -> & Hcase).
      exists r, rest'. split; [done|]. intros lock ->.
      destruct Hcase as [(? & ? & _)|[(? & _)|(lock' & w2 & w3 & lh & _ & Hh & ->)]];
        try discriminate.
      apply createHoldingLock_head in Hh as (f & rest'' & ->).
      by exists f, (rest'' ++ [EvLockRelease lock']).
  - exfalso.
    destruct Hcase as [(_ & -> & _)|[(_ & _ & w1 & Hu)|(_ & _ & w1 & Hm)]].
    + inversion Hin.
    + apply createUnderLock_shape in Hu as (r & rest' & -> & Hcase).
      apply elem_of_cons in Hin as [Hin|Hin]; [discriminate|].
      destruct Hcase as [(? & _ & -> & _)|[(_ & -> & _)|(lock & w2 & w3 & lh & _ & Hh & ->)]].
      * inversion Hin.
      * apply list_elem_of_singleton in Hin. discriminate.
      * apply elem_of_app in Hin as [Hin|Hin].
        -- apply createHoldingLock_events in Hh.
           by apply (not_in_classified _ _ _ Hh) in Hin.
        -- apply list_elem_of_singleton in Hin. discriminate.
    + apply markCreated_events in Hm.
      by apply (not_in_classified _ _ _ Hm) in Hin.
Qed.


End CreatingPath.

(** C6: when the store has no [CreatedContainer], the handle of the
    creating container is looked up in garden; a lookup error other
    than not-found ends the run and is returned; after a not-found
    answer the run goes on with the acquisition of the creating lock
    and, once the lock is held, with the fetch of the image. *)
Theorem creating_lookup_not_found_is_not_fatal {World : Type} (lib : GoLib)
    (p : containerProvider World) (owner : ContainerOwner)
    (metadata : ContainerMetadata) (containerSpec : ContainerSpec.t)
    (image : Image) (w : World) res w' log creating h g e :
  FindOrCreateContainer lib p owner metadata containerSpec image w
  = (res, w', log) ->
  head log = Some (EvFindContainerOnWorker owner (inl (creating, None))) ->
  EvGardenLookup h (g, Some e) ∈ log ->
  exists c pre rest,
    h = CreatingContainer.Handle c
    /\ (creating = Some c
        \/ (creating = None /\ EvCreateContainer owner metadata (inl c) ∈ log))
    /\ log = pre ++ EvGardenLookup h (g, Some e) :: rest
    /\ (isContainerNotFoundError e = false -> res = (None, Some e) /\ rest = [])
    /\ (isContainerNotFoundError e = true -> g = None ->
        exists r rest',
          rest = EvLockAcquire
                   (NewContainerCreatingLockID (CreatingContainer.ID c)) r
                 :: rest'
          /\ forall lock, r = inl (Some lock) ->
               exists f rest'', rest' = EvFetchForContainer image c f :: rest'').
Proof.
  intros Hrun Hhead Hin.
  apply FindOrCreateContainer_shape in Hrun as (r & rest & -> & Hcase).
  injection Hhead as ->.
  apply elem_of_cons in Hin as [Hin|Hin]; [discriminate|].
  destruct Hcase as
    [(e' & ? & _)
    |[(cr & cd & g' & err & rest' & ? & _)
     |[(e' & _ & -> & _)
      |[(c & w1 & rest' & [= ->] & -> & Hf)|(c & w1 & [= ->] & Hf)]]]];
    try discriminate.
  - apply list_elem_of_singleton in Hin. discriminate.
  - apply elem_of_cons in Hin as [Hin|Hin]; [discriminate|].
    destruct (lookup_error_from_creating lib p containerSpec image
                c w1 res w' rest' h g e Hf Hin) as (-> & rest & -> & H1 & H2).
    exists c, [EvFindContainerOnWorker owner (inl (None, None));
               EvCreateContainer owner metadata (inl c)], rest.
    split; [done|]. split; [|done].
    right. split; [done|]. right. left.
  - destruct (lookup_error_from_creating lib p containerSpec image
                c w1 res w' rest h g e Hf Hin) as (-> & rest' & -> & H1 & H2).
    exists c, [EvFindContainerOnWorker owner (inl (Some c, None))], rest'.
    split; [done|]. split; [by left|done].
Qed.


(** ** The provisioner on concrete scenarios *)

(** C4, witness: the store has the created container and garden has it. *)
Lemma created_record_is_looked_up_and_wrapped_witness :
  exists res w' log,
    FindOrCreateContainer goLib (scripted createdScenario) owner1 metadata1
                          dataSpec image1 0%nat
    = (res, w', log)
    /\ res = (Some (Container.mk (Some garden1) created1 [] "w1"), None)
    /\ log = [EvFindContainerOnWorker owner1 (inl (None, Some created1));
              EvGardenLookup "handle-1" (Some garden1, None);
              EvFindVolumesForContainer created1 (inl []);
              EvNewGardenWorkerContainer (Some garden1) created1 []
                (inl (Container.mk (Some garden1) created1 [] "w1"))]
    /\ (forall e, e ∈ log -> isLockAcquire e = false).
Proof.
  do 3 eexists. split; [vm_compute; reflexivity|].
  edestruct (created_record_is_looked_up_and_wrapped goLib
               (scripted createdScenario) owner1 metadata1 dataSpec image1 0%nat)
    as (g & err & rest & Hlog & H1 & H2 & H3 & H4);
    [vm_compute; reflexivity|vm_compute; reflexivity|].
  split; [reflexivity|]. split; [reflexivity|exact H4].
Defined.

(** The store has the created container and garden has lost it: the
    not-found error is returned. *)
Example lost_container_is_an_error :
  FindOrCreateContainer goLib (scripted lostScenario) owner1 metadata1
                        dataSpec image1 0%nat
  = ((None, Some (ContainerNotFoundError "handle-1")), 0%nat,
     [EvFindContainerOnWorker owner1 (inl (None, Some created1));
      EvGardenLookup "handle-1" (None, Some (ContainerNotFoundError "handle-1"))]).
Proof. vm_compute. reflexivity. Qed.

(** C5, witness: another caller holds the lock. *)
Lemma refused_lock_is_deferred_retry_witness :
  exists res w' log,
    FindOrCreateContainer goLib (scripted lockedScenario) owner1 metadata1
                          dataSpec image1 0%nat
    = (res, w', log)
    /\ res = (None, None)
    /\ (exists pre,
          log = pre ++ [EvLockAcquire (NewContainerCreatingLockID 1) (inl None);
                        EvSleep creatingContainerRetryDelay])
    /\ creatingContainerRetryDelay = 1000000000.
Proof.
  do 3 eexists. split; [vm_compute; reflexivity|].
  eapply (refused_lock_is_deferred_retry goLib (scripted lockedScenario)
            owner1 metadata1 dataSpec image1 0%nat).
  - vm_compute. reflexivity.
  - right. right. left.
Defined.

(** C6, witness: garden does not know the creating container, and the
    run goes on to the lock. *)
Lemma creating_lookup_not_found_is_not_fatal_witness :
  exists res w' log,
    FindOrCreateContainer goLib (scripted lockedScenario) owner1 metadata1
                          dataSpec image1 0%nat
    = (res, w', log)
    /\ exists c pre rest r rest',
         "handle-1" = CreatingContainer.Handle c
         /\ log = pre ++ EvGardenLookup "handle-1"
                           (None, Some (ContainerNotFoundError "handle-1"))
                       :: rest
         /\ rest = EvLockAcquire
                     (NewContainerCreatingLockID (CreatingContainer.ID c)) r
                   :: rest'.
Proof.
  do 3 eexists. split; [vm_compute; reflexivity|].
  edestruct (creating_lookup_not_found_is_not_fatal goLib
               (scripted lockedScenario) owner1 metadata1 dataSpec image1 0%nat)
    as (c & pre & rest & Hh & _ & Hlog & _ & Hnf);
    [vm_compute; reflexivity|vm_compute; reflexivity|right; left|].
  destruct (Hnf eq_refl eq_refl) as (r & rest' & Hrest & _).
  by exists c, pre, rest, r, rest'.
Defined.

(** Garden answers the lookup of the creating container with an error
    of another kind: the error is returned and nothing else is done. *)
Example garden_error_is_fatal :
  FindOrCreateContainer goLib (scripted gardenDownScenario) owner1 metadata1
                        dataSpec image1 0%nat
  = ((None, Some (ErrOther "connection refused")), 0%nat,
     [EvFindContainerOnWorker owner1 (inl (Some creating1, None));
      EvGardenLookup "handle-1" (None, Some (ErrOther "connection refused"))]).
Proof. vm_compute. reflexivity. Qed.


(** ** From the plan to garden *)

(** [createGardenContainer] either fails before anything is asked of
    garden, or ends with the call of [Create] on the assembled spec,
    whose answer it returns. *)
Lemma createGardenContainer_hands_over_the_plan {World : Type} (lib : GoLib)
    (p : containerProvider World) (c : CreatingContainer.t)
    (spec : ContainerSpec.t) (img : FetchedImage.t) (w : World) r w' l :
  createGardenContainer lib p c spec img w = (r, w', l) ->
  (exists err,
      assembleGardenSpec lib p c spec img w = (inr err, w', l) /\ r = inr err)
  \/ (exists gs vms io w1 l1,
        assembleGardenSpec lib p c spec img w = (inl (gs, vms, io), w1, l1)
        /\ l = l1 ++ [EvGardenCreate gs r]
        /\ Create p gs w1 = (r, w')).
Proof.
  unfold createGardenContainer. rewrite run_bind.
  destruct (assembleGardenSpec lib p c spec img w)
    as [[[[[gs vms] io]|err] w1] l1]; cbn beta iota.
  - rewrite run_call. destruct (Create p gs w1) as [a w2] eqn:Ec.
    intros [= <- <- <-]. right. by exists gs, vms, io, w1, l1.
  - rewrite run_ret. intros [= <- <- <-]. left. exists err.
    by rewrite app_nil_r.
Qed.

(** * Further properties *)

(** ** The matcher *)

(** X1: [Satisfying] answers with the worker and no error, or with no
    worker and one of the four selection errors; it answers with the
    worker exactly when the four rules hold. *)
Theorem Satisfying_worker_or_one_selection_error
    (worker : gardenWorker) (spec : WorkerSpec.t) :
  exists r,
    Satisfying worker spec = Some r
    /\ (r = (Some worker, None)
        \/ r = (None, Some ErrTeamMismatch)
        \/ r = (None, Some ErrUnsupportedResourceType)
        \/ r = (None, Some ErrIncompatiblePlatform)
        \/ r = (None, Some ErrMismatchedTags))
    /\ (r = (Some worker, None) <->
        teamRule worker spec /\ resourceTypeRule worker spec
        /\ platformRule worker spec
        /\ tagsMatch worker (WorkerSpec.Tags spec) = true).
Proof.
  destruct (Satisfying_spec worker spec) as (r & Hr & Hcases).
  exists r. split; [done|].
  destruct Hcases as [(?&->)|[(?&?&->)|[(?&?&?&->)|[(?&?&?&Ht&->)|(?&?&?&?&->)]]]].
  - split; [tauto|]. split; [done|tauto].
  - split; [tauto|]. split; [done|tauto].
  - split; [tauto|]. split; [done|tauto].
  - split; [tauto|]. split; [done|]. intros (_ & _ & _ & Ht'). congruence.
  - split; [tauto|]. done.
Qed.

(** X2: the error of [Satisfying] is that of the first rule that fails,
    in the order team, resource type, platform, tags, whatever the
    later rules say. *)
Theorem Satisfying_reports_the_first_violated_rule
    (worker : gardenWorker) (spec : WorkerSpec.t) :
  (~ teamRule worker spec ->
   Satisfying worker spec = Some (None, Some ErrTeamMismatch))
  /\ (teamRule worker spec -> ~ resourceTypeRule worker spec ->
      Satisfying worker spec = Some (None, Some ErrUnsupportedResourceType))
  /\ (teamRule worker spec -> resourceTypeRule worker spec ->
      ~ platformRule worker spec ->
      Satisfying worker spec = Some (None, Some ErrIncompatiblePlatform))
  /\ (teamRule worker spec -> resourceTypeRule worker spec ->
      platformRule worker spec ->
      tagsMatch worker (WorkerSpec.Tags spec) = false ->
      Satisfying worker spec = Some (None, Some ErrMismatchedTags)).
Proof.
  destruct (Satisfying_spec worker spec) as (r & -> & Hcases).
  destruct Hcases as [(?&->)|[(?&?&->)|[(?&?&?&->)|[(?&?&?&Ht&->)|(?&?&?&Ht&->)]]]];
    repeat split; intros; try done; congruence.
Qed.

(** X3: a worker of team 0 is never refused for its team, a spec
    without resource type is never refused for it, a spec without
    platform is never refused for it; a spec without any requirement is
    satisfied by every untagged worker of team 0. *)
Theorem empty_requirements_are_not_checked
    (worker : gardenWorker) (spec : WorkerSpec.t) :
  (dbWorker.TeamID (dbWorker_ worker) = 0 ->
   Satisfying worker spec <> Some (None, Some ErrTeamMismatch))
  /\ (WorkerSpec.ResourceType spec = "" ->
      Satisfying worker spec <> Some (None, Some ErrUnsupportedResourceType))
  /\ (WorkerSpec.Platform spec = "" ->
      Satisfying worker spec <> Some (None, Some ErrIncompatiblePlatform))
  /\ (dbWorker.TeamID (dbWorker_ worker) = 0 ->
      dbWorker.Tags (dbWorker_ worker) = [] ->
      WorkerSpec.ResourceType spec = "" ->
      WorkerSpec.Platform spec = "" ->
      WorkerSpec.Tags spec = [] ->
      Satisfying worker spec = Some (Some worker, None)).
Proof.
  destruct (Satisfying_spec worker spec) as (r & -> & Hcases).
  assert (dbWorker.TeamID (dbWorker_ worker) = 0 -> teamRule worker spec)
    as Hteam by (by right).
  assert (WorkerSpec.ResourceType spec = "" -> resourceTypeRule worker spec)
    as Hrt by (by intros ? ?).
  assert (WorkerSpec.Platform spec = "" -> platformRule worker spec)
    as Hpf by (by left).
  assert (dbWorker.Tags (dbWorker_ worker) = [] -> WorkerSpec.Tags spec = [] ->
          tagsMatch worker (WorkerSpec.Tags spec) = true) as Htags.
  { intros Hw Hs. apply tagsMatch_spec. rewrite Hw, Hs. split; [|done].
    intros ? H. inversion H. }
  destruct Hcases as [(?&->)|[(?&?&->)|[(?&?&?&->)|[(?&?&?&Ht&->)|(?&?&?&Ht&->)]]]];
    repeat split; intros; try done; try tauto.
  rewrite Htags in Ht by done. done.
Qed.

(** X4: [tagsMatch] depends on the tags as sets only: neither the order
    nor the repetition of a tag, on the worker or in the spec, changes
    its answer. *)
Theorem tagsMatch_depends_on_the_sets_of_tags
    (worker1 worker2 : gardenWorker) (tags1 tags2 : list string) :
  (forall x, x ∈ dbWorker.Tags (dbWorker_ worker1)
             <-> x ∈ dbWorker.Tags (dbWorker_ worker2)) ->
  (forall x, x ∈ tags1 <-> x ∈ tags2) ->
  tagsMatch worker1 tags1 = tagsMatch worker2 tags2.
Proof.
  intros Hw Ht.
  assert (forall (l1 l2 : list string),
            (forall x, x ∈ l1 <-> x ∈ l2) -> l1 <> [] -> l2 <> []) as Hne.
  { intros [|a l1] l2 H Hl1 ->; [done|].
    assert (a ∈ []) as Ha by (apply H; left). inversion Ha. }
  assert (tagsMatch worker1 tags1 = true <-> tagsMatch worker2 tags2 = true)
    as Hiff.
  { rewrite !tagsMatch_spec. split; intros [Hsub Hguard]; split.
    - intros x Hx. apply Hw, Hsub, Ht, Hx.
    - intros Hn. apply (Hne tags1 tags2 Ht), Hguard.
      apply (Hne _ _ (fun x => iff_sym (Hw x))), Hn.
    - intros x Hx. apply Hw, Hsub, Ht, Hx.
    - intros Hn. apply (Hne tags2 tags1 (fun x => iff_sym (Ht x))), Hguard.
      apply (Hne _ _ Hw), Hn. }
  destruct (tagsMatch worker1 tags1), (tagsMatch worker2 tags2); try done.
  - symmetry. by apply Hiff.
  - by apply Hiff.
Qed.

(** X4, witness: the tags in another order and with repetitions. *)
Lemma tagsMatch_depends_on_the_sets_of_tags_witness :
  tagsMatch (mkGardenWorker (dbWorker.mk "a" 0 [] "linux" ["gpu"; "fast"] None) 0)
            ["fast"; "fast"]
  = tagsMatch (mkGardenWorker
                 (dbWorker.mk "b" 0 [] "linux" ["fast"; "gpu"; "gpu"] None) 0)
              ["fast"].
Proof.
  apply tagsMatch_depends_on_the_sets_of_tags; simpl; intros x;
    rewrite !elem_of_cons; pose proof (not_elem_of_nil x); tauto.
Defined.

(** ** The catalog of resource types *)

Lemma buildResourceTypesMap_snoc (l : list VersionedResourceType.t)
    (e : VersionedResourceType.t) :
  buildResourceTypesMap (l ++ [e])
  = <[VersionedResourceType.Name e := e]> (buildResourceTypesMap l).
Proof. unfold buildResourceTypesMap. by rewrite foldl_app. Qed.

Lemma buildResourceTypesMap_lookup
    (catalog : list VersionedResourceType.t) (name : string) :
  buildResourceTypesMap catalog !! name
  = last (filter (fun rt => VersionedResourceType.Name rt = name) catalog).
Proof.
  induction catalog as [|e l IH] using rev_ind; [done|].
  rewrite buildResourceTypesMap_snoc, filter_app, lookup_insert.
  rewrite filter_cons, filter_nil. case_decide as Hn.
  - by rewrite last_snoc.
  - by rewrite app_nil_r.
Qed.

Lemma catalog_lookup_None (catalog : list VersionedResourceType.t) (name : string) :
  buildResourceTypesMap catalog !! name = None <->
  forall rt, rt ∈ catalog -> VersionedResourceType.Name rt <> name.
Proof.
  rewrite buildResourceTypesMap_lookup, last_None. split.
  - intros Hf rt Hin Hn.
    assert (rt ∈ filter (fun rt => VersionedResourceType.Name rt = name) catalog)
      as H by (by apply list_elem_of_filter).
    rewrite Hf in H. inversion H.
  - intros H. apply filter_none. intros x Hx. by apply H.
Qed.

Lemma catalog_lookup_Some (catalog : list VersionedResourceType.t)
    (name : string) (e : VersionedResourceType.t) :
  buildResourceTypesMap catalog !! name = Some e ->
  e ∈ catalog /\ VersionedResourceType.Name e = name.
Proof.
  rewrite buildResourceTypesMap_lookup. intros H.
  apply last_Some in H as [l' Hl].
  assert (e ∈ filter (fun rt => VersionedResourceType.Name rt = name) catalog)
    as Hin by (rewrite Hl, elem_of_app; right; left).
  apply list_elem_of_filter in Hin as [Hn Hin]. done.
Qed.

(** X5: when several entries of the catalog carry the same name, the
    map built by [determineUnderlyingTypeName] keeps the last of them;
    a name has no entry in the map exactly when no entry carries it. *)
Theorem catalog_lookup_is_the_last_entry_of_that_name
    (catalog : list VersionedResourceType.t) (name : string) :
  buildResourceTypesMap catalog !! name
  = last (filter (fun rt => VersionedResourceType.Name rt = name) catalog)
  /\ (buildResourceTypesMap catalog !! name = None <->
      forall rt, rt ∈ catalog -> VersionedResourceType.Name rt <> name).
Proof.
  split; [apply buildResourceTypesMap_lookup|apply catalog_lookup_None].
Qed.

(** X6: a type name without entry in the catalog, in particular any
    name with the empty catalog, resolves to itself. *)
Theorem unknown_type_name_resolves_to_itself
    (typeName : string) (catalog : list VersionedResourceType.t) :
  (forall rt, rt ∈ catalog -> VersionedResourceType.Name rt <> typeName) ->
  determineUnderlyingTypeName typeName catalog = Some typeName.
Proof.
  intros H. apply catalog_lookup_None in H.
  unfold determineUnderlyingTypeName, resolveFuel. by rewrite H.
Qed.

(** X6, witness: a base type with a catalog about other types. *)
Lemma unknown_type_name_resolves_to_itself_witness :
  determineUnderlyingTypeName "git" cyclicCatalog = Some "git".
Proof.
  apply unknown_type_name_resolves_to_itself.
  intros rt Hin. unfold cyclicCatalog in Hin.
  repeat (apply elem_of_cons in Hin as [->|Hin]; [discriminate|]).
  inversion Hin.
Defined.

Lemma resolveLoop_origin (fuel : nat) (name : string)
    (cur : option VersionedResourceType.t)
    (m : gmap string VersionedResourceType.t) (P : string -> Prop) (u : string) :
  P name ->
  (forall e, cur = Some e -> P (VersionedResourceType.Type_ e)) ->
  (forall k e, m !! k = Some e -> P (VersionedResourceType.Type_ e)) ->
  resolveLoop fuel name cur m = Some u -> P u.
Proof.
  revert name cur m. induction fuel as [|fuel IH]; intros name cur m Hn Hc Hm.
  - destruct cur; simpl; [done|]. by intros [= <-].
  - destruct cur as [e|]; simpl; [|by intros [= <-]].
    apply IH.
    + by apply Hc.
    + intros e' He'. by apply (Hm _ _ He').
    + intros k e'. rewrite lookup_delete. case_decide; [done|]. apply Hm.
Qed.

(** X7: the resolved name is the requested name or the type of an
    entry of the catalog. *)
Theorem resolved_name_comes_from_the_catalog
    (typeName : string) (catalog : list VersionedResourceType.t) (u : string) :
  determineUnderlyingTypeName typeName catalog = Some u ->
  u = typeName
  \/ exists rt, rt ∈ catalog /\ VersionedResourceType.Type_ rt = u.
Proof.
  unfold determineUnderlyingTypeName.
  apply (resolveLoop_origin _ _ _ _
           (fun x => x = typeName
                     \/ exists rt, rt ∈ catalog
                                   /\ VersionedResourceType.Type_ rt = x)).
  - by left.
  - intros e He. apply catalog_lookup_Some in He as [He _]. right. by exists e.
  - intros k e He. apply catalog_lookup_Some in He as [He _]. right. by exists e.
Qed.

(** X7, witness: the cyclic catalog. *)
Lemma resolved_name_comes_from_the_catalog_witness :
  "b" = "a"
  \/ exists rt, rt ∈ cyclicCatalog /\ VersionedResourceType.Type_ rt = "b".
Proof.
  apply (resolved_name_comes_from_the_catalog "a" cyclicCatalog "b").
  vm_compute. reflexivity.
Defined.

Lemma resolveLoop_follows_chain (m : gmap string VersionedResourceType.t)
    (n : string) (ns : list string) (u : string) :
  typeChain m n ns u ->
  NoDup ns ->
  forall fuel m',
    (forall x, m' !! x = m !! x \/ m' !! x = None) ->
    (forall x, x ∈ ns -> x <> n -> m' !! x = m !! x) ->
    (m !! n = None \/ (size m' < fuel)%nat) ->
    resolveLoop fuel n (m !! n) m' = Some u.
Proof.
  induction 1 as [n Hn|n e ns u He Hchain IH]; intros Hnd fuel m' Hsub Hagree Hfuel.
  - rewrite Hn. by destruct fuel.
  - rewrite He. destruct Hfuel as [Hfuel|Hfuel]; [congruence|].
    destruct fuel as [|fuel]; [lia|]. simpl.
    apply NoDup_cons in Hnd as [Hn Hnd].
    set (n2 := VersionedResourceType.Type_ e) in *.
    assert (m' !! n2 = m !! n2) as Hl.
    { inversion Hchain as [n' Hnone|n' e' ns' u' He' Hc']; subst.
      - destruct (Hsub n2) as [H|H]; [done|]. by rewrite H, Hnone.
      - apply Hagree; [right; left|]. intros ->. apply Hn. left. }
    rewrite Hl. apply IH; [done| | |].
    + intros x. rewrite lookup_delete. case_decide; [by right|apply Hsub].
    + intros x Hx Hne. rewrite lookup_delete_ne by done.
      apply Hagree; [by right|]. intros ->. by apply Hn.
    + destruct (m !! n2) as [e2|] eqn:E2; [right|by left].
      pose proof (map_size_delete_Some _ m' (mk_is_Some _ _ Hl)) as Hs.
      assert (size m' <> 0%nat) as Hne.
      { intros Hz. apply map_size_empty_inv in Hz. subst m'.
        by rewrite lookup_empty in Hl. }
      lia.
Qed.

(** X8: when the chain of the catalog from the requested name visits
    no name twice, the requested name resolves to the end of the
    chain, a name without entry in the catalog. *)
Theorem acyclic_chain_resolves_to_its_end
    (typeName : string) (catalog : list VersionedResourceType.t)
    (names : list string) (u : string) :
  typeChain (buildResourceTypesMap catalog) typeName names u ->
  NoDup names ->
  determineUnderlyingTypeName typeName catalog = Some u
  /\ buildResourceTypesMap catalog !! u = None.
Proof.
  intros Hchain Hnd. split.
  - unfold determineUnderlyingTypeName, resolveFuel.
    apply (resolveLoop_follows_chain _ _ _ _ Hchain Hnd).
    + by left.
    + done.
    + right. lia.
  - clear Hnd. induction Hchain; done.
Qed.

(** X8, witness: [pr] is built from [custom], which is built from the
    base type [docker]. *)
Lemma acyclic_chain_resolves_to_its_end_witness :
  determineUnderlyingTypeName "pr" chainCatalog = Some "docker"
  /\ buildResourceTypesMap chainCatalog !! "docker" = None.
Proof.
  apply (acyclic_chain_resolves_to_its_end "pr" chainCatalog ["pr"; "custom"]).
  - eapply typeChain_step; [vm_compute; reflexivity|].
    eapply typeChain_step; [vm_compute; reflexivity|].
    apply typeChain_end. vm_compute. reflexivity.
  - apply NoDup_cons. split; [|apply NoDup_singleton].
    intros H. apply list_elem_of_singleton in H. discriminate.
Defined.

(** X9: [FindResourceTypeByPath] answers with the first resource type
    of the worker whose image is the path; it answers false, with the
    zero value, exactly when no resource type has that image. *)
Theorem FindResourceTypeByPath_finds_the_first_image
    (worker : gardenWorker) (path : string) :
  let types := dbWorker.ResourceTypes (dbWorker_ worker) in
  match FindResourceTypeByPath worker path with
  | (rt, true) =>
      WorkerResourceType.Image rt = path
      /\ exists before after,
           types = before ++ rt :: after
           /\ forall x, x ∈ before -> WorkerResourceType.Image x <> path
  | (rt, false) =>
      rt = WorkerResourceType.mk "" ""
      /\ forall x, x ∈ types -> WorkerResourceType.Image x <> path
  end.
Proof.
  unfold FindResourceTypeByPath.
  induction (dbWorker.ResourceTypes (dbWorker_ worker)) as [|rt l IH]; simpl.
  - split; [done|]. intros x Hx. inversion Hx.
  - case_bool_decide as Hp.
    + split; [done|]. exists [], l. split; [done|]. intros x Hx. inversion Hx.
    + destruct (findResourceTypeByPath l path) as [rt' [|]].
      * destruct IH as (Himg & before & after & -> & Hb). split; [done|].
        exists (rt :: before), after. split; [done|].
        intros x Hx. apply elem_of_cons in Hx as [->|Hx]; [congruence|by apply Hb].
      * destruct IH as [-> Hall]. split; [done|].
        intros x Hx. apply elem_of_cons in Hx as [->|Hx]; [congruence|by apply Hall].
Qed.


(** ** The calls of the mount planner *)

Lemma endsWithItsError_app {A B} (r1 : A + error) (r2 : B + error)
    (l1 l2 : list Event) :
  endsWithItsError r1 l1 -> (exists x, r1 = inl x) ->
  endsWithItsError r2 l2 -> endsWithItsError r2 (l1 ++ l2).
Proof.
  intros H1 [x ->] H2. simpl in H1. destruct r2 as [y|err]; simpl in *.
  - by apply Forall_app.
  - destruct H2 as (pre & e & -> & He & Hpre).
    exists (l1 ++ pre), e. rewrite app_assoc. split; [done|]. split; [done|].
    by apply Forall_app.
Qed.

Lemma endsWithItsError_cons {A} (r : A + error) (e : Event) (l : list Event) :
  plannerError e = None -> endsWithItsError r l -> endsWithItsError r (e :: l).
Proof.
  intros He H. destruct r as [x|err]; simpl in *; [by constructor|].
  destruct H as (pre & e' & -> & He' & Hpre).
  exists (e :: pre), e'. split; [done|]. split; [done|]. by constructor.
Qed.

Lemma endsWithItsError_same {A B} (x : A) (y : B) (l : list Event) :
  endsWithItsError (inl x) l -> endsWithItsError (inl y) l.
Proof. done. Qed.

Lemma endsWithItsError_inr {A B} (err : error) (l : list Event) :
  endsWithItsError (inr err : A + error) l ->
  endsWithItsError (inr err : B + error) l.
Proof. done. Qed.

Section PlannerCalls.
Context {World : Type} (lib : GoLib) (p : containerProvider World).
Context (c : CreatingContainer.t) (spec : ContainerSpec.t) (img : FetchedImage.t).

Lemma scratchMount_calls w r w' l :
  scratchMount p c spec img w = (r, w', l) ->
  Forall (plannerCallFor c spec img) l /\ endsWithItsError r l.
Proof.
  unfold scratchMount. msteps; intros [= <- <- <-].
  - split; [by repeat constructor|]. by repeat constructor.
  - split; [by repeat constructor|]. by exists [], (EvFindOrCreateVolumeForContainer
      (mkVolumeSpec EmptyStrategy (FetchedImage.Privileged img)) c
      (ContainerSpec.TeamID spec) "/scratch" (inr e)).
Qed.

Lemma workdirMount_calls w r w' l :
  workdirMount lib p c spec img w = (r, w', l) ->
  Forall (plannerCallFor c spec img) l /\ endsWithItsError r l.
Proof.
  unfold workdirMount. destruct (_ && _ && _); msteps; intros [= <- <- <-].
  - split; [by repeat constructor|]. by repeat constructor.
  - split; [by repeat constructor|]. by exists [], (EvFindOrCreateVolumeForContainer
      (mkVolumeSpec EmptyStrategy (FetchedImage.Privileged img)) c
      (ContainerSpec.TeamID spec) (ContainerSpec.Dir spec) (inr e)).
  - split; constructor.
Qed.

Lemma inputVolume_calls input w r w' l :
  inputVolume p c spec img input
              (Clean lib (InputSource.DestinationPath input)) w = (r, w', l) ->
  Forall (plannerCallFor c spec img) l
  /\ endsWithItsError r l
  /\ forall v, r = inl v ->
       inputBlock lib c spec img input
                  (mkVolumeMount v (Clean lib (InputSource.DestinationPath input))) l.
Proof.
  unfold inputVolume, inputBlock. msteps; intros [= <- <- <-]; simpl.
  - destruct a as [v|err]; (split; [by repeat constructor|]); split.
    + by repeat constructor.
    + intros v' [= <-]. split; [done|]. left. by exists t.
    + eexists [_], _. split; [reflexivity|]. split; [reflexivity|].
      by repeat constructor.
    + by intros v' [=].
  - split; [by repeat constructor|]. split; [|by intros v' [=]].
    eexists [_; _], _. split; [reflexivity|]. split; [reflexivity|].
    by repeat constructor.
  - split; [by repeat constructor|]. split; [by repeat constructor|].
    intros v' [= <-]. split; [done|]. by right.
  - split; [by repeat constructor|]. split; [|by intros v' [=]].
    eexists [_], _. split; [reflexivity|]. split; [reflexivity|].
    by repeat constructor.
  - split; [by repeat constructor|]. split; [|by intros v' [=]].
    eexists [], _. split; [reflexivity|]. split; [reflexivity|].
    by repeat constructor.
Qed.

Lemma inputsLoop_calls inputs io0 s0 w r w' l :
  inputsLoop lib p c spec img inputs io0 s0 w = (r, w', l) ->
  Forall (plannerCallFor c spec img) l
  /\ endsWithItsError r l
  /\ forall io s, r = inl (io, s) ->
       exists inM blocks,
         io = io0 ++ inM /\ l = concat blocks
         /\ Forall3 (inputBlock lib c spec img) inputs inM blocks.
Proof.
  revert io0 s0 w r w' l.
  induction inputs as [|i inputs IH]; intros io0 s0 w r w' l; simpl.
  - rewrite run_ret. intros [= <- <- <-]. split; [constructor|].
    split; [constructor|]. intros io s [= <- <-]. exists [], [].
    rewrite app_nil_r. repeat split. constructor.
  - rewrite run_bind.
    destruct (inputVolume _ _ _ _ _ _ w) as [[rv w1] l1] eqn:Ev.
    apply inputVolume_calls in Ev as (Hc1 & He1 & Hb1).
    destruct rv as [v|e].
    + destruct (inputsLoop _ _ _ _ _ _ _ _ w1) as [[r2 w2] l2] eqn:El.
      apply IH in El as (Hc2 & He2 & Hb2). intros [= <- <- <-].
      split; [by apply Forall_app|].
      split; [eapply endsWithItsError_app; eauto|].
      intros io s ->. destruct (Hb2 _ _ eq_refl) as (inM & blocks & -> & -> & H3).
      eexists (_ :: inM), (l1 :: blocks). rewrite <- app_assoc.
      split; [reflexivity|]. split; [reflexivity|].
      constructor; [by apply Hb1|done].
    + rewrite run_ret. intros [= <- <- <-]. rewrite app_nil_r.
      split; [done|]. split; [done|]. by intros io s [=].
Qed.

Lemma outputsLoop_calls outs io0 s w r w' l :
  outputsLoop lib p c spec img outs io0 s w = (r, w', l) ->
  Forall (plannerCallFor c spec img) l
  /\ endsWithItsError r l
  /\ forall io, r = inl io ->
       exists outM, io = io0 ++ outM /\ l = map (emptyAllocation c spec img) outM.
Proof.
  revert io0 w r w' l.
  induction outs as [|o outs IH]; intros io0 w r w' l; simpl.
  - rewrite run_ret. intros [= <- <- <-]. split; [constructor|].
    split; [constructor|]. intros io [= <-]. exists []. by rewrite app_nil_r.
  - case_bool_decide; [apply IH|].
    rewrite run_bind, run_call.
    destruct (FindOrCreateVolumeForContainer _ _ _ _ _ w) as [[v|e] w1].
    + destruct (outputsLoop _ _ _ _ _ _ _ _ w1) as [[r2 w2] l2] eqn:El.
      apply IH in El as (Hc2 & He2 & Hb2). intros [= <- <- <-].
      split; [by constructor|].
      split; [by apply endsWithItsError_cons|].
      intros io ->. destruct (Hb2 _ eq_refl) as (outM & -> & ->).
      eexists (_ :: outM). rewrite <- app_assoc. by split.
    + rewrite run_ret. intros [= <- <- <-].
      split; [by repeat constructor|]. split; [|by intros io [=]].
      eexists [], _. split; [reflexivity|]. split; [reflexivity|constructor].
Qed.

Lemma bindMountsLoop_calls mounts acc w r w' l :
  bindMountsLoop p mounts acc w = (r, w', l) ->
  Forall (plannerCallFor c spec img) l
  /\ endsWithItsError r l
  /\ forall bs, r = inl bs ->
       exists answers,
         length answers = length mounts
         /\ l = bindMountLookups mounts answers
         /\ bs = acc ++ omap id answers.
Proof.
  revert acc w r w' l.
  induction mounts as [|m mounts IH]; intros acc w r w' l; simpl.
  - rewrite run_ret. intros [= <- <- <-]. split; [constructor|].
    split; [constructor|]. intros bs [= <-]. exists []. by rewrite app_nil_r.
  - rewrite run_bind, run_call.
    destruct (BindMountVolumeOn p m w) as [[a|e] w1].
    + assert (exists acc', acc' = match a with Some b => acc ++ [b] | None => acc end
                           /\ acc' = acc ++ omap id [a]) as (acc' & Hacc & Hacc').
      { destruct a; eexists; split; try reflexivity. simpl. by rewrite app_nil_r. }
      assert (match a with
              | Some bindMount => bindMountsLoop p mounts (acc ++ [bindMount])
              | None => bindMountsLoop p mounts acc
              end = bindMountsLoop p mounts acc') as -> by (by destruct a; subst).
      destruct (bindMountsLoop p mounts acc' w1) as [[r2 w2] l2] eqn:El.
      apply IH in El as (Hc2 & He2 & Hb2). intros [= <- <- <-].
      split; [by constructor|].
      split; [by apply endsWithItsError_cons|].
      intros bs ->. destruct (Hb2 _ eq_refl) as (answers & Hlen & -> & ->).
      exists (a :: answers). split; [simpl; lia|]. split; [done|].
      rewrite Hacc'. change (a :: answers) with ([a] ++ answers).
      by rewrite omap_app, app_assoc.
    + rewrite run_ret. intros [= <- <- <-].
      split; [by repeat constructor|]. split; [|by intros bs [=]].
      eexists [], _. split; [reflexivity|]. split; [reflexivity|constructor].
Qed.

End PlannerCalls.

Section PlannerProperties.
Context {World : Type} (lib : GoLib) (p : containerProvider World).
Context (c : CreatingContainer.t) (spec : ContainerSpec.t) (img : FetchedImage.t).

Lemma assembleGardenSpec_calls w r w' l :
  assembleGardenSpec lib p c spec img w = (r, w', l) ->
  Forall (plannerCallFor c spec img) l /\ endsWithItsError r l.
Proof.
  unfold assembleGardenSpec. rewrite run_bind.
  destruct (scratchMount _ _ _ _ w) as [[r1 w1] l1] eqn:E1.
  apply scratchMount_calls in E1 as [Hc1 He1].
  destruct r1 as [scratch|e]; cbn beta iota.
  2:{ rewrite run_ret. intros [= <- <- <-]. by rewrite app_nil_r. }
  rewrite run_bind.
  destruct (workdirMount _ _ _ _ _ w1) as [[r2 w2] l2] eqn:E2.
  apply workdirMount_calls in E2 as [Hc2 He2].
  destruct r2 as [workdir|e]; cbn beta iota.
  2:{ rewrite run_ret. intros [= <- <- <-]. rewrite app_nil_r.
      split; [by apply Forall_app|]. eapply endsWithItsError_app; eauto. }
  rewrite run_bind.
  destruct (inputsLoop _ _ _ _ _ _ _ _ w2) as [[r3 w3] l3] eqn:E3.
  apply inputsLoop_calls in E3 as (Hc3 & He3 & _).
  destruct r3 as [[io0 s]|e]; cbn beta iota.
  2:{ rewrite run_ret. intros [= <- <- <-]. rewrite app_nil_r.
      split; [by repeat (apply Forall_app; split)|].
      eapply endsWithItsError_app; eauto.
      eapply endsWithItsError_app; eauto. }
  rewrite run_bind.
  destruct (outputsLoop _ _ _ _ _ _ _ _ w3) as [[r4 w4] l4] eqn:E4.
  apply outputsLoop_calls in E4 as (Hc4 & He4 & _).
  destruct r4 as [io|e]; cbn beta iota.
  2:{ rewrite run_ret. intros [= <- <- <-]. rewrite app_nil_r.
      split; [by repeat (apply Forall_app; split)|].
      repeat (eapply endsWithItsError_app; eauto). }
  rewrite run_bind.
  destruct (bindMountsLoop _ _ _ w4) as [[r5 w5] l5] eqn:E5.
  apply (bindMountsLoop_calls p c spec img) in E5 as (Hc5 & He5 & _).
  destruct r5 as [bs|e]; cbn beta iota; rewrite run_ret;
    intros [= <- <- <-]; rewrite app_nil_r;
    (split; [by repeat (apply Forall_app; split)|]);
    repeat (eapply endsWithItsError_app; eauto).
Qed.

(** X11: whatever its outcome, the planner only calls the volume
    client, the sources of the inputs and the extra bind mounts, and
    every volume it asks for is asked for the creating container, with
    the team of the spec and the privilege of the image. *)
Theorem planner_allocates_for_the_creating_container w r w' l :
  assembleGardenSpec lib p c spec img w = (r, w', l) ->
  Forall (plannerCallFor c spec img) l.
Proof. intros H. by apply assembleGardenSpec_calls in H as [H _]. Qed.

(** X12: when a call of the planner answers an error,
    [createGardenContainer] makes no further call and returns that
    error; garden's [Create] is called at most once, as the last call,
    after a plan without error, and its answer is returned. *)
Theorem planner_error_aborts_before_garden w r w' l :
  createGardenContainer lib p c spec img w = (r, w', l) ->
  endsWithItsError r l
  /\ forall gs a,
       EvGardenCreate gs a ∈ l ->
       r = a
       /\ exists pre,
            l = pre ++ [EvGardenCreate gs a]
            /\ Forall (plannerCallFor c spec img) pre
            /\ Forall (fun e => plannerError e = None) pre.
Proof.
  intros Hrun.
  apply createGardenContainer_hands_over_the_plan in Hrun
    as [(err & Ha & ->)|(gs & vms & io & w1 & l1 & Ha & -> & Hc)];
    apply assembleGardenSpec_calls in Ha as [Hcalls Hend].
  - split; [done|]. intros gs a Hin. exfalso.
    rewrite Forall_forall in Hcalls. by apply Hcalls in Hin.
  - simpl in Hend. split.
    + destruct r as [g|err]; simpl.
      * apply Forall_app. split; [done|by repeat constructor].
      * by exists l1, (EvGardenCreate gs (inr err)).
    + intros gs' a Hin. apply elem_of_app in Hin as [Hin|Hin].
      * exfalso. rewrite Forall_forall in Hcalls. by apply Hcalls in Hin.
      * apply list_elem_of_singleton in Hin. injection Hin as -> ->.
        split; [done|]. by exists l1.
Qed.


End PlannerProperties.

(** X11, witness: a plan whose streaming fails. *)
Lemma planner_allocates_for_the_creating_container_witness :
  exists r w' l,
    assembleGardenSpec goLib (streamFails residentScenario) creating1
                       twoSourcesSpec fetched1 0%nat
    = (r, w', l)
    /\ Forall (plannerCallFor creating1 twoSourcesSpec fetched1) l.
Proof.
  do 3 eexists. split; [vm_compute; reflexivity|].
  eapply (planner_allocates_for_the_creating_container goLib
            (streamFails residentScenario) creating1 twoSourcesSpec fetched1
            0%nat).
  vm_compute. reflexivity.
Defined.

(** X12, witness: the second input is not resident, streaming into its
    volume fails, and nothing is asked of garden. *)
Lemma planner_error_aborts_before_garden_witness :
  exists w' l,
    createGardenContainer goLib (streamFails residentScenario) creating1
                          twoSourcesSpec fetched1 0%nat
    = (inr (ErrOther "stream failed"), w', l)
    /\ endsWithItsError (inr (ErrOther "stream failed") : GardenContainer + error) l
    /\ forall gs a,
         EvGardenCreate gs a ∈ l -> inr (ErrOther "stream failed") = a.
Proof.
  do 2 eexists. split; [vm_compute; reflexivity|].
  edestruct (planner_error_aborts_before_garden goLib
               (streamFails residentScenario) creating1 twoSourcesSpec
               fetched1 0%nat) as [H1 H2]; [vm_compute; reflexivity|].
  split; [exact H1|]. intros gs a Hin. by destruct (H2 gs a Hin) as [? _].
Defined.


(** ** Every run follows the transcripts *)

Section Runs.
Context {World : Type} (lib : GoLib) (p : containerProvider World).
Context (spec : ContainerSpec.t) (image : Image).

Lemma constructGardenWorkerContainer_run created g w res w' l :
  constructGardenWorkerContainer p created g w = (res, w', l) ->
  wrapRun created g res l.
Proof.
  unfold constructGardenWorkerContainer, wrapRun.
  msteps; intros [= <- <- <-]; [right|left]; eauto.
Qed.

Lemma markCreated_run c g w res w' l :
  markCreated p c g w = (res, w', l) -> commitRun c g res l.
Proof.
  intros H. apply markCreated_shape in H as (r & rest & -> & Hcase).
  destruct Hcase as [(err & d & -> & -> & ->)|(created & w1 & -> & Hc)].
  - left. eauto.
  - right. apply constructGardenWorkerContainer_run in Hc. eauto.
Qed.

Lemma assembleGardenSpec_handle c img w gs vms io w' l :
  assembleGardenSpec lib p c spec img w = (inl (gs, vms, io), w', l) ->
  GardenSpec.Handle gs = CreatingContainer.Handle c.
Proof.
  unfold assembleGardenSpec. rewrite run_bind.
  destruct (scratchMount _ _ _ _ w) as [[r1 w1] l1].
  destruct r1 as [scratch|e]; cbn beta iota; [|by rewrite run_ret].
  rewrite run_bind.
  destruct (workdirMount _ _ _ _ _ w1) as [[r2 w2] l2].
  destruct r2 as [workdir|e]; cbn beta iota; [|by rewrite run_ret].
  rewrite run_bind.
  destruct (inputsLoop _ _ _ _ _ _ _ _ w2) as [[r3 w3] l3].
  destruct r3 as [[io0 s]|e]; cbn beta iota; [|by rewrite run_ret].
  rewrite run_bind.
  destruct (outputsLoop _ _ _ _ _ _ _ _ w3) as [[r4 w4] l4].
  destruct r4 as [io1|e]; cbn beta iota; [|by rewrite run_ret].
  rewrite run_bind.
  destruct (bindMountsLoop _ _ _ w4) as [[r5 w5] l5].
  destruct r5 as [bs|e]; cbn beta iota; [|by rewrite run_ret].
  rewrite run_ret. by intros [= <- <- <- <- <-].
Qed.

Lemma createGardenContainer_run c img w r w' l :
  createGardenContainer lib p c spec img w = (r, w', l) ->
  gardenRun c spec img r l.
Proof.
  intros Hrun.
  apply createGardenContainer_hands_over_the_plan in Hrun
    as [(err & Ha & ->)|(gs & vms & io & w1 & l1 & Ha & -> & Hc)].
  - apply assembleGardenSpec_calls in Ha as [Hcalls Hend].
    split; [done|]. left. eauto.
  - pose proof (assembleGardenSpec_handle _ _ _ _ _ _ _ _ Ha) as Hh.
    apply assembleGardenSpec_calls in Ha as [Hcalls Hend]. simpl in Hend.
    split.
    + destruct r as [g|err]; simpl.
      * apply Forall_app. split; [done|by repeat constructor].
      * by exists l1, (EvGardenCreate gs (inr err)).
    + right. by exists l1, gs.
Qed.

Lemma createHoldingLock_run c w res w' l :
  createHoldingLock lib p c spec image w = (res, w', l) ->
  heldRun c spec image res l.
Proof.
  unfold createHoldingLock, heldRun. rewrite run_bind, run_call.
  destruct (FetchForContainer p image c w) as [[fetched|err] w1]; cbn beta iota.
  - rewrite run_bind.
    destruct (createGardenContainer lib p c spec fetched w1)
      as [[[g|err] w2] lg] eqn:Eg; cbn beta iota;
      apply createGardenContainer_run in Eg.
    + rewrite run_bind, run_emit.
      destruct (markCreated p c (Some g) w2) as [[res1 w3] lm] eqn:Em.
      apply markCreated_run in Em. intros [= <- <- <-].
      right; right. exists fetched, lg, g, lm.
      split; [done|]. split; [reflexivity|done].
    + msteps. intros [= <- <- <-]. right; left.
      exists fetched, lg, err, a. split; [done|]. split; [|done].
      simpl. by rewrite ?app_nil_r.
  - msteps. intros [= <- <- <-]. left. by exists err, a.
Qed.

Lemma createUnderLock_run c w res w' l :
  createUnderLock lib p c spec image w = (res, w', l) ->
  lockRun c spec image res l.
Proof.
  intros H. apply createUnderLock_shape in H as (r & rest & -> & Hcase).
  exists r, rest. split; [done|].
  destruct Hcase as [?|[?|(lock & w1 & w2 & lh & -> & Hh & ->)]]; [by left|by right; left|].
  right; right. exists lock, lh. apply createHoldingLock_run in Hh. done.
Qed.

Lemma findOrCreateFromCreating_run c w res w' l :
  findOrCreateFromCreating lib p c spec image w = (res, w', l) ->
  creatingRun c spec image res l.
Proof.
  intros H. apply findOrCreateFromCreating_shape in H
    as (g & err & rest & -> & Hcase).
  exists g, err, rest. split; [done|].
  destruct Hcase as [?|[(? & ? & w1 & Hu)|(? & ? & w1 & Hm)]].
  - by left.
  - right; left. apply createUnderLock_run in Hu. done.
  - right; right. apply markCreated_run in Hm. done.
Qed.

(** Every run of [FindOrCreateContainer] has one of the described
    transcripts. *)
Lemma FindOrCreateContainer_run owner metadata w res w' log :
  FindOrCreateContainer lib p owner metadata spec image w = (res, w', log) ->
  transcriptOfRun owner metadata spec image res log.
Proof.
  intros H. apply FindOrCreateContainer_shape in H as (r & rest & -> & Hcase).
  destruct Hcase as
    [(e & -> & -> & ->)
    |[(cr & cd & g & err & rest' & -> & -> & Hfast)
     |[(e & -> & -> & ->)
      |[(c & w1 & rest' & -> & -> & Hf)|(c & w1 & -> & Hf)]]]].
  - left. eauto.
  - right; left. exists cr, cd, g, err, rest'. split; [done|].
    destruct Hfast as [?|(-> & w1 & Hc)]; [by left|right].
    apply constructGardenWorkerContainer_run in Hc. done.
  - right; right; left. eauto.
  - do 3 right. apply findOrCreateFromCreating_run in Hf.
    exists c, [EvFindContainerOnWorker owner (inl (None, None));
               EvCreateContainer owner metadata (inl c)], rest'.
    split; [by right|done].
  - do 3 right. apply findOrCreateFromCreating_run in Hf.
    exists c, [EvFindContainerOnWorker owner (inl (Some c, None))], rest.
    split; [by left|done].
Qed.

End Runs.

(** ** The lock *)

Lemma wrapRun_events created g res l :
  wrapRun created g res l -> Forall (fun e => isWrapEvent e = true) l.
Proof.
  intros [(e & -> & _)|(vs & r & -> & _)]; by repeat constructor.
Qed.

Lemma commitRun_events c g res l :
  commitRun c g res l -> Forall (fun e => isCommitEvent e = true) l.
Proof.
  intros [(e & d & -> & _)|(created & wrap & -> & Hw)]; [by repeat constructor|].
  constructor; [done|]. apply wrapRun_events in Hw.
  eapply Forall_impl; [exact Hw|]. intros e He. by destruct e.
Qed.

Lemma gardenRun_events c spec img r l :
  gardenRun c spec img r l -> Forall (fun e => isPlannerEvent e = true) l.
Proof.
  assert (forall l', Forall (plannerCallFor c spec img) l' ->
                     Forall (fun e => isPlannerEvent e = true) l') as Hcalls.
  { intros l' H. eapply Forall_impl; [exact H|]. intros e He. by destruct e. }
  intros [_ [[H _]|(pre & gs & -> & H & _)]]; [by apply Hcalls|].
  apply Forall_app. split; [by apply Hcalls|by repeat constructor].
Qed.

Lemma heldRun_events c spec image res l :
  heldRun c spec image res l ->
  Forall (fun e => isCreateEvent e || isCommitEvent e = true) l.
Proof.
  assert (forall img r lg, gardenRun c spec img r lg ->
            Forall (fun e => isCreateEvent e || isCommitEvent e = true) lg)
    as Hg.
  { intros img r lg H. apply gardenRun_events in H.
    eapply Forall_impl; [exact H|]. intros e He. simpl in He.
    destruct e; try done. }
  intros [(e & r & -> & _)
         |[(img & lg & e & r & Hlg & -> & _)
          |(img & lg & g & commit & Hlg & -> & Hc)]].
  - by repeat constructor.
  - constructor; [done|]. apply Forall_app. split; [by eapply Hg|].
    by repeat constructor.
  - constructor; [done|]. apply Forall_app. split; [by eapply Hg|].
    constructor; [done|]. apply commitRun_events in Hc.
    eapply Forall_impl; [exact Hc|]. intros e He. simpl in He.
    rewrite He. apply orb_true_r.
Qed.





(** Membership in a transcript given by its calls: one case per call
    and per segment. *)
Ltac mem_cases H :=
  repeat first
    [ apply elem_of_cons in H as [H|H]
    | apply elem_of_app in H as [H|H]
    | apply elem_of_nil in H; destruct H ].



(** ** What a run does, and when *)

Lemma wrap_is_not_creation (l : list Event) (e : Event) :
  Forall (fun e => isWrapEvent e = true) l -> e ∈ l -> isCreateEvent e = false.
Proof.
  intros H Hin. rewrite Forall_forall in H. apply H in Hin. by destruct e.
Qed.

Lemma commit_is_not_creation (l : list Event) (e : Event) :
  Forall (fun e => isCommitEvent e = true) l -> e ∈ l -> isCreateEvent e = false.
Proof.
  intros H Hin. rewrite Forall_forall in H. apply H in Hin. by destruct e.
Qed.

(** X15: the image is fetched, volumes are allocated, sources are
    streamed, garden's [Create] is called, the record is marked failed
    and the counters are incremented only between the granted
    acquisition of the lock and its release. *)
Theorem creation_work_is_done_holding_the_lock {World : Type} (lib : GoLib)
    (p : containerProvider World) (owner : ContainerOwner)
    (metadata : ContainerMetadata) (spec : ContainerSpec.t)
    (image : Image) (w : World) res w' log e :
  FindOrCreateContainer lib p owner metadata spec image w = (res, w', log) ->
  e ∈ log ->
  isCreateEvent e = true ->
  exists pre id lock held,
    log = pre ++ EvLockAcquire id (inl (Some lock))
              :: held ++ [EvLockRelease lock]
    /\ e ∈ held.
Proof.
  intros Hrun Hin He. apply FindOrCreateContainer_run in Hrun.
  destruct Hrun as
    [(e' & -> & _)
    |[(cr & cd & g & err & rest & -> & Hfast)
     |[(e' & -> & _)
      |(c & pre & tail & Hpre & -> & (g & err & rest & -> & Hcase))]]].
  - mem_cases Hin. by subst.
  - mem_cases Hin; try (subst; discriminate).
    destruct Hfast as [(e' & _ & -> & _)|(_ & Hw)]; [by mem_cases Hin|].
    apply wrapRun_events in Hw. rewrite (wrap_is_not_creation _ _ Hw Hin) in He.
    discriminate.
  - mem_cases Hin; subst; discriminate.
  - mem_cases Hin.
    + destruct Hpre as [-> | ->]; mem_cases Hin; subst; discriminate.
    + subst; discriminate.
    + destruct Hcase as [(_ & -> & _)|[(_ & _ & Hlock)|(_ & _ & Hcommit)]].
      * by mem_cases Hin.
      * destruct Hlock as (r & rest' & -> & Hr). mem_cases Hin;
          [subst; discriminate|].
        destruct Hr as [(e' & _ & -> & _)|[(_ & -> & _)|(lock & held & -> & -> & Hh)]].
        -- by mem_cases Hin.
        -- mem_cases Hin. subst; discriminate.
        -- mem_cases Hin; [|subst; discriminate].
           exists (pre ++ [EvGardenLookup (CreatingContainer.Handle c) (g, err)]),
             (NewContainerCreatingLockID (CreatingContainer.ID c)), lock, held.
           split; [by rewrite <- app_assoc|done].
      * apply commitRun_events in Hcommit.
        rewrite (commit_is_not_creation _ _ Hcommit Hin) in He. discriminate.
Qed.

(** X15, witness: the allocation of the scratch volume. *)
Lemma creation_work_is_done_holding_the_lock_witness :
  exists res w' log,
    FindOrCreateContainer goLib (scripted freshScenario) owner1 metadata1
                          dataSpec image1 0%nat
    = (res, w', log)
    /\ exists pre id lock held,
         log = pre ++ EvLockAcquire id (inl (Some lock))
                   :: held ++ [EvLockRelease lock]
         /\ emptyAllocation creating1 dataSpec fetched1
              (mkVolumeMount (nthVolume 0 "/scratch") "/scratch") ∈ held.
Proof.
  do 3 eexists. split; [vm_compute; reflexivity|].
  eapply (creation_work_is_done_holding_the_lock goLib (scripted freshScenario)
            owner1 metadata1 dataSpec image1 0%nat).
  - vm_compute. reflexivity.
  - do 5 right. left.
  - reflexivity.
Defined.

(** X16: an error of the record store, asked for the record or to make
    it, or of the lock service ends the run: the call that answered it
    is the last one (there is no sleep after it) and the error is
    returned. *)
Theorem store_and_lock_errors_end_the_run {World : Type} (lib : GoLib)
    (p : containerProvider World) (owner : ContainerOwner)
    (metadata : ContainerMetadata) (spec : ContainerSpec.t)
    (image : Image) (w : World) res w' log e err :
  FindOrCreateContainer lib p owner metadata spec image w = (res, w', log) ->
  e ∈ log ->
  openingError e = Some err ->
  res = (None, Some err) /\ exists pre, log = pre ++ [e].
Proof.
  intros Hrun Hin He. apply FindOrCreateContainer_run in Hrun.
  destruct Hrun as
    [(e' & -> & ->)
    |[(cr & cd & g & err' & rest & -> & Hfast)
     |[(e' & -> & ->)
      |(c & pre & tail & Hpre & -> & (g & err' & rest & -> & Hcase))]]].
  - mem_cases Hin. subst. injection He as ->. split; [done|]. by exists [].
  - mem_cases Hin; try (subst; discriminate).
    destruct Hfast as [(e' & _ & -> & _)|(_ & Hw)]; [by mem_cases Hin|].
    apply wrapRun_events in Hw. rewrite Forall_forall in Hw. apply Hw in Hin.
    by destruct e.
  - mem_cases Hin; subst; [discriminate|]. injection He as ->.
    split; [done|]. by eexists [_].
  - mem_cases Hin.
    + destruct Hpre as [-> | ->]; mem_cases Hin; subst; discriminate.
    + subst; discriminate.
    + destruct Hcase as [(_ & -> & _)|[(_ & _ & Hlock)|(_ & _ & Hcommit)]].
      * by mem_cases Hin.
      * destruct Hlock as (r & rest' & -> & Hr). mem_cases Hin.
        -- subst e.
           destruct Hr as [(e' & -> & -> & ->)|[(-> & _)|(lock & held & -> & _)]];
             try discriminate.
           injection He as ->. split; [done|].
           exists (pre ++ [EvGardenLookup (CreatingContainer.Handle c) (g, err')]).
           by rewrite <- app_assoc.
        -- exfalso.
           destruct Hr as [(e' & _ & -> & _)|[(_ & -> & _)|(lock & held & _ & -> & Hh)]].
           ++ by mem_cases Hin.
           ++ mem_cases Hin. subst; discriminate.
           ++ mem_cases Hin; [|subst; discriminate].
              apply heldRun_events in Hh. rewrite Forall_forall in Hh.
              apply Hh in Hin. by destruct e.
      * apply commitRun_events in Hcommit. rewrite Forall_forall in Hcommit.
        apply Hcommit in Hin. by destruct e.
Qed.

(** X16, witness: the lock service fails. *)
Lemma store_and_lock_errors_end_the_run_witness :
  exists res w' log,
    FindOrCreateContainer goLib (scripted lockErrorScenario) owner1 metadata1
                          dataSpec image1 0%nat
    = (res, w', log)
    /\ res = (None, Some (ErrOther "lock service down"))
    /\ exists pre,
         log = pre ++ [EvLockAcquire (NewContainerCreatingLockID 1)
                                     (inr (ErrOther "lock service down"))].
Proof.
  do 3 eexists. split; [vm_compute; reflexivity|].
  eapply (store_and_lock_errors_end_the_run goLib (scripted lockErrorScenario)
            owner1 metadata1 dataSpec image1 0%nat).
  - vm_compute. reflexivity.
  - do 2 right. left.
  - reflexivity.
Defined.






Lemma wrapRun_container created g container err l :
  wrapRun created g (Some container, err) l ->
  err = None
  /\ exists vs,
       l = [EvFindVolumesForContainer created (inl vs);
            EvNewGardenWorkerContainer g created vs (inl container)].
Proof.
  intros [(e & _ & [=])|(vs & r & -> & Hr)].
  destruct r as [c|e]; simpl in Hr; simplify_eq. eauto.
Qed.

Lemma commitRun_container c g container err l :
  commitRun c g (Some container, err) l ->
  err = None
  /\ exists created vs,
       l = [EvCreated c (inl created);
            EvFindVolumesForContainer created (inl vs);
            EvNewGardenWorkerContainer g created vs (inl container)].
Proof.
  intros [(e & d & _ & [=])|(created & wrap & -> & Hw)].
  apply wrapRun_container in Hw as (-> & vs & ->). eauto.
Qed.

(** X18: a run that returns a container returns no error; the
    container is the one built, by the last call but the release of the
    lock, from the record that the store answered as created or that
    was just marked created, from its volumes, and from the garden
    container that garden answered to the lookup or to [Create]. *)
Theorem returned_container_wraps_the_created_record {World : Type} (lib : GoLib)
    (p : containerProvider World) (owner : ContainerOwner)
    (metadata : ContainerMetadata) (spec : ContainerSpec.t)
    (image : Image) (w : World) w' log container err :
  FindOrCreateContainer lib p owner metadata spec image w
  = ((Some container, err), w', log) ->
  err = None
  /\ exists pre g created vs post,
       log = pre ++ [EvFindVolumesForContainer created (inl vs);
                     EvNewGardenWorkerContainer g created vs (inl container)]
                 ++ post
       /\ (post = [] \/ exists lock, post = [EvLockRelease lock])
       /\ ((exists cr, EvFindContainerOnWorker owner (inl (cr, Some created)) ∈ pre)
           \/ (exists c, EvCreated c (inl created) ∈ pre))
       /\ ((exists h lerr, EvGardenLookup h (g, lerr) ∈ pre
                           /\ fatalLookupError lerr = false)
           \/ (exists gs gc, g = Some gc /\ EvGardenCreate gs (inl gc) ∈ pre)).
Proof.
  intros Hrun. apply FindOrCreateContainer_run in Hrun.
  destruct Hrun as
    [(e' & _ & [=])
    |[(cr & cd & g & err' & rest & -> & Hfast)
     |[(e' & _ & [=])
      |(c & pre & tail & Hpre & -> & (g & err' & rest & -> & Hcase))]]].
  - destruct Hfast as [(e' & _ & _ & [=])|(-> & Hw)].
    apply wrapRun_container in Hw as (-> & vs & ->). split; [done|].
    exists [EvFindContainerOnWorker owner (inl (cr, Some cd));
            EvGardenLookup (CreatedContainer.Handle cd) (g, None)],
      g, cd, vs, [].
    split; [done|]. split; [by left|]. split.
    + left. exists cr. left.
    + left. exists (CreatedContainer.Handle cd), None. split; [right; left|done].
  - destruct Hcase as [(_ & _ & [=])|[(_ & _ & Hlock)|(Hf & _ & Hcommit)]].
    + destruct Hlock as (r & rest' & -> & Hr).
      destruct Hr as [(e' & _ & _ & [=])|[(_ & _ & [=])|(lock & held & -> & -> & Hh)]].
      destruct Hh as [(e' & r & _ & [=])
                     |[(img' & lg & e' & r & _ & _ & [=])
                      |(img' & lg & gc & commit & Hlg & -> & Hc)]].
      apply commitRun_container in Hc as (-> & created & vs & ->).
      split; [done|].
      destruct Hlg as [_ [(_ & e' & [=])|(pre' & gs & -> & _)]].
      exists (pre ++ [EvGardenLookup (CreatingContainer.Handle c) (g, err');
                      EvLockAcquire
                        (NewContainerCreatingLockID (CreatingContainer.ID c))
                        (inl (Some lock));
                      EvFetchForContainer image c (inl img')]
                  ++ pre' ++ [EvGardenCreate gs (inl gc);
                              EvContainersCreatedInc;
                              EvCreated c (inl created)]),
        (Some gc), created, vs, [EvLockRelease lock].
      split; [|split; [right; eauto|split]].
      * rewrite <- !app_assoc. simpl. rewrite <- !app_assoc. reflexivity.
      * right. exists c. rewrite !elem_of_app. do 3 right.
        do 2 right. left.
      * right. exists gs, gc. split; [done|].
        rewrite !elem_of_app. do 3 right. left.
    + apply commitRun_container in Hcommit as (-> & created & vs & ->).
      split; [done|].
      exists (pre ++ [EvGardenLookup (CreatingContainer.Handle c) (g, err');
                      EvCreated c (inl created)]),
        g, created, vs, [].
      split; [|split; [by left|split]].
      * rewrite <- !app_assoc. reflexivity.
      * right. exists c. rewrite elem_of_app. right. right. left.
      * left. exists (CreatingContainer.Handle c), err'. split; [|done].
        rewrite elem_of_app. right. left.
Qed.

(** X18, witness: a run that creates the container. *)
Lemma returned_container_wraps_the_created_record_witness :
  exists container err w' log,
    FindOrCreateContainer goLib (scripted freshScenario) owner1 metadata1
                          dataSpec image1 0%nat
    = ((Some container, err), w', log)
    /\ err = None
    /\ exists pre g created vs post,
         log = pre ++ [EvFindVolumesForContainer created (inl vs);
                       EvNewGardenWorkerContainer g created vs (inl container)]
                   ++ post
         /\ (post = [] \/ exists lock, post = [EvLockRelease lock])
         /\ ((exists cr,
                EvFindContainerOnWorker owner1 (inl (cr, Some created)) ∈ pre)
             \/ (exists c, EvCreated c (inl created) ∈ pre))
         /\ ((exists h lerr, EvGardenLookup h (g, lerr) ∈ pre
                             /\ fatalLookupError lerr = false)
             \/ (exists gs gc, g = Some gc /\ EvGardenCreate gs (inl gc) ∈ pre)).
Proof.
  do 4 eexists. split; [vm_compute; reflexivity|].
  eapply (returned_container_wraps_the_created_record goLib
            (scripted freshScenario) owner1 metadata1 dataSpec image1 0%nat).
  vm_compute. reflexivity.
Defined.

(** X19: a run returns neither a container nor an error only when the
    lock was refused: its last calls are then the refused acquisition
    of the lock of the creating container and the sleep. *)
Theorem no_container_and_no_error_means_a_refused_lock {World : Type}
    (lib : GoLib) (p : containerProvider World) (owner : ContainerOwner)
    (metadata : ContainerMetadata) (spec : ContainerSpec.t)
    (image : Image) (w : World) w' log :
  FindOrCreateContainer lib p owner metadata spec image w
  = ((None, None), w', log) ->
  exists c pre lerr,
    opensOn owner metadata c pre
    /\ log = pre ++ [EvGardenLookup (CreatingContainer.Handle c) (None, lerr);
                     EvLockAcquire
                       (NewContainerCreatingLockID (CreatingContainer.ID c))
                       (inl None);
                     EvSleep creatingContainerRetryDelay].
Proof.
  assert (forall created g l, ~ wrapRun created g (None, None) l) as Hwrap.
  { intros created g l [(e & _ & [=])|(vs & [c|e] & _ & [=])]. }
  assert (forall c g l, ~ commitRun c g (None, None) l) as Hcommit.
  { intros c g l [(e & d & _ & [=])|(created & wrap & _ & Hw)].
    by apply Hwrap in Hw. }
  intros Hrun. apply FindOrCreateContainer_run in Hrun.
  destruct Hrun as
    [(e' & _ & [=])
    |[(cr & cd & g & err' & rest & -> & Hfast)
     |[(e' & _ & [=])
      |(c & pre & tail & Hpre & -> & (g & err' & rest & -> & Hcase))]]].
  - destruct Hfast as [(e' & _ & _ & [=])|(_ & Hw)]. by apply Hwrap in Hw.
  - destruct Hcase as [(Hf & _ & [= <-])|[(_ & -> & Hlock)|(_ & _ & Hc)]].
    + discriminate.
    + destruct Hlock as (r & rest' & -> & Hr).
      destruct Hr as [(e' & _ & _ & [=])|[(-> & -> & _)|(lock & held & _ & _ & Hh)]].
      * by exists c, pre, err'.
      * destruct Hh as [(e' & r' & _ & [=])
                       |[(img' & lg & e' & r' & _ & _ & [=])
                        |(img' & lg & gc & commit & _ & _ & Hc)]].
        by apply Hcommit in Hc.
    + by apply Hcommit in Hc.
Qed.

(** X19, witness: the lock is held elsewhere. *)
Lemma no_container_and_no_error_means_a_refused_lock_witness :
  exists w' log,
    FindOrCreateContainer goLib (scripted lockedScenario) owner1 metadata1
                          dataSpec image1 0%nat
    = ((None, None), w', log)
    /\ exists c pre lerr,
         opensOn owner1 metadata1 c pre
         /\ log = pre ++ [EvGardenLookup (CreatingContainer.Handle c) (None, lerr);
                          EvLockAcquire
                            (NewContainerCreatingLockID (CreatingContainer.ID c))
                            (inl None);
                          EvSleep creatingContainerRetryDelay].
Proof.
  do 2 eexists. split; [vm_compute; reflexivity|].
  eapply (no_container_and_no_error_means_a_refused_lock goLib
            (scripted lockedScenario) owner1 metadata1 dataSpec image1 0%nat).
  vm_compute. reflexivity.
Defined.

Lemma commitRun_handle c g res l e h :
  commitRun c g res l -> e ∈ l -> handleAskedOfGarden e = Some h ->
  h = CreatingContainer.Handle c.
Proof.
  intros [(e' & d & -> & _)|(created & wrap & -> & Hw)] Hin He.
  - mem_cases Hin; subst; simpl in He; by simplify_eq.
  - mem_cases Hin; [by subst|].
    apply wrapRun_events in Hw. rewrite Forall_forall in Hw. apply Hw in Hin.
    by destruct e.
Qed.

Lemma gardenRun_handle c spec img r l e h :
  gardenRun c spec img r l -> e ∈ l -> handleAskedOfGarden e = Some h ->
  h = CreatingContainer.Handle c.
Proof.
  assert (forall l', Forall (plannerCallFor c spec img) l' -> e ∈ l' ->
                     handleAskedOfGarden e = None) as Hcalls.
  { intros l' H Hin. rewrite Forall_forall in H. apply H in Hin. by destruct e. }
  intros [_ [[H _]|(pre & gs & -> & H & Hh)]] Hin He.
  - rewrite (Hcalls _ H Hin) in He. discriminate.
  - mem_cases Hin.
    + rewrite (Hcalls _ H Hin) in He. discriminate.
    + subst e. simpl in He. by simplify_eq.
Qed.

(** X20: whenever garden is called in a run (to look a container up, to
    create it or to destroy it), it is called under the handle of the
    record of the run: the created record that the store answered, or
    the creating record that the store answered or made. *)
Theorem garden_is_called_under_the_handle_of_the_record {World : Type}
    (lib : GoLib) (p : containerProvider World) (owner : ContainerOwner)
    (metadata : ContainerMetadata) (spec : ContainerSpec.t)
    (image : Image) (w : World) res w' log e h :
  FindOrCreateContainer lib p owner metadata spec image w = (res, w', log) ->
  e ∈ log ->
  handleAskedOfGarden e = Some h ->
  (exists cr cd tail,
      log = EvFindContainerOnWorker owner (inl (cr, Some cd)) :: tail
      /\ h = CreatedContainer.Handle cd)
  \/ (exists c pre tail,
        opensOn owner metadata c pre /\ log = pre ++ tail
        /\ h = CreatingContainer.Handle c).
Proof.
  intros Hrun Hin He. apply FindOrCreateContainer_run in Hrun.
  destruct Hrun as
    [(e' & -> & _)
    |[(cr & cd & g & err' & rest & -> & Hfast)
     |[(e' & -> & _)
      |(c & pre & tail & Hpre & -> & (g & err' & rest & -> & Hcase))]]].
  - mem_cases Hin. by subst.
  - left. exists cr, cd, (EvGardenLookup (CreatedContainer.Handle cd) (g, err') :: rest).
    split; [done|]. mem_cases Hin; [by subst|subst; simpl in He; by simplify_eq|].
    destruct Hfast as [(e' & _ & -> & _)|(_ & Hw)]; [by mem_cases Hin|].
    apply wrapRun_events in Hw. rewrite Forall_forall in Hw. apply Hw in Hin.
    by destruct e.
  - mem_cases Hin; by subst.
  - right. exists c, pre, (EvGardenLookup (CreatingContainer.Handle c) (g, err') :: rest).
    split; [done|]. split; [done|]. mem_cases Hin.
    + destruct Hpre as [-> | ->]; mem_cases Hin; by subst.
    + subst; simpl in He; by simplify_eq.
    + destruct Hcase as [(_ & -> & _)|[(_ & _ & Hlock)|(_ & _ & Hcommit)]].
      * by mem_cases Hin.
      * destruct Hlock as (r & rest' & -> & Hr). mem_cases Hin; [by subst|].
        destruct Hr as [(e' & _ & -> & _)|[(_ & -> & _)|(lock & held & _ & -> & Hh)]].
        -- by mem_cases Hin.
        -- mem_cases Hin. by subst.
        -- mem_cases Hin; [|by subst].
           destruct Hh as [(e' & r' & -> & _)
                          |[(img' & lg & e' & r' & Hlg & -> & _)
                           |(img' & lg & gc & commit & Hlg & -> & Hc)]].
           ++ mem_cases Hin; by subst.
           ++ mem_cases Hin; try by subst.
              by eapply gardenRun_handle.
           ++ mem_cases Hin; try by subst.
              ** by eapply gardenRun_handle.
              ** by eapply commitRun_handle.
      * by eapply commitRun_handle.
Qed.

(** X20, witness: the container that could not be marked created is
    destroyed under the handle of the creating record. *)
Lemma garden_is_called_under_the_handle_of_the_record_witness :
  exists res w' log,
    FindOrCreateContainer goLib (scripted commitFailsScenario) owner1 metadata1
                          dataSpec image1 0%nat
    = (res, w', log)
    /\ EvGardenDestroy "handle-1" (Some (ErrOther "destroy failed")) ∈ log
    /\ ((exists cr cd tail,
           log = EvFindContainerOnWorker owner1 (inl (cr, Some cd)) :: tail
           /\ "handle-1" = CreatedContainer.Handle cd)
        \/ (exists c pre tail,
              opensOn owner1 metadata1 c pre /\ log = pre ++ tail
              /\ "handle-1" = CreatingContainer.Handle c)).
Proof.
  do 3 eexists. split; [vm_compute; reflexivity|].
  split; [do 13 right; left|].
  eapply (garden_is_called_under_the_handle_of_the_record goLib
            (scripted commitFailsScenario) owner1 metadata1 dataSpec image1
            0%nat).
  - vm_compute. reflexivity.
  - do 13 right. left.
  - reflexivity.
Defined.

(** ** Finding a created container by its handle *)

(** X21: when garden does not know the handle,
    [FindCreatedContainerByHandle] reports the container as not found
    and returns no error; any other error of garden is returned.  In
    both cases the lookup in garden is the only call: the store is
    asked for the record only after garden found the container, and it
    is asked with the handle and the team that were given. *)
Theorem missing_garden_container_is_not_found {World : Type}
    (p : containerProvider World)
    (byHandle : Z -> string -> World ->
                (option CreatedContainer.t + error) * World)
    (handle : string) (teamID : Z) (w : World) res w' l :
  FindCreatedContainerByHandle p byHandle handle teamID w = (res, w', l) ->
  (forall h g e,
      EvProvider (EvGardenLookup h (g, Some e)) ∈ l ->
      l = [EvProvider (EvGardenLookup handle (g, Some e))]
      /\ res = (None, false,
                if isContainerNotFoundError e then None else Some e))
  /\ (forall team h r,
        EvFindCreatedContainerByHandle team h r ∈ l ->
        team = teamID /\ h = handle
        /\ exists g post,
             l = EvProvider (EvGardenLookup handle (g, None))
                 :: EvFindCreatedContainerByHandle teamID handle r :: post).
Proof.
  unfold FindCreatedContainerByHandle.
  destruct (Lookup p handle w) as [[g err] w1].
  destruct err as [e|].
  { intros Hrun.
    assert (l = [EvProvider (EvGardenLookup handle (g, Some e))]
            /\ res = (None, false,
                      if isContainerNotFoundError e then None else Some e))
      as [-> ->].
    { destruct (isContainerNotFoundError e); by simplify_eq. }
    split.
    - intros h g' e' Hin. mem_cases Hin. by simplify_eq.
    - intros team h r Hin. mem_cases Hin. discriminate. }
  destruct (byHandle teamID handle w1) as [r w2].
  destruct r as [[created|]|e]; cbn beta iota zeta.
  2,3: intros [= <- <- <-]; split;
    [intros h g' e' Hin; mem_cases Hin; discriminate
    |intros team h r' Hin; mem_cases Hin; try discriminate;
     simplify_eq; eauto].
  destruct (FindVolumesForContainer p created w2) as [[vs|e] w3];
    cbn beta iota zeta;
    [destruct (newGardenWorkerContainer p g created vs (workerName p) w3)
       as [[c|e] w4]; cbn beta iota zeta|];
    intros [= <- <- <-]; (split;
    [intros h g' e' Hin; mem_cases Hin; discriminate
    |intros team h r' Hin; mem_cases Hin; try discriminate;
     simplify_eq; eauto]).
Qed.

(** X21, witness: garden has lost the container. *)
Lemma missing_garden_container_is_not_found_witness :
  exists res w' l,
    FindCreatedContainerByHandle (scripted lostScenario) storeHasCreated1
                                 "handle-1" 5 0%nat
    = (res, w', l)
    /\ l = [EvProvider
              (EvGardenLookup "handle-1"
                 (None, Some (ContainerNotFoundError "handle-1")))]
    /\ res = (None, false, None).
Proof.
  do 3 eexists. split; [vm_compute; reflexivity|].
  edestruct (missing_garden_container_is_not_found (scripted lostScenario)
               storeHasCreated1 "handle-1" 5 0%nat) as [H _];
    [vm_compute; reflexivity|].
  apply (H "handle-1" None (ContainerNotFoundError "handle-1")). left.
Defined.

(** X22: [FindCreatedContainerByHandle] answers found exactly when it
    returns a container, and then without error: the container is
    built from the container that garden answered, the record that the
    store answered and its volumes.  It answers not found without
    error exactly when garden does not know the handle or the store
    has no record of it. *)
Theorem found_container_is_built_from_garden_and_the_store {World : Type}
    (p : containerProvider World)
    (byHandle : Z -> string -> World ->
                (option CreatedContainer.t + error) * World)
    (handle : string) (teamID : Z) (w : World) c found err w' l :
  FindCreatedContainerByHandle p byHandle handle teamID w
  = ((c, found, err), w', l) ->
  (found = true <-> c <> None)
  /\ (found = true ->
      err = None
      /\ exists g created vs container,
           c = Some container
           /\ l = [EvProvider (EvGardenLookup handle (g, None));
                   EvFindCreatedContainerByHandle teamID handle
                     (inl (Some created));
                   EvProvider (EvFindVolumesForContainer created (inl vs));
                   EvProvider (EvNewGardenWorkerContainer g created vs
                                 (inl container))])
  /\ (found = false /\ err = None <->
      (exists g e, l = [EvProvider (EvGardenLookup handle (g, Some e))]
                   /\ isContainerNotFoundError e = true)
      \/ (exists g, l = [EvProvider (EvGardenLookup handle (g, None));
                         EvFindCreatedContainerByHandle teamID handle
                           (inl None)])).
Proof.
  unfold FindCreatedContainerByHandle.
  destruct (Lookup p handle w) as [[g gerr] w1].
  destruct gerr as [e|].
  { destruct (isContainerNotFoundError e) eqn:Ee; intros [= <- <- <- <- <-].
    - split; [done|]. split; [done|]. split; [|done].
      intros _. left. by exists g, e.
    - split; [done|]. split; [done|]. split; [by intros [_ [=]]|].
      intros [(g' & e' & [= <- <-] & He')|(g' & [=])]. congruence. }
  destruct (byHandle teamID handle w1) as [r w2].
  destruct r as [[created|]|e]; cbn beta iota zeta.
  - destruct (FindVolumesForContainer p created w2) as [[vs|e] w3];
      cbn beta iota zeta.
    + destruct (newGardenWorkerContainer p g created vs (workerName p) w3)
        as [[container|e] w4]; cbn beta iota zeta; intros [= <- <- <- <- <-].
      * split; [done|]. split.
        -- intros _. split; [done|]. by exists g, created, vs, container.
        -- split; [by intros [[=] _]|]. by intros [(g' & e' & [=] & _)|(g' & [=])].
      * split; [done|]. split; [done|].
        split; [by intros [_ [=]]|]. by intros [(g' & e' & [=] & _)|(g' & [=])].
    + intros [= <- <- <- <- <-]. split; [done|]. split; [done|].
      split; [by intros [_ [=]]|]. by intros [(g' & e' & [=] & _)|(g' & [=])].
  - intros [= <- <- <- <- <-]. split; [done|]. split; [done|].
    split; [|done]. intros _. right. by exists g.
  - intros [= <- <- <- <- <-]. split; [done|]. split; [done|].
    split; [by intros [_ [=]]|]. by intros [(g' & e' & [=] & _)|(g' & [=])].
Qed.

(** X22, witness: garden and the store have the container. *)
Lemma found_container_is_built_from_garden_and_the_store_witness :
  exists c err w' l,
    FindCreatedContainerByHandle (scripted createdScenario) storeHasCreated1
                                 "handle-1" 5 0%nat
    = ((c, true, err), w', l)
    /\ err = None
    /\ exists g created vs container,
         c = Some container
         /\ l = [EvProvider (EvGardenLookup "handle-1" (g, None));
                 EvFindCreatedContainerByHandle 5 "handle-1"
                   (inl (Some created));
                 EvProvider (EvFindVolumesForContainer created (inl vs));
                 EvProvider (EvNewGardenWorkerContainer g created vs
                               (inl container))].
Proof.
  do 4 eexists. split; [vm_compute; reflexivity|].
  edestruct (found_container_is_built_from_garden_and_the_store
               (scripted createdScenario) storeHasCreated1 "handle-1" 5 0%nat)
    as (_ & H & _); [vm_compute; reflexivity|].
  by apply H.
Defined.

(** X23: a created container that the store has and that garden does
    not know is an error for [FindOrCreateContainer], which returns
    garden's error, and a container not found, without error, for
    [FindCreatedContainerByHandle]; both stop after the lookup in
    garden. *)
Theorem lost_container_is_an_error_only_for_FindOrCreateContainer
    {World : Type} (lib : GoLib) (p : containerProvider World)
    (byHandle : Z -> string -> World ->
                (option CreatedContainer.t + error) * World)
    (owner : ContainerOwner) (metadata : ContainerMetadata)
    (spec : ContainerSpec.t) (image : Image) (teamID : Z)
    (w w0 w1 : World) cr cd g e :
  FindContainerOnWorker p owner w = (inl (cr, Some cd), w0) ->
  Lookup p (CreatedContainer.Handle cd) w0 = ((g, Some e), w1) ->
  isContainerNotFoundError e = true ->
  FindOrCreateContainer lib p owner metadata spec image w
  = ((None, Some e), w1,
     [EvFindContainerOnWorker owner (inl (cr, Some cd));
      EvGardenLookup (CreatedContainer.Handle cd) (g, Some e)])
  /\ FindCreatedContainerByHandle p byHandle (CreatedContainer.Handle cd)
                                  teamID w0
     = ((None, false, None), w1,
        [EvProvider (EvGardenLookup (CreatedContainer.Handle cd) (g, Some e))]).
Proof.
  intros Hfind Hlookup He. split.
  - unfold FindOrCreateContainer. rewrite run_bind, run_call, Hfind.
    destruct cr; rewrite run_bind, run_call, Hlookup; reflexivity.
  - unfold FindCreatedContainerByHandle. by rewrite Hlookup, He.
Qed.

(** X23, witness: the store has the created container, garden has lost
    it. *)
Lemma lost_container_is_an_error_only_for_FindOrCreateContainer_witness :
  FindOrCreateContainer goLib (scripted lostScenario) owner1 metadata1
                        dataSpec image1 0%nat
  = ((None, Some (ContainerNotFoundError "handle-1")), 0%nat,
     [EvFindContainerOnWorker owner1 (inl (None, Some created1));
      EvGardenLookup (CreatedContainer.Handle created1)
        (None, Some (ContainerNotFoundError "handle-1"))])
  /\ FindCreatedContainerByHandle (scripted lostScenario) storeHasCreated1
                                  (CreatedContainer.Handle created1) 5 0%nat
     = ((None, false, None), 0%nat,
        [EvProvider
           (EvGardenLookup (CreatedContainer.Handle created1)
              (None, Some (ContainerNotFoundError "handle-1")))]).
Proof.
  apply (lost_container_is_an_error_only_for_FindOrCreateContainer goLib
           (scripted lostScenario) storeHasCreated1 owner1 metadata1 dataSpec
           image1 5 0%nat 0%nat 0%nat None created1 None
           (ContainerNotFoundError "handle-1")); reflexivity.
Defined.

(** ** Teams and custom resource types *)

(** X24: a worker owned by a team refuses, with the team error, exactly
    the specs of another team, and the specs it satisfies are of its
    own team. *)
Theorem team_worker_serves_only_its_team
    (worker : gardenWorker) (spec : WorkerSpec.t) :
  IsOwnedByTeam worker = true ->
  (Satisfying worker spec = Some (None, Some ErrTeamMismatch) <->
   WorkerSpec.TeamID spec <> dbWorker.TeamID (dbWorker_ worker))
  /\ (forall w, Satisfying worker spec = Some (Some w, None) ->
                WorkerSpec.TeamID spec = dbWorker.TeamID (dbWorker_ worker)).
Proof.
  unfold IsOwnedByTeam. intros Howned. apply bool_decide_eq_true in Howned.
  assert (teamRule worker spec <->
          WorkerSpec.TeamID spec = dbWorker.TeamID (dbWorker_ worker)) as Hteam.
  { unfold teamRule. tauto. }
  destruct (Satisfying_spec worker spec) as (r & -> & Hcases).
  destruct Hcases as [(Ht&->)|[(Ht&?&->)|[(Ht&?&?&->)|[(Ht&?&?&?&->)|(Ht&?&?&?&->)]]]];
    rewrite Hteam in Ht; (split; [split; [intros [=]|]|intros w [=]]); try done.
Qed.

(** X24, witness: the worker of team 5 and a spec of team 5. *)
Lemma team_worker_serves_only_its_team_witness :
  (Satisfying gpuWorker (specWithTags ["gpu"])
   = Some (None, Some ErrTeamMismatch) <->
   WorkerSpec.TeamID (specWithTags ["gpu"])
   <> dbWorker.TeamID (dbWorker_ gpuWorker))
  /\ (forall w, Satisfying gpuWorker (specWithTags ["gpu"]) = Some (Some w, None) ->
                WorkerSpec.TeamID (specWithTags ["gpu"])
                = dbWorker.TeamID (dbWorker_ gpuWorker)).
Proof.
  apply (team_worker_serves_only_its_team gpuWorker (specWithTags ["gpu"])).
  reflexivity.
Defined.

(** X25: when the spec asks for a custom type whose chain in the
    catalog visits no name twice, a worker that passes the team rule
    refuses it as unsupported exactly when it has no resource type of
    the base type at the end of the chain: the names along the chain
    play no role. *)
Theorem custom_type_is_served_through_its_base_type
    (worker : gardenWorker) (spec : WorkerSpec.t)
    (names : list string) (u : string) :
  teamRule worker spec ->
  WorkerSpec.ResourceType spec <> "" ->
  typeChain (buildResourceTypesMap (WorkerSpec.ResourceTypes spec))
            (WorkerSpec.ResourceType spec) names u ->
  NoDup names ->
  (Satisfying worker spec = Some (None, Some ErrUnsupportedResourceType) <->
   forall t, t ∈ dbWorker.ResourceTypes (dbWorker_ worker) ->
             WorkerResourceType.Type_ t <> u).
Proof.
  intros Hteam Hrt Hchain Hnd.
  assert (determineUnderlyingTypeName (WorkerSpec.ResourceType spec)
                                      (WorkerSpec.ResourceTypes spec) = Some u)
    as Hu.
  { unfold determineUnderlyingTypeName, resolveFuel.
    apply (resolveLoop_follows_chain _ _ _ _ Hchain Hnd);
      [by left|done|right; lia]. }
  assert (resourceTypeRule worker spec <->
          exists t, t ∈ dbWorker.ResourceTypes (dbWorker_ worker)
                    /\ WorkerResourceType.Type_ t = u) as Hrule.
  { unfold resourceTypeRule. rewrite Hu. split.
    - intros H. destruct (H Hrt) as (u' & t & [= <-] & Hin & Ht). eauto.
    - intros (t & Hin & Ht) _. eauto. }
  assert ((exists t, t ∈ dbWorker.ResourceTypes (dbWorker_ worker)
                     /\ WorkerResourceType.Type_ t = u)
          -> ~ (forall t, t ∈ dbWorker.ResourceTypes (dbWorker_ worker) ->
                          WorkerResourceType.Type_ t <> u)) as Hex.
  { intros (t & Hin & Ht) H. by apply (H t). }
  destruct (Satisfying_spec worker spec) as (r & -> & Hcases).
  destruct Hcases as [(Ht&->)|[(_&Hr&->)|[(_&Hr&?&->)|[(_&Hr&?&?&->)|(_&Hr&?&?&->)]]]];
    try done; rewrite Hrule in Hr.
  - split; [intros _|done]. intros t Hin Ht. apply Hr. eauto.
  - split; [done|]. intros Hall. by apply Hex in Hr.
  - split; [done|]. intros Hall. by apply Hex in Hr.
  - split; [done|]. intros Hall. by apply Hex in Hr.
Qed.

(** X25, witness: [pr] is built from [custom], which is built from
    [docker], and the worker has [docker]. *)
Lemma custom_type_is_served_through_its_base_type_witness :
  Satisfying dockerWorker prSpec = Some (None, Some ErrUnsupportedResourceType)
  <-> forall t, t ∈ dbWorker.ResourceTypes (dbWorker_ dockerWorker) ->
                WorkerResourceType.Type_ t <> "docker".
Proof.
  apply (custom_type_is_served_through_its_base_type dockerWorker prSpec
           ["pr"; "custom"] "docker").
  - by left.
  - discriminate.
  - eapply typeChain_step; [vm_compute; reflexivity|].
    eapply typeChain_step; [vm_compute; reflexivity|].
    apply typeChain_end. vm_compute. reflexivity.
  - apply NoDup_cons. split; [|apply NoDup_singleton].
    intros H. apply list_elem_of_singleton in H. discriminate.
Defined.
